(** * emulisocomp: the CHD conversion workshop (emulisocomp.py)

    A shallow embedding of [CHDManager] and the properties of its
    classification, audit, selection and conversion steps.

    Conventions of the embedding.
    - A Python [str] is a [string]; its characters are read as the code
      points U+0000..U+00FF.  [lower] and [int] follow CPython on that range.
    - [int] is CPython's [int(str)] in base 10.  The interpreter's run-time
      limit on the number of digits ([sys.int_max_str_digits]) is a setting
      of the interpreter and is taken as switched off; memory is not
      bounded, so a range is as long as it is written.
    - [pathlib] is the one of CPython 3.11, the first version with the
      [tomllib] that the source imports: [suffix] looks at the last dot of
      the whole name, leading dots included.
    - A method that reads or changes [self], the terminal, the disk or the
      clock is a computation in the monad [M]: it takes the state and gives
      back a result or an exception, together with the state reached.  An
      exception keeps the state changes made before it was raised.
    - The external converter is a function of its two path arguments.  Its
      launch always succeeds and so does appending to the log file; writing
      [config.toml] may fail, as scripted by the state.  [write_text] opens
      the file for writing, which empties it, and then writes the text: a
      write that fails at the opening leaves the file as it was, one that
      fails later leaves it torn, empty or cut short.
    - [config.toml], when it is there, holds a document with the three
      lists or is torn.  What [tomlkit] makes of a torn text depends on
      where it was cut (a parse error, or a document whose missing table
      makes the first lookup raise): the embedding lets the load raise. *)

From Stdlib Require Import String Ascii List ZArith NArith Lia Bool Arith.
From Stdlib Require Import Sorting.Permutation.
From Stdlib Require Import Sorting.Sorted.
Import ListNotations.
Open Scope string_scope.
Open Scope list_scope.

(** ** Exceptions and results *)

Inductive exn : Type :=
| ValueError
| EOFError
| IndexError
| KeyError
| OSError
| FileNotFoundError
| NotADirectoryError
| UnicodeEncodeError.

Inductive result (A : Type) : Type :=
| Ok (a : A)
| Raise (e : exn).

Arguments Ok {A} a.
Arguments Raise {A} e.

Definition rbind {A B} (r : result A) (k : A -> result B) : result B :=
  match r with
  | Ok a => k a
  | Raise e => Raise e
  end.

(** ** Python strings *)

Module PyStr.

(** [str.lower] on one character: A..Z, and the Latin-1 capitals
    U+00C0..U+00DE without the multiplication sign U+00D7. *)
Definition lower_char (c : ascii) : ascii :=
  let n := N_of_ascii c in
  if ((65 <=? n) && (n <=? 90) || (192 <=? n) && (n <=? 222) && negb (n =? 215))%N
  then ascii_of_N (n + 32)
  else c.

Fixpoint lower (s : string) : string :=
  match s with
  | EmptyString => EmptyString
  | String c r => String (lower_char c) (lower r)
  end.

(** [c in s] for a one-character [c]. *)
Fixpoint contains (c : ascii) (s : string) : bool :=
  match s with
  | EmptyString => false
  | String d r => Ascii.eqb d c || contains c r
  end.

(** [s.split(sep)] for a one-character separator: never the empty list. *)
Fixpoint split (sep : ascii) (s : string) : list string :=
  match s with
  | EmptyString => [EmptyString]
  | String c r =>
      if Ascii.eqb c sep then EmptyString :: split sep r
      else match split sep r with
           | [] => [String c EmptyString]
           | h :: t => String c h :: t
           end
  end.

(** [sep.join(l)] *)
Fixpoint join (sep : string) (l : list string) : string :=
  match l with
  | [] => EmptyString
  | [x] => x
  | x :: r => x ++ sep ++ join sep r
  end.

(** [s.lstrip(c)] for a one-character [c]. *)
Fixpoint lstrip (c : ascii) (s : string) : string :=
  match s with
  | EmptyString => EmptyString
  | String d r => if Ascii.eqb d c then lstrip c r else s
  end.

(** [s.endswith(c)] for a one-character [c]. *)
Fixpoint endswith (c : ascii) (s : string) : bool :=
  match s with
  | EmptyString => false
  | String d EmptyString => Ascii.eqb d c
  | String _ r => endswith c r
  end.

(** [s.rfind(c)]: the index of the last [c], [-1] when there is none. *)
Fixpoint rfind (c : ascii) (s : string) : Z :=
  match s with
  | EmptyString => (-1)%Z
  | String d r =>
      let i := rfind c r in
      if (0 <=? i)%Z then (i + 1)%Z
      else if Ascii.eqb d c then 0%Z else (-1)%Z
  end.

(** [s[n:]] and [s[:n]] for [0 <= n]. *)
Fixpoint drop (n : nat) (s : string) : string :=
  match n, s with
  | O, _ => s
  | S _, EmptyString => EmptyString
  | S m, String _ r => drop m r
  end.

Fixpoint take (n : nat) (s : string) : string :=
  match n, s with
  | O, _ => EmptyString
  | S _, EmptyString => EmptyString
  | S m, String c r => String c (take m r)
  end.

(** White space for [int]: tab, LF, VT, FF, CR and space; of the code points
    above U+007F, NEL (U+0085) and the no-break space (U+00A0). *)
Definition is_space (c : ascii) : bool :=
  let n := N_of_ascii c in
  ((9 <=? n) && (n <=? 13) || (n =? 32) || (n =? 133) || (n =? 160))%N.

Definition is_digit (c : ascii) : bool :=
  let n := N_of_ascii c in ((48 <=? n) && (n <=? 57))%N.

Definition digit_value (c : ascii) : Z := Z.of_N (N_of_ascii c) - 48.

Fixpoint skip_spaces (s : string) : string :=
  match s with
  | EmptyString => EmptyString
  | String c r => if is_space c then skip_spaces r else s
  end.

(** The digit scan of [PyLong_FromString]: digits with single underscores
    between them.  Gives the value read, the number of digits and the rest
    of the text; [None] on a doubled or a trailing underscore. *)
Fixpoint scan_digits (s : string) (acc : Z) (ndigits : nat) (prev_underscore : bool)
  : option (Z * nat * string) :=
  match s with
  | EmptyString =>
      if prev_underscore then None else Some (acc, ndigits, EmptyString)
  | String c r =>
      if is_digit c then scan_digits r (10 * acc + digit_value c) (S ndigits) false
      else if Ascii.eqb c "_" then
             if prev_underscore then None else scan_digits r acc ndigits true
           else if prev_underscore then None else Some (acc, ndigits, s)
  end.

(** [int(s)]: white space, an optional sign, the digits, white space, and
    nothing else; [ValueError] otherwise. *)
Definition int (s : string) : result Z :=
  let s1 := skip_spaces s in
  let '(negative, s2) :=
    match s1 with
    | String "+" r => (false, r)
    | String "-" r => (true, r)
    | _ => (false, s1)
    end in
  match s2 with
  | String "_" _ => Raise ValueError
  | _ =>
      match scan_digits s2 0 0 false with
      | None => Raise ValueError
      | Some (v, O, _) => Raise ValueError
      | Some (v, S _, rest) =>
          match skip_spaces rest with
          | EmptyString => Ok (if negative then (- v)%Z else v)
          | String _ _ => Raise ValueError
          end
      end
  end.

(** [list(range(a, b))] *)
Definition range (a b : Z) : list Z :=
  map (fun k => (a + Z.of_nat k)%Z) (seq 0 (Z.to_nat (b - a))).

(** [l[i]], with Python's negative indices. *)
Definition getitem {A} (l : list A) (i : Z) : result A :=
  let n := Z.of_nat (length l) in
  let j := if (i <? 0)%Z then (n + i)%Z else i in
  if ((j <? 0) || (n <=? j))%Z then Raise IndexError
  else match nth_error l (Z.to_nat j) with
       | Some x => Ok x
       | None => Raise IndexError
       end.

End PyStr.

(** ** Selection of the folders to process *)

(** One comma-separated part of the selection: the indices it adds.
    [start, end = map(int, part.split('-'))] raises [ValueError] both when
    [int] rejects a piece and when there are not exactly two pieces. *)
Definition selection_part (part : string) : result (list Z) :=
  if PyStr.contains "-" part then
    match PyStr.split "-" part with
    | [a; b] =>
        rbind (PyStr.int a) (fun start =>
        rbind (PyStr.int b) (fun end_ =>
        Ok (PyStr.range start (end_ + 1))))
    | _ => Raise ValueError
    end
  else rbind (PyStr.int part) (fun i => Ok [i]).

(** The loop over the parts, extending [indices]. *)
Fixpoint selection_indices (parts : list string) (indices : list Z) : result (list Z) :=
  match parts with
  | [] => Ok indices
  | part :: rest =>
      rbind (selection_part part) (fun new => selection_indices rest (indices ++ new))
  end.

(** [[folders[i] for i in indices if i < len(folders)]] *)
Fixpoint pick {A} (folders : list A) (indices : list Z) : result (list A) :=
  match indices with
  | [] => Ok []
  | i :: rest =>
      if (i <? Z.of_nat (length folders))%Z then
        rbind (PyStr.getitem folders i) (fun f =>
        rbind (pick folders rest) (fun picked => Ok (f :: picked)))
      else pick folders rest
  end.

Definition parse_selection {A} (selection : string) (folders : list A) : result (list A) :=
  if String.eqb (PyStr.lower selection) "all" then Ok folders
  else
    rbind (selection_indices (PyStr.split "," selection) []) (fun indices =>
    pick folders indices).

(** ** pathlib *)

(** A path is the list of its components, from the root down. *)
Definition Path : Type := list string.

Module Pathlib.

Definition path_eq_dec : forall p q : Path, {p = q} + {p <> q} :=
  list_eq_dec string_dec.

Definition path_eqb (p q : Path) : bool :=
  if path_eq_dec p q then true else false.

(** [p.name]: the final component, [''] for the root. *)
Definition name (p : Path) : string := last p EmptyString.

(** [p / child] *)
Definition joinpath (p : Path) (child : string) : Path := p ++ [child].

Definition parent (p : Path) : Path := removelast p.

(** [p.suffix]: with [i = name.rfind('.')], [name[i:]] when
    [0 < i < len(name) - 1], else ['']. *)
Definition suffix (p : Path) : string :=
  let nm := name p in
  let i := PyStr.rfind "." nm in
  if ((0 <? i) && (i <? Z.of_nat (String.length nm) - 1))%Z
  then PyStr.drop (Z.to_nat i) nm
  else EmptyString.

(** [p.suffixes]: none when the name ends with a dot; else the name without
    its leading dots is split at the dots and every piece but the first
    gives a suffix. *)
Definition suffixes (p : Path) : list string :=
  let nm := name p in
  if PyStr.endswith "." nm then []
  else map (fun piece => ("." ++ piece)%string) (tl (PyStr.split "." (PyStr.lstrip "." nm))).

(** [p.with_suffix(suffix)] for a [suffix] that starts with a dot, has no
    separator and is not the lone dot, as [".chd"] is. *)
Definition with_suffix (p : Path) (new_suffix : string) : result Path :=
  let nm := name p in
  match nm with
  | EmptyString => Raise ValueError
  | String _ _ =>
      let old_suffix := suffix p in
      let nm' :=
        match old_suffix with
        | EmptyString => (nm ++ new_suffix)%string
        | String _ _ =>
            (PyStr.take (String.length nm - String.length old_suffix) nm ++ new_suffix)%string
        end in
      Ok (removelast p ++ [nm'])
  end.

(** The order of [sorted] on paths: component by component, each by code
    points. *)
Fixpoint compare (p q : Path) : comparison :=
  match p, q with
  | [], [] => Eq
  | [], _ :: _ => Lt
  | _ :: _, [] => Gt
  | a :: p', b :: q' =>
      match String.compare a b with
      | Eq => compare p' q'
      | c => c
      end
  end.

Definition ltb (p q : Path) : bool :=
  match compare p q with Lt => true | _ => false end.

End Pathlib.

(** [sorted(l)] on paths (a stable insertion sort; the order is total). *)
Fixpoint insert_sorted (p : Path) (l : list Path) : list Path :=
  match l with
  | [] => [p]
  | q :: r => if Pathlib.ltb p q then p :: l else q :: insert_sorted p r
  end.

Definition sorted (l : list Path) : list Path :=
  fold_left (fun acc p => insert_sorted p acc) l [].

(** ** Categories, taxonomy and report *)

Inductive Category : Type := Game | Save | Ignore | Unknown.

Definition Category_eq_dec : forall a b : Category, {a = b} + {a <> b}.
Proof. decide equality. Defined.

(** [config["categories"]]: one list of extensions per category. *)
Record Taxonomy : Type := mkTaxonomy {
  game_exts : list string;
  save_exts : list string;
  ignore_exts : list string
}.

(** [config["categories"][cat]] for the three keys of the document. *)
Definition categories (config : Taxonomy) (cat : Category) : list string :=
  match cat with
  | Game => game_exts config
  | Save => save_exts config
  | Ignore => ignore_exts config
  | Unknown => []
  end.

(** [config["categories"][cat].append(ext)]; the document has no key
    ["unknown"]. *)
Definition categories_append (config : Taxonomy) (cat : Category) (ext : string)
  : result Taxonomy :=
  match cat with
  | Game => Ok (mkTaxonomy (game_exts config ++ [ext]) (save_exts config) (ignore_exts config))
  | Save => Ok (mkTaxonomy (game_exts config) (save_exts config ++ [ext]) (ignore_exts config))
  | Ignore => Ok (mkTaxonomy (game_exts config) (save_exts config) (ignore_exts config ++ [ext]))
  | Unknown => Raise KeyError
  end.

Definition default_data : Taxonomy := {|
  game_exts := [".iso"; ".cue"; ".bin"; ".cdi"; ".gdi"; ".mdf"; ".mds"; ".ccd"; ".img"; ".sub"; ".cdi"];
  save_exts := [".state"; ".state.auto"; ".srm"; ".bcr"; ".bkr"; ".smpc"; ".vmu"; ".state.auto"];
  ignore_exts := [".url"; ".txt"; ".pdf"; ".jpg"; ".png"; ".xml"; ".db"]
|}.

Definition master_exts : list string :=
  [".cue"; ".gdi"; ".cdi"; ".iso"; ".mds"; ".ccd"].

(** [ext in l] *)
Definition mem (ext : string) (l : list string) : bool :=
  existsb (String.eqb ext) l.

(** [report]: the four lists of [audit_folder]. *)
Record Report : Type := mkReport {
  game : list Path;
  save : list Path;
  ignore : list Path;
  unknown : list Path
}.

Definition empty_report : Report := mkReport [] [] [] [].

(** [report[cat].append(item)] *)
Definition report_append (report : Report) (cat : Category) (item : Path) : Report :=
  match cat with
  | Game => mkReport (game report ++ [item]) (save report) (ignore report) (unknown report)
  | Save => mkReport (game report) (save report ++ [item]) (ignore report) (unknown report)
  | Ignore => mkReport (game report) (save report) (ignore report ++ [item]) (unknown report)
  | Unknown => mkReport (game report) (save report) (ignore report) (unknown report ++ [item])
  end.

Definition report_items (report : Report) : list Path :=
  game report ++ save report ++ ignore report ++ unknown report.

(** ** Classification *)

(** [ext] as [classify] computes it. *)
Definition classify_ext (file_path : Path) : string :=
  let ext := PyStr.lower (String.concat EmptyString (Pathlib.suffixes file_path)) in
  match ext with
  | EmptyString => PyStr.lower (Pathlib.suffix file_path)
  | String _ _ => ext
  end.

Fixpoint first_category (config : Taxonomy) (ext : string) (cats : list Category) : Category :=
  match cats with
  | [] => Unknown
  | cat :: rest =>
      if mem ext (categories config cat) then cat
      else first_category config ext rest
  end.

Definition classify (config : Taxonomy) (file_path : Path) : Category :=
  first_category config (classify_ext file_path) [Game; Save; Ignore].

(** [mapping.get(choice, "ignore")] *)
Definition mapping_get (choice : string) : Category :=
  if String.eqb choice "g" then Game
  else if String.eqb choice "s" then Save
  else if String.eqb choice "i" then Ignore
  else Ignore.

(** ** The state: the manager, the terminal, the disk, the clock *)

(** An entry of the file system. *)
Record Node : Type := mkNode {
  node_path : Path;
  node_is_dir : bool
}.

(** What [subprocess.run] gives back, and what the converter did meanwhile:
    the seconds it took and whether it wrote its output file. *)
Record Completed : Type := mkCompleted {
  returncode : Z;
  stdout : string;
  stderr : string;
  elapsed : N;
  wrote_output : bool
}.

(** A record of the log: [--- {now} | {folder.name} ---] and [res.stdout]. *)
Record LogRecord : Type := mkLogRecord {
  log_stamp : N;
  log_folder : string;
  log_text : string
}.

(** What [print] shows.  The log file is named after its day. *)
Inductive Message : Type :=
| MsgUnclassified (item_name : string)
| MsgWorkshop (rom_path : Path)
| MsgFolder (i : nat) (folder_name : string)
| MsgPlan (folder_name : string)
| MsgPlanGame (names : list string)
| MsgPlanSave (names : list string)
| MsgPlanIgnore (names : list string)
| MsgNoEntryPoint
| MsgExecuting (master_name : string)
| MsgSuccess
| MsgFailure (log_day : N).

Inductive Prompt : Type :=
| AskAction
| AskSelection
| AskConfirm (folder_name : string).

(** The effects, in the order in which they happen. *)
Inductive Event : Type :=
| Printed (m : Message)
| Asked (p : Prompt) (answer : option string)
| ConfigWritten (t : Taxonomy)
| ConfigWriteFailed
| Converted (input output : Path) (res : Completed)
| Logged (log_day : N) (r : LogRecord)
| Unlinked (p : Path).

(** What [config.toml] holds: the document that the last complete write
    put there, or what a write that failed after the opening has left. *)
Inductive Content : Type :=
| Document (t : Taxonomy)
| Torn.

(** The ways in which [write_text] fails: [open] raises and the file is
    not touched; the text cannot be encoded, or the write itself fails,
    once the opening has emptied the file. *)
Inductive WriteFault : Type :=
| OpenFails
| EncodeFails
| WriteFails.

Definition fault_exn (fault : WriteFault) : exn :=
  match fault with
  | OpenFails => OSError
  | EncodeFails => UnicodeEncodeError
  | WriteFails => OSError
  end.

Definition after_fault (fault : WriteFault) (file : option Content) : option Content :=
  match fault with
  | OpenFails => file
  | EncodeFails => Some Torn
  | WriteFails => Some Torn
  end.

Record State : Type := mkState {
  config : Taxonomy;              (* self.config *)
  store : option Content;         (* config.toml; None: no such file *)
  store_faults : list (option WriteFault);
                                  (* the coming writes of config.toml: None succeeds *)
  fs : list Node;                 (* the entries on disk, in listing order *)
  stdin : list string;            (* the lines the operator will type *)
  clock : N;                      (* seconds *)
  logs : list (N * LogRecord);    (* the log files, by day *)
  chdman : Path -> Path -> Completed;
  trace : list Event
}.

Definition set_config (c : Taxonomy) (s : State) : State :=
  mkState c (store s) (store_faults s) (fs s) (stdin s) (clock s) (logs s) (chdman s) (trace s).

Definition set_store (d : option Content) (s : State) : State :=
  mkState (config s) d (store_faults s) (fs s) (stdin s) (clock s) (logs s) (chdman s) (trace s).

Definition set_store_faults (l : list (option WriteFault)) (s : State) : State :=
  mkState (config s) (store s) l (fs s) (stdin s) (clock s) (logs s) (chdman s) (trace s).

Definition set_fs (l : list Node) (s : State) : State :=
  mkState (config s) (store s) (store_faults s) l (stdin s) (clock s) (logs s) (chdman s) (trace s).

Definition set_stdin (l : list string) (s : State) : State :=
  mkState (config s) (store s) (store_faults s) (fs s) l (clock s) (logs s) (chdman s) (trace s).

Definition set_clock (t : N) (s : State) : State :=
  mkState (config s) (store s) (store_faults s) (fs s) (stdin s) t (logs s) (chdman s) (trace s).

Definition set_logs (l : list (N * LogRecord)) (s : State) : State :=
  mkState (config s) (store s) (store_faults s) (fs s) (stdin s) (clock s) l (chdman s) (trace s).

Definition set_trace (l : list Event) (s : State) : State :=
  mkState (config s) (store s) (store_faults s) (fs s) (stdin s) (clock s) (logs s) (chdman s) l.

Definition emit (e : Event) (s : State) : State :=
  set_trace (trace s ++ [e]) s.

(** ** The monad of the methods *)

Definition M (A : Type) : Type := State -> result A * State.

Definition ret {A} (a : A) : M A := fun s => (Ok a, s).

Definition bind {A B} (m : M A) (k : A -> M B) : M B :=
  fun s =>
    match m s with
    | (Ok a, s') => k a s'
    | (Raise e, s') => (Raise e, s')
    end.

Definition lift {A} (r : result A) : M A := fun s => (r, s).

Definition gets {A} (f : State -> A) : M A := fun s => (Ok (f s), s).

Definition modify (f : State -> State) : M unit := fun s => (Ok tt, f s).

Declare Scope m_scope.
Delimit Scope m_scope with M.
Notation "x <- c ;; k" := (bind c (fun x => k))
  (at level 61, c at next level, right associativity) : m_scope.
Notation "c ;; k" := (bind c (fun _ => k))
  (at level 61, right associativity) : m_scope.
Open Scope m_scope.

(** [for x in l: body(x)] *)
Fixpoint for_each {A} (l : list A) (body : A -> M unit) : M unit :=
  match l with
  | [] => ret tt
  | x :: rest => body x ;; for_each rest body
  end.

(** [for x in l: acc = body(x, acc)] *)
Fixpoint fold_m {A B} (body : A -> B -> M B) (l : list A) (acc : B) : M B :=
  match l with
  | [] => ret acc
  | x :: rest => acc' <- body x acc ;; fold_m body rest acc'
  end.

(** ** The terminal, the disk, the clock, the converter *)

Definition print (m : Message) : M unit := modify (emit (Printed m)).

(** [input(prompt)]: the next line typed, [EOFError] when there is none. *)
Definition input (p : Prompt) : M string :=
  fun s =>
    match stdin s with
    | [] => (Raise EOFError, emit (Asked p None) s)
    | line :: rest => (Ok line, emit (Asked p (Some line)) (set_stdin rest s))
    end.

Definition lookup_node (l : list Node) (p : Path) : option Node :=
  find (fun nd => Pathlib.path_eqb (node_path nd) p) l.

Definition path_is_dir (l : list Node) (p : Path) : bool :=
  match lookup_node l p with
  | Some nd => node_is_dir nd
  | None => false
  end.

(** [p.is_dir()] *)
Definition is_dir (p : Path) : M bool :=
  gets (fun s => path_is_dir (fs s) p).

Definition is_child (folder : Path) (p : Path) : bool :=
  match p with
  | [] => false
  | _ :: _ => Pathlib.path_eqb (Pathlib.parent p) folder
  end.

Definition children (l : list Node) (folder : Path) : list Path :=
  map node_path (filter (fun nd => is_child folder (node_path nd)) l).

(** [list(folder.iterdir())] *)
Definition iterdir (folder : Path) : M (list Path) :=
  fun s =>
    match lookup_node (fs s) folder with
    | None => (Raise FileNotFoundError, s)
    | Some nd =>
        if node_is_dir nd then (Ok (children (fs s) folder), s)
        else (Raise NotADirectoryError, s)
    end.

(** [p.unlink()] *)
Definition unlink (p : Path) : M unit :=
  fun s =>
    match lookup_node (fs s) p with
    | None => (Raise FileNotFoundError, s)
    | Some nd =>
        if node_is_dir nd then (Raise OSError, s)
        else (Ok tt,
              emit (Unlinked p)
                (set_fs (filter (fun nd' => negb (Pathlib.path_eqb (node_path nd') p)) (fs s)) s))
    end.

Definition seconds_per_day : N := 86400.

(** [datetime.date.today()] and [datetime.datetime.now()] *)
Definition date_today : M N := gets (fun s => (clock s / seconds_per_day)%N).

Definition datetime_now : M N := gets clock.

(** [subprocess.run(["chdman", "createcd", "-i", master, "-o", output],
    capture_output=True, text=True)] *)
Definition subprocess_run (master output : Path) : M Completed :=
  fun s =>
    let res := chdman s master output in
    let disk :=
      match wrote_output res, lookup_node (fs s) output with
      | true, None => fs s ++ [mkNode output false]
      | _, _ => fs s
      end in
    (Ok res,
     emit (Converted master output res)
       (set_clock (clock s + elapsed res)%N (set_fs disk s))).

(** [with open(log_file, "a") as l: l.write(...)] *)
Definition log_append (log_day : N) (r : LogRecord) : M unit :=
  modify (fun s => emit (Logged log_day r) (set_logs (logs s ++ [(log_day, r)]) s)).

(** ** The methods of [CHDManager] *)

Definition load_config : M Taxonomy :=
  fun s =>
    match store s with
    | Some (Document t) => (Ok t, s)
    | Some Torn => (Raise ValueError, s)
    | None => (Ok default_data, s)
    end.

(** [self.config_file.write_text(tomlkit.dumps(self.config))].  A write
    that fails raises, and leaves the file as the kind of the failure
    says. *)
Definition save_config : M unit :=
  fun s =>
    match store_faults s with
    | Some fault :: rest =>
        (Raise (fault_exn fault),
         emit ConfigWriteFailed
           (set_store (after_fault fault (store s)) (set_store_faults rest s)))
    | None :: rest =>
        (Ok tt, emit (ConfigWritten (config s))
                  (set_store (Some (Document (config s))) (set_store_faults rest s)))
    | [] => (Ok tt, emit (ConfigWritten (config s))
                      (set_store (Some (Document (config s))) s))
    end.

(** [__init__]: [self.config = self.load_config()] *)
Definition init : M unit :=
  t <- load_config ;; modify (set_config t).

(** [''.join(item.suffixes).lower()] *)
Definition learned_ext (item : Path) : string :=
  PyStr.lower (String.concat EmptyString (Pathlib.suffixes item)).

(** The body of the loop of [audit_folder]. *)
Definition audit_item (item : Path) (report : Report) : M Report :=
  d <- is_dir item ;;
  if (d : bool) then ret (report_append report Ignore item)
  else
    t <- gets config ;;
    match classify t item with
    | Unknown =>
        print (MsgUnclassified (Pathlib.name item)) ;;
        answer <- input AskAction ;;
        let cat := mapping_get (PyStr.lower answer) in
        t1 <- gets config ;;
        t' <- lift (categories_append t1 cat (learned_ext item)) ;;
        modify (set_config t') ;;
        save_config ;;
        ret (report_append report cat item)
    | cat => ret (report_append report cat item)
    end.

Definition audit_folder (folder : Path) : M Report :=
  items <- iterdir folder ;;
  fold_m audit_item items empty_report.

Definition print_folder_summary (folder : Path) (report : Report) : M unit :=
  print (MsgPlan (Pathlib.name folder)) ;;
  print (MsgPlanGame (map Pathlib.name (game report))) ;;
  print (MsgPlanSave (map Pathlib.name (save report))) ;;
  print (MsgPlanIgnore (map Pathlib.name (ignore report))).

(** [[f for f in report['game'] if f.suffix.lower() in self.master_exts]] *)
Definition masters (report : Report) : list Path :=
  filter (fun f => mem (PyStr.lower (Pathlib.suffix f)) master_exts) (game report).

Definition convert (folder : Path) (report : Report) : M unit :=
  match masters report with
  | [] => print MsgNoEntryPoint
  | master :: _ =>
      output <- lift (Pathlib.with_suffix master ".chd") ;;
      log_day <- date_today ;;
      print (MsgExecuting (Pathlib.name master)) ;;
      res <- subprocess_run master output ;;
      now <- datetime_now ;;
      log_append log_day (mkLogRecord now (Pathlib.name folder) (stdout res)) ;;
      if (returncode res =? 0)%Z then
        print MsgSuccess ;;
        for_each (game report) unlink
      else print (MsgFailure log_day)
  end.

(** The body of the loop of [run]. *)
Definition process_folder (folder : Path) : M unit :=
  report <- audit_folder folder ;;
  print_folder_summary folder report ;;
  confirm <- input (AskConfirm (Pathlib.name folder)) ;;
  if String.eqb (PyStr.lower confirm) "y" then convert folder report
  else ret tt.

Fixpoint filter_m {A} (test : A -> M bool) (l : list A) : M (list A) :=
  match l with
  | [] => ret []
  | x :: rest =>
      b <- test x ;;
      keep <- filter_m test rest ;;
      ret (if (b : bool) then x :: keep else keep)
  end.

Fixpoint print_folders (i : nat) (folders : list Path) : M unit :=
  match folders with
  | [] => ret tt
  | f :: rest => print (MsgFolder i (Pathlib.name f)) ;; print_folders (S i) rest
  end.

Definition run (rom_path : Path) : M unit :=
  entries <- iterdir rom_path ;;
  dirs <- filter_m is_dir entries ;;
  let folders := sorted dirs in
  print (MsgWorkshop rom_path) ;;
  print_folders 0 folders ;;
  selection <- input AskSelection ;;
  to_process <- lift (parse_selection selection folders) ;;
  for_each to_process process_folder.

(** ** The selection grammar, as the specification words it *)

Fixpoint all_digits (s : string) : bool :=
  match s with
  | EmptyString => true
  | String c r => PyStr.is_digit c && all_digits r
  end.

(** A non-negative integer index: one decimal digit or more. *)
Definition is_index (s : string) : bool :=
  match s with
  | EmptyString => false
  | String _ _ => all_digits s
  end.

Fixpoint decimal_from (acc : N) (s : string) : N :=
  match s with
  | EmptyString => acc
  | String c r => decimal_from (10 * acc + (N_of_ascii c - 48)) r
  end.

(** The number a string of digits denotes. *)
Definition decimal (s : string) : N := decimal_from 0 s.

(** A token: a single index, or a range [start-end]. *)
Inductive Token : Type :=
| Index (i : string)
| Span (start end_ : string).

Definition token_ok (t : Token) : bool :=
  match t with
  | Index i => is_index i
  | Span a b => is_index a && is_index b
  end.

Definition token_text (t : Token) : string :=
  match t with
  | Index i => i
  | Span a b => a ++ "-" ++ b
  end.

(** [a, a+1, ..., b]; nothing when [b < a]. *)
Definition inclusive (a b : N) : list N :=
  map (fun k => (a + N.of_nat k)%N) (seq 0 (N.to_nat (b + 1 - a))).

Definition token_indices (t : Token) : list N :=
  match t with
  | Index i => [decimal i]
  | Span a b => inclusive (decimal a) (decimal b)
  end.

Definition expression_text (toks : list Token) : string :=
  PyStr.join "," (map token_text toks).

(** The folder at an index, when there is one. *)
Definition at_index {A} (folders : list A) (i : N) : list A :=
  match nth_error folders (N.to_nat i) with
  | Some f => [f]
  | None => []
  end.

(** The folders at the indices of the tokens, in token order; an index out
    of bounds gives nothing and a repeated index gives its folder again. *)
Definition selected {A} (folders : list A) (toks : list Token) : list A :=
  flat_map (at_index folders) (flat_map token_indices toks).

(** A part of the expression that denotes an index or a range: an integer
    text without a minus sign, or two of them around one minus sign. *)
Definition is_integer (s : string) : bool :=
  match PyStr.int s with
  | Ok _ => true
  | Raise _ => false
  end.

Inductive well_formed : string -> Prop :=
| wf_index (i : string) :
    PyStr.contains "-" i = false -> is_integer i = true -> well_formed i
| wf_range (a b : string) :
    PyStr.contains "-" a = false -> PyStr.contains "-" b = false ->
    is_integer a = true -> is_integer b = true ->
    well_formed (a ++ "-" ++ b).

Definition malformed (part : string) : Prop := ~ well_formed part.

(** ** Classification, as the specification words it *)

(** The text from the first [c] on. *)
Fixpoint from_first (c : ascii) (s : string) : string :=
  match s with
  | EmptyString => EmptyString
  | String d r => if Ascii.eqb d c then s else from_first c r
  end.

(** The compound suffix: all the dot-segments that trail the name, in one
    piece.  Leading dots belong to the name, and a name that ends with a
    dot has no suffix. *)
Definition compound_suffix (nm : string) : string :=
  if PyStr.endswith "." nm then EmptyString
  else from_first "." (PyStr.lstrip "." nm).

Definition spec_ext (file_path : Path) : string :=
  let ext := PyStr.lower (compound_suffix (Pathlib.name file_path)) in
  if string_dec ext EmptyString then PyStr.lower (Pathlib.suffix file_path) else ext.

Definition spec_classify (config : Taxonomy) (file_path : Path) : Category :=
  let ext := spec_ext file_path in
  if in_dec string_dec ext (game_exts config) then Game
  else if in_dec string_dec ext (save_exts config) then Save
  else if in_dec string_dec ext (ignore_exts config) then Ignore
  else Unknown.

(** An extension is in the taxonomy when one of the three lists has it. *)
Definition known_ext (config : Taxonomy) (ext : string) : Prop :=
  In ext (game_exts config) \/ In ext (save_exts config) \/ In ext (ignore_exts config).

(** A file that the converter can open: its final suffix is one of
    cue, gdi, cdi, iso, mds, ccd. *)
Definition entry_point (f : Path) : Prop :=
  In (PyStr.lower (Pathlib.suffix f)) master_exts.

(** The entry on disk at a path is a file. *)
Definition is_file_on (disk : list Node) (p : Path) : Prop :=
  exists nd, lookup_node disk p = Some nd /\ node_is_dir nd = false.


(** ** States of the audit *)

(** The state in which the answer to the prompt has been recorded in the
    taxonomy, just before [save_config]. *)
Definition learning (item : Path) (answer : string) (rest : list string)
  (t' : Taxonomy) (s : State) : State :=
  set_config t'
    (emit (Asked AskAction (Some answer))
       (set_stdin rest (emit (Printed (MsgUnclassified (Pathlib.name item))) s))).

(** No coming write of [config.toml] fails. *)
Definition writable (s : State) : Prop :=
  Forall (fun fault => fault = None) (store_faults s).

(** The children of a folder that are not directories. *)
Definition files_of (disk : list Node) (items : list Path) : list Path :=
  filter (fun p => negb (path_is_dir disk p)) items.

(** ** States and events of a conversion *)

(** The disk once the converter has run. *)
Definition disk_after (res : Completed) (output : Path) (disk : list Node) : list Node :=
  match wrote_output res, lookup_node disk output with
  | true, None => disk ++ [mkNode output false]
  | _, _ => disk
  end.

(** The record that [convert] writes for a folder. *)
Definition log_record (folder : Path) (res : Completed) (s : State) : LogRecord :=
  mkLogRecord (clock s + elapsed res)%N (Pathlib.name folder) (stdout res).

Definition log_day_of (s : State) : N := (clock s / seconds_per_day)%N.

(** The state once the converter has run and its output is in the log. *)
Definition logged (folder master output : Path) (s : State) : State :=
  let res := chdman s master output in
  let day := log_day_of s in
  let r := log_record folder res s in
  mkState (config s) (store s) (store_faults s) (disk_after res output (fs s))
    (stdin s) (clock s + elapsed res)%N (logs s ++ [(day, r)]) (chdman s)
    (trace s ++ [Printed (MsgExecuting (Pathlib.name master));
                 Converted master output res;
                 Logged day r]).

Definition is_conversion (e : Event) : bool :=
  match e with
  | Converted _ _ _ => true
  | _ => false
  end.

Definition is_unlink (e : Event) : bool :=
  match e with
  | Unlinked _ => true
  | _ => false
  end.

Definition is_prompt (e : Event) : bool :=
  match e with
  | Asked _ _ => true
  | _ => false
  end.

(** The disk without the entries at the given paths. *)
Definition disk_without (files : list Path) (disk : list Node) : list Node :=
  filter (fun nd => negb (existsb (Pathlib.path_eqb (node_path nd)) files)) disk.

(** The state once the plan for a folder has been shown. *)
Definition planned (folder : Path) (report : Report) (s : State) : State :=
  set_trace
    (trace s ++ [Printed (MsgPlan (Pathlib.name folder));
                 Printed (MsgPlanGame (map Pathlib.name (game report)));
                 Printed (MsgPlanSave (map Pathlib.name (save report)));
                 Printed (MsgPlanIgnore (map Pathlib.name (ignore report)))]) s.

(** The state once the operator has answered the confirmation prompt. *)
Definition answered (folder : Path) (answer : string) (rest : list string) (s : State)
  : State :=
  emit (Asked (AskConfirm (Pathlib.name folder)) (Some answer)) (set_stdin rest s).

(** ** A small collection, for the examples *)

Definition ex_rom : Path := ["roms"].
Definition ex_alpha : Path := ["roms"; "Alpha"].
Definition ex_beta : Path := ["roms"; "Beta"].
Definition ex_gamma : Path := ["roms"; "Gamma"].

Definition ex_disk : list Node :=
  [ mkNode ["roms"] true;
    mkNode ["roms"; "Gamma"] true;
    mkNode ["roms"; "Gamma"; "gamma.iso"] false;
    mkNode ["roms"; "Gamma"; "..sav"] false;
    mkNode ["roms"; "Alpha"] true;
    mkNode ["roms"; "Alpha"; "alpha.bin"] false;
    mkNode ["roms"; "Alpha"; "alpha.cue"] false;
    mkNode ["roms"; "Alpha"; "alpha.srm"] false;
    mkNode ["roms"; "Alpha"; "notes.nfo"] false;
    mkNode ["roms"; "Alpha"; "extras.iso"] true;
    mkNode ["roms"; "Beta"] true;
    mkNode ["roms"; "Beta"; "beta.bin"] false;
    mkNode ["roms"; "Beta"; "beta.srm"] false;
    mkNode ["roms"; "readme.txt"] false ].

(** A converter that compresses [alpha.cue] and fails on anything else. *)
Definition ex_chdman (input output : Path) : Completed :=
  if String.eqb (Pathlib.name input) "alpha.cue"
  then mkCompleted 0 "Compression complete" EmptyString 90 true
  else mkCompleted 1 EmptyString "Error: unable to open the input" 2 false.

(** A fresh start: no [config.toml] yet, so the built-in taxonomy. *)
Definition ex_state (answers : list string) (faults : list (option WriteFault)) : State :=
  mkState default_data None faults ex_disk answers 1700000000 [] ex_chdman [].

Definition ex_alpha_report : Report :=
  mkReport [["roms"; "Alpha"; "alpha.bin"]; ["roms"; "Alpha"; "alpha.cue"]]
           [["roms"; "Alpha"; "alpha.srm"]]
           [["roms"; "Alpha"; "notes.nfo"]; ["roms"; "Alpha"; "extras.iso"]]
           [].

Definition ex_beta_report : Report :=
  mkReport [["roms"; "Beta"; "beta.bin"]] [["roms"; "Beta"; "beta.srm"]] [] [].

Definition ex_gamma_report : Report :=
  mkReport [["roms"; "Gamma"; "gamma.iso"]] [["roms"; "Gamma"; "..sav"]] [] [].

(** The states reached by the audits of the three folders. *)
Definition ex_alpha_audited : State :=
  snd (audit_folder ex_alpha (ex_state ["i"; "y"] [])).

Definition ex_beta_audited : State :=
  snd (audit_folder ex_beta (ex_state ["y"] [])).

Definition ex_gamma_audited : State :=
  snd (audit_folder ex_gamma (ex_state ["s"] [])).

(** A restart: a new manager on the same disk, for a new session. *)
Definition restart (answers : list string) (s : State) : State :=
  snd (init (set_stdin answers s)).

(** ** States of a run *)

(** The folders that [run] lists: the directories of the collection,
    sorted. *)
Definition subfolders (disk : list Node) (rom_path : Path) : list Path :=
  sorted (filter (path_is_dir disk) (children disk rom_path)).

Definition listing_events (i : nat) (folders : list Path) : list Event :=
  map (fun numbered => Printed (MsgFolder (fst numbered) (Pathlib.name (snd numbered))))
      (combine (seq i (length folders)) folders).

(** The state once the folders have been listed and the selection read. *)
Definition selecting (rom_path : Path) (selection : string) (rest : list string)
  (s : State) : State :=
  mkState (config s) (store s) (store_faults s) (fs s) rest (clock s) (logs s) (chdman s)
    (trace s ++ Printed (MsgWorkshop rom_path)
             :: listing_events 0 (subfolders (fs s) rom_path)
             ++ [Asked AskSelection (Some selection)]).

(** ** Invariants of the methods *)

(** A computation leaves a component of the state as it was, whether it
    returns or raises. *)
Definition unchanged {A X : Type} (field : State -> X) (m : M A) : Prop :=
  forall s, field (snd (m s)) = field s.

(** A property of the state that a computation keeps, whether it returns
    or raises. *)
Definition always {A : Type} (I : State -> Prop) (m : M A) : Prop :=
  forall s, I s -> I (snd (m s)).

(** A property of the state that a computation keeps when it returns. *)
Definition on_return {A : Type} (I : State -> Prop) (m : M A) : Prop :=
  forall s a s', I s -> m s = (Ok a, s') -> I s'.

(** A start on this state would leave the taxonomy in memory as it is. *)
Definition synced (s : State) : Prop := config (snd (init s)) = config s.

(** [config.toml] is absent or whole: [load_config] returns. *)
Definition loadable (s : State) : Prop := store s <> Some Torn.

(** [l] is [l'] with some elements left out, the order kept. *)
Inductive subseq {A : Type} : list A -> list A -> Prop :=
| subseq_nil : subseq [] []
| subseq_skip (x : A) (l l' : list A) : subseq l l' -> subseq l (x :: l')
| subseq_keep (x : A) (l l' : list A) : subseq l l' -> subseq (x :: l) (x :: l').

(** An event of the terminal or of [config.toml]: not a run of the
    converter, not a log record, not a deletion. *)
Definition is_dialogue (e : Event) : bool :=
  match e with
  | Printed _ | Asked _ _ | ConfigWritten _ | ConfigWriteFailed => true
  | Converted _ _ _ | Logged _ _ | Unlinked _ => false
  end.

(** [p] does not come after [q] in the order of [sorted]. *)
Definition path_le (p q : Path) : Prop := Pathlib.compare p q <> Gt.

(** The audit has to ask the operator about this entry: a file that the
    taxonomy does not know. *)
Definition asks (s : State) (item : Path) : bool :=
  negb (path_is_dir (fs s) item) &&
  match classify (config s) item with
  | Unknown => true
  | _ => false
  end.


(** The entry [nd] is on disk at path [p]. *)
Definition kept (p : Path) (nd : Node) (s : State) : Prop :=
  lookup_node (fs s) p = Some nd.

(** The extension is written in lower case. *)
Definition is_lower (ext : string) : bool := String.eqb (PyStr.lower ext) ext.

(** The taxonomy without its entries that are not in lower case. *)
Definition lower_case_entries (t : Taxonomy) : Taxonomy :=
  mkTaxonomy (filter is_lower (game_exts t)) (filter is_lower (save_exts t))
             (filter is_lower (ignore_exts t)).

(** No extension is listed under two categories. *)
Definition one_category (t : Taxonomy) : Prop :=
  (forall e, In e (game_exts t) -> ~ In e (save_exts t) /\ ~ In e (ignore_exts t)) /\
  (forall e, In e (save_exts t) -> ~ In e (ignore_exts t)).

(** * Properties *)

(** ** Characters and strings *)

Ltac bits c := destruct c as [[] [] [] [] [] [] [] []].

Lemma is_digit_bounds c :
  PyStr.is_digit c = true -> (48 <= N_of_ascii c <= 57)%N.
Proof.
  unfold PyStr.is_digit. intros H.
  apply andb_true_iff in H. destruct H as [H1 H2].
  apply N.leb_le in H1. apply N.leb_le in H2. lia.
Qed.

Lemma digit_char c :
  PyStr.is_digit c = true ->
  PyStr.is_space c = false /\ Ascii.eqb c "_" = false /\ Ascii.eqb c "-" = false /\
  Ascii.eqb c "," = false /\ PyStr.lower_char c = c.
Proof.
  bits c; intros H; vm_compute in H; try discriminate H; vm_compute; auto.
Qed.

Lemma lower_char_is_a c :
  PyStr.lower_char c = "a"%char -> c = "a"%char \/ c = "A"%char.
Proof.
  bits c; intros H; vm_compute in H; try discriminate H; auto.
Qed.

Lemma contains_app c a b :
  PyStr.contains c (a ++ b)%string = PyStr.contains c a || PyStr.contains c b.
Proof.
  induction a as [|d a IH]; simpl; [reflexivity|].
  rewrite IH. now rewrite orb_assoc.
Qed.

Lemma join_cons sep x y l :
  PyStr.join sep (x :: y :: l) = (x ++ sep ++ PyStr.join sep (y :: l))%string.
Proof. reflexivity. Qed.

(** [split] and [join] on one separator. *)
Section Split.

Variable sep : ascii.

Lemma split_without s :
  PyStr.contains sep s = false -> PyStr.split sep s = [s].
Proof.
  induction s as [|c r IH]; simpl; [reflexivity|].
  intros H. apply orb_false_iff in H. destruct H as [Hc Hr].
  rewrite Hc, (IH Hr). reflexivity.
Qed.

Lemma split_at a b :
  PyStr.contains sep a = false ->
  PyStr.split sep (a ++ String sep b)%string = a :: PyStr.split sep b.
Proof.
  induction a as [|c r IH]; simpl.
  - intros _. now rewrite Ascii.eqb_refl.
  - intros H. apply orb_false_iff in H. destruct H as [Hc Hr].
    rewrite Hc, (IH Hr). reflexivity.
Qed.

Lemma split_not_nil s : PyStr.split sep s <> [].
Proof.
  destruct s as [|c r]; simpl; [discriminate|].
  destruct (Ascii.eqb c sep); [discriminate|].
  destruct (PyStr.split sep r); discriminate.
Qed.

Lemma split_join l :
  l <> [] ->
  Forall (fun x => PyStr.contains sep x = false) l ->
  PyStr.split sep (PyStr.join (String sep EmptyString) l) = l.
Proof.
  induction l as [|x r IH]; [congruence|].
  intros _ H. inversion H as [|? ? Hx Hr]; subst.
  destruct r as [|y r'].
  - simpl. now apply split_without.
  - change (PyStr.join (String sep EmptyString) (x :: y :: r'))
      with (x ++ String sep (PyStr.join (String sep EmptyString) (y :: r')))%string.
    rewrite split_at by assumption.
    f_equal. apply IH; [discriminate | assumption].
Qed.

Lemma join_split s :
  PyStr.join (String sep EmptyString) (PyStr.split sep s) = s /\
  Forall (fun x => PyStr.contains sep x = false) (PyStr.split sep s).
Proof.
  induction s as [|c r IH].
  - simpl. auto.
  - destruct IH as [IHj IHf]. cbn [PyStr.split].
    destruct (Ascii.eqb_spec c sep) as [->|Hne].
    + split.
      * destruct (PyStr.split sep r) as [|h t] eqn:E;
          [now apply split_not_nil in E|].
        rewrite join_cons, IHj. reflexivity.
      * constructor; [reflexivity | assumption].
    + destruct (PyStr.split sep r) as [|h t] eqn:E;
        [now apply split_not_nil in E|].
      pose proof (Forall_inv IHf) as Hh. pose proof (Forall_inv_tail IHf) as Ht.
      cbn beta in Hh.
      split.
      * destruct t as [|y t'].
        -- simpl in *. now rewrite IHj.
        -- rewrite join_cons in *. cbn [String.append] in *. now rewrite IHj.
      * constructor; [|assumption].
        simpl. rewrite Hh, orb_false_r.
        destruct (Ascii.eqb_spec c sep); [contradiction | reflexivity].
Qed.

Lemma split_two s a b :
  PyStr.split sep s = [a; b] ->
  s = (a ++ String sep b)%string /\
  PyStr.contains sep a = false /\ PyStr.contains sep b = false.
Proof.
  intros E. destruct (join_split s) as [Hj Hf].
  rewrite E in Hj, Hf.
  pose proof (Forall_inv Hf) as Ha.
  pose proof (Forall_inv (Forall_inv_tail Hf)) as Hb.
  simpl in Hj, Ha, Hb. auto.
Qed.

End Split.

Lemma all_digits_contains c s :
  PyStr.is_digit c = false -> all_digits s = true -> PyStr.contains c s = false.
Proof.
  intros Hc. induction s as [|d r IH]; simpl; [reflexivity|].
  intros H. apply andb_true_iff in H. destruct H as [Hd Hr].
  rewrite (IH Hr), orb_false_r.
  destruct (Ascii.eqb_spec d c); [subst; congruence | reflexivity].
Qed.

Lemma is_index_all_digits s : is_index s = true -> all_digits s = true.
Proof. destruct s; simpl; [discriminate | auto]. Qed.

(** ** [int] on a string of digits *)

Lemma scan_all_digits s : forall (a : N) (n : nat),
  all_digits s = true ->
  PyStr.scan_digits s (Z.of_N a) n false
  = Some (Z.of_N (decimal_from a s), n + String.length s, EmptyString).
Proof.
  induction s as [|c r IH];
    cbn [PyStr.scan_digits all_digits decimal_from String.length]; intros a n H.
  - now rewrite Nat.add_0_r.
  - apply andb_true_iff in H. destruct H as [Hc Hr].
    rewrite Hc.
    pose proof (is_digit_bounds c Hc) as Hb.
    replace (10 * Z.of_N a + PyStr.digit_value c)%Z
      with (Z.of_N (10 * a + (N_of_ascii c - 48))).
    + rewrite (IH _ _ Hr). do 2 f_equal. f_equal. lia.
    + unfold PyStr.digit_value. lia.
Qed.

Lemma int_index s :
  is_index s = true -> PyStr.int s = Ok (Z.of_N (decimal s)).
Proof.
  destruct s as [|c r]; [discriminate|].
  intros H. simpl in H.
  pose proof (scan_all_digits (String c r) 0 0 H) as Hscan.
  apply andb_true_iff in H. destruct H as [Hc Hr].
  unfold PyStr.int.
  cbn [PyStr.skip_spaces].
  destruct (digit_char c Hc) as (Hsp & _).
  rewrite Hsp.
  bits c; vm_compute in Hc; try discriminate Hc;
    (change (Z.of_N 0) with 0%Z in Hscan; rewrite Hscan; reflexivity).
Qed.

Lemma is_index_is_integer s : is_index s = true -> is_integer s = true.
Proof. intros H. unfold is_integer. now rewrite (int_index s H). Qed.

(** ** The parts of a selection *)

Lemma range_inclusive a b :
  PyStr.range (Z.of_N a) (Z.of_N b + 1) = map Z.of_N (inclusive a b).
Proof.
  unfold PyStr.range, inclusive.
  replace (Z.to_nat (Z.of_N b + 1 - Z.of_N a)) with (N.to_nat (b + 1 - a)) by lia.
  rewrite map_map. apply map_ext. intros k. lia.
Qed.

Lemma selection_part_token t :
  token_ok t = true ->
  selection_part (token_text t) = Ok (map Z.of_N (token_indices t)).
Proof.
  destruct t as [i | a b]; simpl; intros H.
  - unfold selection_part.
    rewrite (all_digits_contains "-" i eq_refl (is_index_all_digits i H)).
    rewrite (int_index i H). reflexivity.
  - apply andb_true_iff in H. destruct H as [Ha Hb].
    pose proof (all_digits_contains "-" a eq_refl (is_index_all_digits a Ha)) as Ca.
    pose proof (all_digits_contains "-" b eq_refl (is_index_all_digits b Hb)) as Cb.
    unfold selection_part.
    rewrite contains_app. simpl. rewrite orb_true_r.
    rewrite (split_at "-" a b Ca), (split_without "-" b Cb).
    rewrite (int_index a Ha), (int_index b Hb). simpl.
    now rewrite range_inclusive.
Qed.

Lemma selection_indices_tokens toks : forall acc,
  Forall (fun t => token_ok t = true) toks ->
  selection_indices (map token_text toks) acc
  = Ok (acc ++ map Z.of_N (flat_map token_indices toks)).
Proof.
  induction toks as [|t r IH]; simpl; intros acc H.
  - now rewrite app_nil_r.
  - inversion H as [|? ? Ht Hr]; subst.
    rewrite (selection_part_token t Ht). simpl.
    rewrite (IH _ Hr), map_app, app_assoc. reflexivity.
Qed.

Lemma getitem_in_bounds {A} (l : list A) (i : N) :
  (Z.of_N i < Z.of_nat (length l))%Z ->
  exists x, nth_error l (N.to_nat i) = Some x /\ PyStr.getitem l (Z.of_N i) = Ok x.
Proof.
  intros H. unfold PyStr.getitem.
  destruct (Z.ltb_spec (Z.of_N i) 0); [lia|].
  simpl.
  destruct (Z.ltb_spec (Z.of_N i) 0); [lia|].
  destruct (Z.leb_spec (Z.of_nat (length l)) (Z.of_N i)); [lia|].
  simpl. replace (Z.to_nat (Z.of_N i)) with (N.to_nat i) by lia.
  destruct (nth_error l (N.to_nat i)) as [x|] eqn:E.
  - eauto.
  - apply nth_error_None in E. lia.
Qed.

Lemma pick_indices {A} (folders : list A) (l : list N) :
  pick folders (map Z.of_N l) = Ok (flat_map (at_index folders) l).
Proof.
  induction l as [|i r IH]; [reflexivity|].
  cbn [map pick flat_map].
  destruct (Z.ltb_spec (Z.of_N i) (Z.of_nat (length folders))) as [Hlt | Hge].
  - destruct (getitem_in_bounds folders i Hlt) as (x & Hn & Hg).
    assert (E : at_index folders i = [x]) by (unfold at_index; now rewrite Hn).
    rewrite Hg, IH, E. reflexivity.
  - assert (E : at_index folders i = []).
    { unfold at_index.
      replace (nth_error folders (N.to_nat i)) with (@None A); [reflexivity|].
      symmetry. apply nth_error_None. lia. }
    rewrite IH, E. reflexivity.
Qed.

Lemma token_text_starts_with_digit t :
  token_ok t = true ->
  exists c r, token_text t = String c r /\ PyStr.is_digit c = true.
Proof.
  destruct t as [i | a b]; simpl.
  - destruct i as [|c r]; [discriminate|]. simpl. intros H.
    apply andb_true_iff in H. destruct H. eauto.
  - intros H. apply andb_true_iff in H. destruct H as [H _].
    destruct a as [|c r]; [discriminate|]. simpl in *.
    apply andb_true_iff in H. destruct H. eauto.
Qed.

Lemma expression_not_all toks :
  toks <> [] -> Forall (fun t => token_ok t = true) toks ->
  PyStr.lower (expression_text toks) <> "all".
Proof.
  destruct toks as [|t r]; [congruence|]. intros _ H.
  inversion H as [|? ? Ht Hr]; subst.
  destruct (token_text_starts_with_digit t Ht) as (c & s & E & Hc).
  assert (Hx : exists s', expression_text (t :: r) = String c s').
  { unfold expression_text. simpl. rewrite E. destruct (map token_text r); simpl; eauto. }
  destruct Hx as (s' & ->). simpl.
  destruct (digit_char c Hc) as (_ & _ & _ & _ & Hl). rewrite Hl.
  intros Habs. injection Habs as Hc' _. subst c. discriminate Hc.
Qed.

Lemma token_text_no_comma t :
  token_ok t = true -> PyStr.contains "," (token_text t) = false.
Proof.
  destruct t as [i | a b]; simpl; intros H.
  - apply all_digits_contains; [reflexivity | now apply is_index_all_digits].
  - apply andb_true_iff in H. destruct H as [Ha Hb].
    rewrite contains_app. simpl.
    rewrite !all_digits_contains; auto using is_index_all_digits.
Qed.

(** C7. [parse_selection] gives the whole list on [all] in any case of
    letters; on a comma-separated expression of indices and [start-end]
    ranges it gives the folders at the indices, in token order, dropping
    the indices out of bounds and keeping the repeated ones; so ["1,3-5"]
    over six folders gives those at 1, 3, 4, 5 and ["1,9"] over five gives
    the one at 1. *)
Theorem parse_selection_spec :
  (forall (A : Type) (selection : string) (folders : list A),
      PyStr.lower selection = "all" ->
      parse_selection selection folders = Ok folders) /\
  (forall (A : Type) (toks : list Token) (folders : list A),
      toks <> [] ->
      Forall (fun t => token_ok t = true) toks ->
      parse_selection (expression_text toks) folders = Ok (selected folders toks)) /\
  (forall (A : Type) (f0 f1 f2 f3 f4 f5 : A),
      parse_selection "1,3-5" [f0; f1; f2; f3; f4; f5] = Ok [f1; f3; f4; f5] /\
      parse_selection "1,9" [f0; f1; f2; f3; f4] = Ok [f1] /\
      parse_selection "1,1" [f0; f1] = Ok [f1; f1]).
Proof.
  split; [|split].
  - intros A selection folders H. unfold parse_selection. now rewrite H.
  - intros A toks folders Hne Hok. unfold parse_selection.
    destruct (String.eqb_spec (PyStr.lower (expression_text toks)) "all") as [E|_].
    + now apply expression_not_all in E.
    + unfold expression_text.
      rewrite split_join.
      * rewrite (selection_indices_tokens toks [] Hok). simpl.
        apply pick_indices.
      * destruct toks; [congruence | discriminate].
      * apply Forall_map. eapply Forall_impl; [|exact Hok].
        intros t Ht. now apply token_text_no_comma.
  - intros A f0 f1 f2 f3 f4 f5. repeat split; reflexivity.
Qed.

(** ** Malformed parts *)

(** [int] raises nothing but [ValueError]. *)
Lemma int_raises s e : PyStr.int s = Raise e -> e = ValueError.
Proof.
  unfold PyStr.int.
  destruct (match PyStr.skip_spaces s with
            | String "+" r => (false, r)
            | String "-" r => (true, r)
            | _ => (false, PyStr.skip_spaces s)
            end) as [negative s2].
  assert (H : forall r : result Z,
             match PyStr.scan_digits s2 0 0 false with
             | None => Raise ValueError
             | Some (_, O, _) => Raise ValueError
             | Some (v, S _, rest) =>
                 match PyStr.skip_spaces rest with
                 | EmptyString => Ok (if negative then (- v)%Z else v)
                 | String _ _ => Raise ValueError
                 end
             end = Raise e -> e = ValueError).
  { intros _.
    destruct (PyStr.scan_digits s2 0 0 false) as [[[v [|n]] rest]|];
      try congruence.
    destruct (PyStr.skip_spaces rest); congruence. }
  destruct s2 as [|c r]; [exact (H (Ok 0%Z))|].
  bits c; try exact (H (Ok 0%Z)). congruence.
Qed.

Lemma is_integer_int s : is_integer s = true <-> exists v, PyStr.int s = Ok v.
Proof.
  unfold is_integer. destruct (PyStr.int s) as [v|e]; split.
  - eauto.
  - reflexivity.
  - discriminate.
  - intros [v H]. discriminate.
Qed.

Lemma is_integer_false s : is_integer s = false -> PyStr.int s = Raise ValueError.
Proof.
  unfold is_integer. destruct (PyStr.int s) as [v|e] eqn:E; [discriminate|].
  intros _. now rewrite (int_raises s e E).
Qed.

(** A part is well formed exactly when [selection_part] accepts it, and a
    part it does not accept raises [ValueError]. *)
Lemma selection_part_well_formed part :
  well_formed part <-> exists l, selection_part part = Ok l.
Proof.
  split.
  - intros [i Hc Hi | a b Ha Hb Hia Hib]; unfold selection_part.
    + rewrite Hc. apply is_integer_int in Hi. destruct Hi as [v ->]. simpl. eauto.
    + rewrite contains_app. simpl. rewrite orb_true_r.
      rewrite (split_at "-" a b Ha), (split_without "-" b Hb).
      apply is_integer_int in Hia, Hib.
      destruct Hia as [va ->]. destruct Hib as [vb ->]. simpl. eauto.
  - intros [l H]. unfold selection_part in H.
    destruct (PyStr.contains "-" part) eqn:Hc.
    + destruct (PyStr.split "-" part) as [|a [|b [|c t]]] eqn:Hs; try discriminate.
      destruct (split_two "-" part a b Hs) as (-> & Ha & Hb).
      destruct (PyStr.int a) as [va|] eqn:Ea; [|discriminate].
      destruct (PyStr.int b) as [vb|] eqn:Eb; [|discriminate].
      apply wf_range; auto; apply is_integer_int; eauto.
    + destruct (PyStr.int part) as [v|] eqn:E; [|discriminate].
      apply wf_index; auto. apply is_integer_int; eauto.
Qed.

Lemma selection_part_raises part e :
  selection_part part = Raise e -> e = ValueError.
Proof.
  unfold selection_part.
  destruct (PyStr.contains "-" part).
  - destruct (PyStr.split "-" part) as [|a [|b [|c t]]]; try congruence.
    destruct (PyStr.int a) as [va|ea] eqn:Ea; simpl.
    + destruct (PyStr.int b) as [vb|eb] eqn:Eb; simpl; [discriminate|].
      intros H. injection H as <-. eapply int_raises; eauto.
    + intros H. injection H as <-. eapply int_raises; eauto.
  - destruct (PyStr.int part) as [v|e'] eqn:E; simpl; [discriminate|].
    intros H. injection H as <-. eapply int_raises; eauto.
Qed.

Lemma malformed_iff part :
  malformed part <-> selection_part part = Raise ValueError.
Proof.
  unfold malformed. rewrite selection_part_well_formed. split.
  - intros H. destruct (selection_part part) as [l|e] eqn:E.
    + exfalso. eauto.
    + now rewrite (selection_part_raises part e E).
  - intros E [l H]. congruence.
Qed.

Lemma selection_indices_malformed parts : forall acc,
  Exists malformed parts -> selection_indices parts acc = Raise ValueError.
Proof.
  induction parts as [|p r IH]; intros acc H; [inversion H|].
  cbn [selection_indices].
  destruct (selection_part p) as [l|e] eqn:E.
  - simpl. apply IH. inversion H as [? ? Hp | ? ? Hr]; subst; [|assumption].
    apply malformed_iff in Hp. congruence.
  - simpl. now rewrite (selection_part_raises p e E).
Qed.

(** C8. When a part of the expression is malformed (it is not an integer,
    or not a range of two integers), [parse_selection] raises for the whole
    expression: no folder is selected, whatever the other parts are. *)
Theorem parse_selection_malformed (A : Type) (parts : list string) (folders : list A) :
  Forall (fun p => PyStr.contains "," p = false) parts ->
  Exists malformed parts ->
  PyStr.lower (PyStr.join "," parts) <> "all" ->
  parse_selection (PyStr.join "," parts) folders = Raise ValueError.
Proof.
  intros Hcomma Hbad Hall. unfold parse_selection.
  destruct (String.eqb_spec (PyStr.lower (PyStr.join "," parts)) "all") as [E|_];
    [contradiction|].
  rewrite split_join; [| intros ->; inversion Hbad | assumption].
  now rewrite (selection_indices_malformed parts [] Hbad).
Qed.

Lemma parse_selection_malformed_witness :
  parse_selection "1,x-2,3" [10; 11; 12; 13]%nat = Raise ValueError.
Proof.
  apply (parse_selection_malformed nat ["1"; "x-2"; "3"] [10; 11; 12; 13]%nat).
  - repeat constructor.
  - apply Exists_cons_tl, Exists_cons_hd. apply malformed_iff. reflexivity.
  - simpl. discriminate.
Defined.

(** ** Well-formed parts select, and never out of range *)

Lemma int_unfold s :
  PyStr.int s =
  let s1 := PyStr.skip_spaces s in
  let '(negative, s2) :=
    match s1 with
    | String c r =>
        if Ascii.eqb c "+" then (false, r)
        else if Ascii.eqb c "-" then (true, r) else (false, s1)
    | EmptyString => (false, s1)
    end in
  match s2 with
  | String c _ =>
      if Ascii.eqb c "_" then Raise ValueError
      else match PyStr.scan_digits s2 0 0 false with
           | None => Raise ValueError
           | Some (v, O, _) => Raise ValueError
           | Some (v, S _, rest) =>
               match PyStr.skip_spaces rest with
               | EmptyString => Ok (if negative then (- v)%Z else v)
               | String _ _ => Raise ValueError
               end
           end
  | EmptyString => Raise ValueError
  end.
Proof.
  unfold PyStr.int. cbv zeta.
  destruct (PyStr.skip_spaces s) as [|c r]; [reflexivity|].
  assert (H : forall (negative : bool) (s2 : string),
             match s2 with
             | String "_" _ => Raise ValueError
             | _ =>
                 match PyStr.scan_digits s2 0 0 false with
                 | None => Raise ValueError
                 | Some (v, O, _) => Raise ValueError
                 | Some (v, S _, rest) =>
                     match PyStr.skip_spaces rest with
                     | EmptyString => Ok (if negative then (- v)%Z else v)
                     | String _ _ => Raise ValueError
                     end
                 end
             end =
             match s2 with
             | String c _ =>
                 if Ascii.eqb c "_" then Raise ValueError
                 else match PyStr.scan_digits s2 0 0 false with
                      | None => Raise ValueError
                      | Some (v, O, _) => Raise ValueError
                      | Some (v, S _, rest) =>
                          match PyStr.skip_spaces rest with
                          | EmptyString => Ok (if negative then (- v)%Z else v)
                          | String _ _ => Raise ValueError
                          end
                      end
             | EmptyString => Raise ValueError
             end).
  { intros negative [|d t]; [reflexivity|]. bits d; reflexivity. }
  bits c; cbn [Ascii.eqb Bool.eqb];
    first [reflexivity | exact (H false r) | exact (H true r)].
Qed.

Lemma scan_digits_nonneg s : forall acc n b v n' rest,
  (0 <= acc)%Z ->
  PyStr.scan_digits s acc n b = Some (v, n', rest) -> (0 <= v)%Z.
Proof.
  induction s as [|c r IH]; intros acc n b v n' rest Hacc;
    cbn [PyStr.scan_digits].
  - destruct b; [discriminate|]. intros H. injection H as <- _ _. assumption.
  - destruct (PyStr.is_digit c) eqn:Hc.
    + apply IH. pose proof (is_digit_bounds c Hc). unfold PyStr.digit_value. lia.
    + destruct (Ascii.eqb c "_").
      * destruct b; [discriminate|]. now apply IH.
      * destruct b; [discriminate|]. intros H. injection H as <- _ _. assumption.
Qed.

Lemma contains_skip_spaces c s :
  PyStr.contains c s = false -> PyStr.contains c (PyStr.skip_spaces s) = false.
Proof.
  induction s as [|d r IH]; [auto|]. cbn [PyStr.skip_spaces].
  destruct (PyStr.is_space d); [|auto].
  intros H. simpl in H. apply orb_false_iff in H. now apply IH.
Qed.

(** Without a minus sign, [int] gives no negative number. *)
Lemma int_nonneg s v :
  PyStr.contains "-" s = false -> PyStr.int s = Ok v -> (0 <= v)%Z.
Proof.
  intros Hc. apply contains_skip_spaces in Hc.
  rewrite int_unfold. cbv zeta.
  destruct (PyStr.skip_spaces s) as [|c r]; [discriminate|].
  simpl in Hc. apply orb_false_iff in Hc. destruct Hc as [Hc _]. rewrite Hc.
  assert (H : forall s2,
             match s2 with
             | String c _ =>
                 if Ascii.eqb c "_" then Raise ValueError
                 else match PyStr.scan_digits s2 0 0 false with
                      | None => Raise ValueError
                      | Some (v, O, _) => Raise ValueError
                      | Some (v, S _, rest) =>
                          match PyStr.skip_spaces rest with
                          | EmptyString => Ok v
                          | String _ _ => Raise ValueError
                          end
                      end
             | EmptyString => Raise ValueError
             end = Ok v -> (0 <= v)%Z).
  { intros [|d t]; [discriminate|].
    destruct (Ascii.eqb d "_"); [discriminate|].
    destruct (PyStr.scan_digits (String d t) 0 0 false) as [[[w [|n]] rest]|] eqn:E;
      try discriminate.
    destruct (PyStr.skip_spaces rest); [|discriminate].
    intros Hv. injection Hv as <-.
    eapply scan_digits_nonneg; [|exact E]. lia. }
  destruct (Ascii.eqb c "+"); [exact (H r) | exact (H (String c r))].
Qed.

Lemma range_nonneg a b : (0 <= a)%Z -> Forall (fun i => (0 <= i)%Z) (PyStr.range a b).
Proof.
  intros Ha. unfold PyStr.range. apply Forall_map, Forall_forall. intros k _. lia.
Qed.

Lemma selection_part_nonneg part l :
  selection_part part = Ok l -> Forall (fun i => (0 <= i)%Z) l.
Proof.
  unfold selection_part.
  destruct (PyStr.contains "-" part) eqn:Hc.
  - destruct (PyStr.split "-" part) as [|a [|b [|c t]]] eqn:Hs; try discriminate.
    destruct (split_two "-" part a b Hs) as (_ & Ha & Hb).
    destruct (PyStr.int a) as [va|] eqn:Ea; [|discriminate].
    destruct (PyStr.int b) as [vb|] eqn:Eb; [|discriminate].
    simpl. intros H. injection H as <-.
    apply range_nonneg. now apply (int_nonneg a).
  - destruct (PyStr.int part) as [v|] eqn:E; [|discriminate].
    simpl. intros H. injection H as <-.
    constructor; [|constructor]. now apply (int_nonneg part).
Qed.

Lemma selection_indices_nonneg parts : forall acc l,
  Forall (fun i => (0 <= i)%Z) acc ->
  selection_indices parts acc = Ok l -> Forall (fun i => (0 <= i)%Z) l.
Proof.
  induction parts as [|p r IH]; intros acc l Hacc; cbn [selection_indices].
  - intros H. injection H as <-. assumption.
  - destruct (selection_part p) as [new|] eqn:E; [|discriminate].
    simpl. apply IH. apply Forall_app. split; [assumption|].
    now apply (selection_part_nonneg p).
Qed.

Lemma selection_indices_well_formed parts : forall acc,
  Forall well_formed parts -> exists l, selection_indices parts acc = Ok l.
Proof.
  induction parts as [|p r IH]; intros acc H; cbn [selection_indices]; [eauto|].
  pose proof (Forall_inv H) as Hp. apply selection_part_well_formed in Hp.
  destruct Hp as [new ->]. simpl. apply IH. exact (Forall_inv_tail H).
Qed.

(** The indices kept: those within bounds, each giving its folder. *)
Lemma pick_nonneg {A} (folders : list A) indices :
  Forall (fun i => (0 <= i)%Z) indices ->
  pick folders indices
  = Ok (flat_map (fun i => match nth_error folders (Z.to_nat i) with
                           | Some f => [f]
                           | None => []
                           end) indices).
Proof.
  induction indices as [|i r IH]; intros H; [reflexivity|].
  pose proof (Forall_inv H) as Hi. specialize (IH (Forall_inv_tail H)).
  cbn beta in Hi.
  assert (Ei : i = Z.of_N (Z.to_N i)) by lia.
  set (n := Z.to_N i) in Ei. clearbody n. subst i.
  cbn [pick flat_map].
  replace (Z.to_nat (Z.of_N n)) with (N.to_nat n) by lia.
  destruct (Z.ltb_spec (Z.of_N n) (Z.of_nat (length folders))) as [Hlt|Hge].
  - destruct (getitem_in_bounds folders n Hlt) as (x & Hn & Hg).
    rewrite Hg, IH, Hn. reflexivity.
  - rewrite IH.
    replace (nth_error folders (N.to_nat n)) with (@None A); [reflexivity|].
    symmetry. apply nth_error_None. lia.
Qed.

(** An expression whose parts are all well formed selects: [IndexError]
    cannot happen, no index being negative. *)
Lemma parse_selection_well_formed (A : Type) (parts : list string) (folders : list A) :
  parts <> [] ->
  Forall (fun p => PyStr.contains "," p = false) parts ->
  Forall well_formed parts ->
  exists selection, parse_selection (PyStr.join "," parts) folders = Ok selection.
Proof.
  intros Hne Hcomma Hwf. unfold parse_selection.
  destruct (String.eqb (PyStr.lower (PyStr.join "," parts)) "all"); [eauto|].
  rewrite split_join by assumption.
  destruct (selection_indices_well_formed parts [] Hwf) as [l E].
  rewrite E. simpl.
  rewrite pick_nonneg; [eauto|].
  eapply selection_indices_nonneg; [|exact E]. constructor.
Qed.

(** What [int] takes for an integer is wider than a string of digits:
    white space around it, a plus sign, single underscores. *)
Lemma lenient_integers (A : Type) (f0 f1 f2 f3 : A) :
  parse_selection " 1 ,+2,0_3,3-2" [f0; f1; f2; f3] = Ok [f1; f2; f3] /\
  well_formed " 1 " /\ well_formed "+2" /\ well_formed "0_3" /\ well_formed "3-2" /\
  malformed "x-2" /\ malformed EmptyString /\ malformed "-1" /\ malformed "1-2-3" /\
  malformed "1.5".
Proof.
  split; [reflexivity|].
  repeat split;
    try (apply selection_part_well_formed; eexists; reflexivity);
    apply malformed_iff; reflexivity.
Qed.

(** ** The compound suffix *)

Lemma concat_dotted l :
  l <> [] ->
  String.concat EmptyString (map (fun piece => ("." ++ piece)%string) l)
  = ("." ++ PyStr.join "." l)%string.
Proof.
  induction l as [|x r IH]; [congruence|]. intros _.
  destruct r as [|y r']; [reflexivity|].
  change (String.concat EmptyString (map (fun piece => ("." ++ piece)%string) (x :: y :: r')))
    with (("." ++ x) ++ EmptyString ++
          String.concat EmptyString (map (fun piece => ("." ++ piece)%string) (y :: r')))%string.
  rewrite IH by discriminate. rewrite join_cons.
  cbn [String.append]. reflexivity.
Qed.

Lemma concat_tail_split s :
  String.concat EmptyString (map (fun piece => ("." ++ piece)%string) (tl (PyStr.split "." s)))
  = from_first "." s.
Proof.
  induction s as [|c r IH]; [reflexivity|].
  cbn [PyStr.split from_first].
  destruct (Ascii.eqb_spec c ".") as [->|Hne].
  - cbn [tl]. rewrite concat_dotted by apply split_not_nil.
    destruct (join_split "." r) as [-> _]. reflexivity.
  - destruct (PyStr.split "." r) as [|h t] eqn:E;
      [now apply split_not_nil in E|].
    exact IH.
Qed.

Lemma suffixes_compound p :
  String.concat EmptyString (Pathlib.suffixes p) = compound_suffix (Pathlib.name p).
Proof.
  unfold Pathlib.suffixes, compound_suffix.
  destruct (PyStr.endswith "." (Pathlib.name p)); [reflexivity|].
  apply concat_tail_split.
Qed.

Lemma classify_ext_spec p : classify_ext p = spec_ext p.
Proof.
  unfold classify_ext, spec_ext. rewrite suffixes_compound.
  destruct (PyStr.lower (compound_suffix (Pathlib.name p))) as [|c r];
    destruct (string_dec _ _); congruence.
Qed.

Lemma mem_In ext l : mem ext l = true <-> In ext l.
Proof.
  unfold mem. rewrite existsb_exists. split.
  - intros (x & Hx & E). apply String.eqb_eq in E. now subst.
  - intros H. exists ext. split; [assumption | apply String.eqb_refl].
Qed.

Lemma mem_not_In ext l : mem ext l = false <-> ~ In ext l.
Proof.
  rewrite <- mem_In. destruct (mem ext l); split; congruence.
Qed.

Lemma classify_unknown config p :
  classify config p = Unknown <-> ~ known_ext config (classify_ext p).
Proof.
  unfold classify, known_ext. cbn [first_category categories].
  destruct (mem (classify_ext p) (game_exts config)) eqn:G;
    [apply mem_In in G; split; [discriminate | tauto]|].
  destruct (mem (classify_ext p) (save_exts config)) eqn:S;
    [apply mem_In in S; split; [discriminate | tauto]|].
  destruct (mem (classify_ext p) (ignore_exts config)) eqn:I;
    [apply mem_In in I; split; [discriminate | tauto]|].
  apply mem_not_In in G, S, I. tauto.
Qed.

Lemma classify_in config p cat :
  classify config p = cat -> cat <> Unknown ->
  In (classify_ext p) (categories config cat).
Proof.
  unfold classify. cbn [first_category categories].
  destruct (mem (classify_ext p) (game_exts config)) eqn:G;
    [apply mem_In in G; intros <-; auto|].
  destruct (mem (classify_ext p) (save_exts config)) eqn:S;
    [apply mem_In in S; intros <-; auto|].
  destruct (mem (classify_ext p) (ignore_exts config)) eqn:I;
    [apply mem_In in I; intros <-; auto|].
  congruence.
Qed.

(** ** One step of the audit *)

Lemma audit_item_dir item report s :
  path_is_dir (fs s) item = true ->
  audit_item item report s = (Ok (report_append report Ignore item), s).
Proof.
  intros H. unfold audit_item, bind, is_dir, gets. now rewrite H.
Qed.

Lemma audit_item_known item report s :
  path_is_dir (fs s) item = false ->
  classify (config s) item <> Unknown ->
  audit_item item report s
  = (Ok (report_append report (classify (config s) item) item), s).
Proof.
  intros H Hc. unfold audit_item, bind, is_dir, gets. rewrite H.
  destruct (classify (config s) item); try reflexivity. congruence.
Qed.

(** C4. [classify] takes the lower-cased compound suffix, or the final
    suffix when that is empty, and returns the first of game, save, ignore
    whose list has it, else unknown.  It is a function of the taxonomy and
    the name alone; and the audit of a file whose extension the taxonomy
    has files it under that category and leaves the state as it was: no
    prompt, no change of the taxonomy, nothing written. *)
Theorem classify_spec :
  (forall config file_path,
      classify config file_path = spec_classify config file_path) /\
  (forall item report s,
      path_is_dir (fs s) item = false ->
      known_ext (config s) (classify_ext item) ->
      classify (config s) item <> Unknown /\
      audit_item item report s
      = (Ok (report_append report (classify (config s) item) item), s)).
Proof.
  split.
  - intros config p. unfold classify, spec_classify.
    rewrite <- classify_ext_spec. cbn [first_category categories].
    destruct (in_dec string_dec (classify_ext p) (game_exts config)) as [G|G];
      [apply mem_In in G | apply mem_not_In in G]; rewrite G; [reflexivity|].
    destruct (in_dec string_dec (classify_ext p) (save_exts config)) as [S|S];
      [apply mem_In in S | apply mem_not_In in S]; rewrite S; [reflexivity|].
    destruct (in_dec string_dec (classify_ext p) (ignore_exts config)) as [I|I];
      [apply mem_In in I | apply mem_not_In in I]; rewrite I; reflexivity.
  - intros item report s Hfile Hknown.
    assert (Hc : classify (config s) item <> Unknown).
    { intros E. apply classify_unknown in E. contradiction. }
    split; [assumption|]. now apply audit_item_known.
Qed.

(** ** The audit of a folder *)

Lemma mapping_get_cases choice :
  (choice = "g" /\ mapping_get choice = Game) \/
  (choice = "s" /\ mapping_get choice = Save) \/
  (choice <> "g" /\ choice <> "s" /\ mapping_get choice = Ignore).
Proof.
  unfold mapping_get.
  destruct (String.eqb_spec choice "g"); [auto|].
  destruct (String.eqb_spec choice "s"); [auto|].
  destruct (String.eqb_spec choice "i"); auto.
Qed.

Lemma mapping_get_known choice : mapping_get choice <> Unknown.
Proof.
  destruct (mapping_get_cases choice) as [[_ E]|[[_ E]|(_ & _ & E)]];
    rewrite E; discriminate.
Qed.

Lemma categories_append_known t cat ext :
  cat <> Unknown -> exists t', categories_append t cat ext = Ok t'.
Proof. destruct cat; simpl; eauto. congruence. Qed.

Lemma audit_item_unknown item report s answer rest :
  path_is_dir (fs s) item = false ->
  classify (config s) item = Unknown ->
  stdin s = answer :: rest ->
  exists t',
    categories_append (config s) (mapping_get (PyStr.lower answer)) (learned_ext item)
    = Ok t' /\
    audit_item item report s
    = match save_config (learning item answer rest t' s) with
      | (Ok _, s') =>
          (Ok (report_append report (mapping_get (PyStr.lower answer)) item), s')
      | (Raise e, s') => (Raise e, s')
      end.
Proof.
  intros Hd Hc Hin.
  destruct (categories_append_known (config s) (mapping_get (PyStr.lower answer))
              (learned_ext item) (mapping_get_known _)) as [t' Ht].
  exists t'. split; [assumption|].
  unfold audit_item, bind, is_dir, gets. rewrite Hd, Hc.
  unfold print, modify, input. cbn [stdin emit set_trace]. rewrite Hin.
  unfold lift. cbn [config set_stdin emit set_trace]. rewrite Ht.
  unfold learning, ret.
  destruct (save_config _) as [[[]|e] s']; reflexivity.
Qed.

Lemma audit_item_eof item report s :
  path_is_dir (fs s) item = false ->
  classify (config s) item = Unknown ->
  stdin s = [] ->
  audit_item item report s
  = (Raise EOFError,
     emit (Asked AskAction None) (emit (Printed (MsgUnclassified (Pathlib.name item))) s)).
Proof.
  intros Hd Hc Hin.
  unfold audit_item, bind, is_dir, gets. rewrite Hd, Hc.
  unfold print, modify, input. cbn [stdin emit set_trace]. rewrite Hin.
  reflexivity.
Qed.

Lemma save_config_fs s : fs (snd (save_config s)) = fs s.
Proof. unfold save_config. destruct (store_faults s) as [|[[]|] r]; reflexivity. Qed.

Lemma save_config_stdin s : stdin (snd (save_config s)) = stdin s.
Proof. unfold save_config. destruct (store_faults s) as [|[[]|] r]; reflexivity. Qed.

Lemma audit_item_inv item report s r s' :
  audit_item item report s = (Ok r, s') ->
  exists cat,
    cat <> Unknown /\ r = report_append report cat item /\
    (path_is_dir (fs s) item = true -> cat = Ignore) /\
    fs s' = fs s.
Proof.
  intros H.
  destruct (path_is_dir (fs s) item) eqn:Hd.
  - rewrite (audit_item_dir item report s Hd) in H. injection H as <- <-.
    exists Ignore. split; [discriminate|]. auto.
  - destruct (Category_eq_dec (classify (config s) item) Unknown) as [Hc|Hc].
    + destruct (stdin s) as [|answer rest] eqn:Hin.
      * rewrite (audit_item_eof item report s Hd Hc Hin) in H. discriminate H.
      * destruct (audit_item_unknown item report s answer rest Hd Hc Hin)
          as (t' & _ & E).
        rewrite E in H.
        pose proof (save_config_fs (learning item answer rest t' s)) as Hfs.
        destruct (save_config (learning item answer rest t' s)) as [[[]|e] s2];
          [|discriminate].
        injection H as <- <-.
        exists (mapping_get (PyStr.lower answer)).
        split; [apply mapping_get_known|]. split; [reflexivity|].
        split; [discriminate|]. simpl in Hfs. exact Hfs.
    + rewrite (audit_item_known item report s Hd Hc) in H. injection H as <- <-.
      exists (classify (config s) item).
      split; [assumption|]. split; [reflexivity|]. split; [discriminate | reflexivity].
Qed.

Lemma report_items_append report cat item :
  Permutation (report_items (report_append report cat item))
              (report_items report ++ [item]).
Proof.
  destruct report as [g sv ig u]. unfold report_items.
  destruct cat; cbn [report_append game save ignore unknown].
  - rewrite <- !app_assoc. apply Permutation_app_head.
    transitivity (item :: sv ++ ig ++ u); [reflexivity|].
    rewrite !app_assoc. apply Permutation_cons_append.
  - rewrite <- !app_assoc. do 2 apply Permutation_app_head.
    transitivity (item :: ig ++ u); [reflexivity|].
    rewrite !app_assoc. apply Permutation_cons_append.
  - rewrite <- !app_assoc. do 3 apply Permutation_app_head.
    apply Permutation_cons_append.
  - rewrite <- !app_assoc. reflexivity.
Qed.

Lemma report_append_unknown report cat item :
  cat <> Unknown -> unknown (report_append report cat item) = unknown report.
Proof. destruct cat; simpl; congruence. Qed.

Lemma report_append_ignore report cat item d :
  In d (ignore report) -> In d (ignore (report_append report cat item)).
Proof. destruct cat; simpl; auto. intros H. apply in_or_app. auto. Qed.

Lemma report_append_sources report cat item f :
  In f (game (report_append report cat item) ++ save (report_append report cat item)) ->
  In f (game report ++ save report) \/ (f = item /\ cat <> Ignore).
Proof.
  destruct cat; cbn [report_append game save]; rewrite ?in_app_iff; simpl.
  - intros [[H|[H|[]]]|H]; auto. right. split; [auto | discriminate].
  - intros [H|[H|[H|[]]]]; auto. right. split; [auto | discriminate].
  - auto.
  - auto.
Qed.

Lemma fold_audit items : forall acc s r s',
  fold_m audit_item items acc s = (Ok r, s') ->
  fs s' = fs s /\
  Permutation (report_items r) (report_items acc ++ items) /\
  unknown r = unknown acc /\
  (forall d, In d (ignore acc) -> In d (ignore r)) /\
  (forall d, In d items -> path_is_dir (fs s) d = true -> In d (ignore r)) /\
  (forall f, In f (game r ++ save r) ->
             In f (game acc ++ save acc) \/
             (In f items /\ path_is_dir (fs s) f = false)).
Proof.
  induction items as [|x rest IH]; intros acc s r s' H.
  - injection H as <- <-. rewrite app_nil_r. repeat split; auto.
    intros d [].
  - cbn [fold_m] in H. unfold bind in H.
    destruct (audit_item x acc s) as [[r1|e] s1] eqn:E; [|discriminate].
    destruct (audit_item_inv x acc s r1 s1 E) as (cat & Hcat & -> & Hdir & Hfs).
    destruct (IH _ _ _ _ H) as (Hfs' & Hperm & Hunk & Hign & Hdirs & Hsrc).
    rewrite Hfs in *.
    split; [congruence|].
    split.
    { rewrite Hperm, report_items_append, <- app_assoc. reflexivity. }
    split.
    { rewrite Hunk. now apply report_append_unknown. }
    split.
    { intros d Hd. apply Hign. now apply report_append_ignore. }
    split.
    { intros d [<-|Hd] Hdd.
      - apply Hign. rewrite (Hdir Hdd). simpl. apply in_or_app. simpl. auto.
      - now apply Hdirs. }
    intros f Hf. destruct (Hsrc f Hf) as [Hacc|[Hin Hfile]].
    + apply report_append_sources in Hacc.
      destruct Hacc as [Hacc|[-> Hne]]; [auto|].
      right. split; [now left|].
      destruct (path_is_dir (fs s) x) eqn:Hx; [|reflexivity].
      now specialize (Hdir eq_refl).
    + right. split; [now right | assumption].
Qed.

Lemma audit_folder_inv folder s r s' :
  audit_folder folder s = (Ok r, s') ->
  path_is_dir (fs s) folder = true /\
  fold_m audit_item (children (fs s) folder) empty_report s = (Ok r, s').
Proof.
  unfold audit_folder, bind, iterdir, path_is_dir.
  destruct (lookup_node (fs s) folder) as [nd|]; [|discriminate].
  destruct (node_is_dir nd); [auto | discriminate].
Qed.


(** ** The audit returns when the operator answers and the disk is writable *)

Lemma save_config_writable s :
  writable s ->
  exists s', save_config s = (Ok tt, s') /\ writable s' /\
             fs s' = fs s /\ stdin s' = stdin s /\ config s' = config s /\
             store s' = Some (Document (config s)).
Proof.
  unfold writable, save_config. intros H.
  destruct (store_faults s) as [|[fault|] r] eqn:E.
  - eexists. split; [reflexivity|]. simpl. rewrite E. auto.
  - pose proof (Forall_inv H) as F. discriminate F.
  - eexists. split; [reflexivity|]. simpl. repeat split; auto.
    exact (Forall_inv_tail H).
Qed.

Lemma audit_item_returns item acc s :
  writable s ->
  (path_is_dir (fs s) item = false -> stdin s <> []) ->
  exists r s',
    audit_item item acc s = (Ok r, s') /\ writable s' /\ fs s' = fs s /\
    length (stdin s) <= length (stdin s') + length (files_of (fs s) [item]).
Proof.
  intros Hw Hin. unfold files_of. cbn [filter].
  destruct (path_is_dir (fs s) item) eqn:Hd.
  - rewrite (audit_item_dir item acc s Hd). do 2 eexists.
    split; [reflexivity|]. simpl. repeat split; auto. lia.
  - destruct (Category_eq_dec (classify (config s) item) Unknown) as [Hc|Hc].
    + specialize (Hin eq_refl).
      destruct (stdin s) as [|answer rest] eqn:Ein; [congruence|].
      destruct (audit_item_unknown item acc s answer rest Hd Hc Ein)
        as (t' & _ & ->).
      destruct (save_config_writable (learning item answer rest t' s))
        as (s' & -> & Hw' & Hfs & Hstdin & _); [exact Hw|].
      do 2 eexists. split; [reflexivity|].
      simpl in Hfs, Hstdin. rewrite Hstdin. simpl. repeat split; auto. lia.
    + rewrite (audit_item_known item acc s Hd Hc). do 2 eexists.
      split; [reflexivity|]. simpl. repeat split; auto. lia.
Qed.

Lemma fold_audit_returns items : forall acc s,
  writable s ->
  length (files_of (fs s) items) <= length (stdin s) ->
  exists r s', fold_m audit_item items acc s = (Ok r, s').
Proof.
  induction items as [|x rest IH]; intros acc s Hw Hlen.
  - do 2 eexists. reflexivity.
  - cbn [fold_m]. unfold bind.
    assert (Hsplit : length (files_of (fs s) (x :: rest))
                     = length (files_of (fs s) [x]) + length (files_of (fs s) rest)).
    { unfold files_of. cbn [filter].
      destruct (negb (path_is_dir (fs s) x)); reflexivity. }
    destruct (audit_item_returns x acc s Hw) as (r1 & s1 & -> & Hw1 & Hfs & Hl).
    { intros Hd Hnil. unfold files_of in Hlen. cbn [filter] in Hlen.
      rewrite Hd, Hnil in Hlen. simpl in Hlen. lia. }
    apply IH; [assumption|]. rewrite Hfs. lia.
Qed.

Lemma audit_folder_returns folder s :
  path_is_dir (fs s) folder = true ->
  writable s ->
  length (files_of (fs s) (children (fs s) folder)) <= length (stdin s) ->
  exists r s', audit_folder folder s = (Ok r, s').
Proof.
  intros Hd Hw Hlen. unfold audit_folder, bind, iterdir.
  unfold path_is_dir in Hd.
  destruct (lookup_node (fs s) folder) as [nd|]; [|discriminate].
  rewrite Hd. now apply fold_audit_returns.
Qed.

Lemma audit_folder_report folder s report s' :
  audit_folder folder s = (Ok report, s') ->
  Permutation (report_items report) (children (fs s) folder) /\
  (NoDup (children (fs s) folder) -> NoDup (report_items report)) /\
  (forall d, In d (children (fs s) folder) ->
             path_is_dir (fs s) d = true -> In d (ignore report)) /\
  (forall f, In f (game report ++ save report) -> path_is_dir (fs s) f = false) /\
  unknown report = [].
Proof.
  intros H. apply audit_folder_inv in H. destruct H as [_ H].
  destruct (fold_audit _ _ _ _ _ H) as (_ & Hperm & Hunk & _ & Hdirs & Hsrc).
  simpl in Hperm.
  split; [assumption|].
  split.
  { intros Hnd. eapply Permutation_NoDup; [|exact Hnd]. now symmetry. }
  split; [assumption|].
  split; [|assumption].
  intros f Hf. destruct (Hsrc f Hf) as [[]|[_ Hfile]]. assumption.
Qed.

(** C10. [audit_folder] returns a report when the folder is a directory,
    the operator answers each prompt and the taxonomy can be written.  The
    report it returns sorts the children of the folder: each child is in
    one bucket and one only, as often as the listing has it; every
    directory is in [ignore], whatever its name; the files of [game] and
    [save] are no directories; [unknown] is empty, a file that is
    classified unknown being filed under the category chosen at the prompt,
    which is [ignore] for any answer but g and s. *)
Theorem audit_folder_partition folder s :
  (path_is_dir (fs s) folder = true ->
   writable s ->
   length (files_of (fs s) (children (fs s) folder)) <= length (stdin s) ->
   exists report s', audit_folder folder s = (Ok report, s')) /\
  (forall report s',
      audit_folder folder s = (Ok report, s') ->
      Permutation (report_items report) (children (fs s) folder) /\
      (NoDup (children (fs s) folder) -> NoDup (report_items report)) /\
      (forall d, In d (children (fs s) folder) ->
                 path_is_dir (fs s) d = true -> In d (ignore report)) /\
      (forall f, In f (game report ++ save report) -> path_is_dir (fs s) f = false) /\
      unknown report = [] /\
      (forall choice, mapping_get choice <> Unknown /\
                      (choice <> "g" -> choice <> "s" -> mapping_get choice = Ignore))).
Proof.
  split; [apply audit_folder_returns|].
  intros report s' H.
  destruct (audit_folder_report folder s report s' H) as (H1 & H2 & H3 & H4 & H5).
  repeat (split; [assumption|]).
  intros choice. split; [apply mapping_get_known|].
  intros Hg Hs.
  destruct (mapping_get_cases choice) as [[E _]|[[E _]|(_ & _ & E)]]; congruence.
Qed.

(** ** The sources of a report are on disk *)

Lemma lookup_node_exists disk nd :
  In nd disk -> exists nd', lookup_node disk (node_path nd) = Some nd'.
Proof.
  intros H. unfold lookup_node.
  destruct (find (fun x => Pathlib.path_eqb (node_path x) (node_path nd)) disk)
    as [nd'|] eqn:E; [eauto|].
  exfalso. pose proof (find_none _ _ E nd H) as X. cbn beta in X.
  unfold Pathlib.path_eqb in X.
  destruct (Pathlib.path_eq_dec (node_path nd) (node_path nd)); congruence.
Qed.

Lemma children_on_disk disk folder f :
  In f (children disk folder) -> exists nd, lookup_node disk f = Some nd.
Proof.
  unfold children. intros H. apply in_map_iff in H.
  destruct H as (nd & <- & Hin). apply filter_In in Hin.
  apply lookup_node_exists. tauto.
Qed.

Lemma NoDup_map_filter {A B} (f : A -> B) (test : A -> bool) l :
  NoDup (map f l) -> NoDup (map f (filter test l)).
Proof.
  induction l as [|x r IH]; simpl; [auto|].
  intros H. inversion H as [|? ? Hx Hr]; subst.
  destruct (test x); [|auto]. simpl. constructor; [|auto].
  intros Hin. apply Hx. apply in_map_iff in Hin.
  destruct Hin as (y & E & Hy). apply filter_In in Hy.
  apply in_map_iff. exists y. tauto.
Qed.

Lemma audit_sources_on_disk folder s0 report s :
  audit_folder folder s0 = (Ok report, s) ->
  fs s = fs s0 /\
  (forall f, In f (game report ++ save report) -> is_file_on (fs s) f) /\
  (NoDup (map node_path (fs s0)) -> NoDup (game report)).
Proof.
  intros H. destruct (audit_folder_report folder s0 report s H)
    as (_ & Hnd & _ & Hfiles & _).
  apply audit_folder_inv in H. destruct H as [_ H].
  destruct (fold_audit _ _ _ _ _ H) as (Hfs & _ & _ & _ & _ & Hsrc).
  split; [assumption|]. split.
  - intros f Hf. rewrite Hfs.
    destruct (Hsrc f Hf) as [[]|[Hin Hfile]].
    destruct (children_on_disk _ _ _ Hin) as [nd Hl].
    exists nd. split; [assumption|].
    unfold path_is_dir in Hfile. now rewrite Hl in Hfile.
  - intros Hdisk.
    assert (Hall : NoDup (report_items report)).
    { apply Hnd. unfold children. now apply NoDup_map_filter. }
    unfold report_items in Hall. now apply NoDup_app_remove_r in Hall.
Qed.

(** ** Suffixes and the output path *)

Lemma take_drop n : forall s, (PyStr.take n s ++ PyStr.drop n s)%string = s.
Proof.
  induction n as [|n IH]; intros s; [reflexivity|].
  destruct s as [|c r]; [reflexivity|]. simpl. now rewrite IH.
Qed.

Lemma length_drop n : forall s,
  String.length (PyStr.drop n s) = String.length s - n.
Proof.
  induction n as [|n IH]; intros s; simpl; [lia|].
  destruct s as [|c r]; [reflexivity|]. simpl. apply IH.
Qed.

Lemma suffix_stem p :
  Pathlib.suffix p <> EmptyString ->
  Pathlib.name p <> EmptyString /\
  Pathlib.name p
  = (PyStr.take (String.length (Pathlib.name p) - String.length (Pathlib.suffix p))
       (Pathlib.name p) ++ Pathlib.suffix p)%string.
Proof.
  unfold Pathlib.suffix.
  set (nm := Pathlib.name p). set (i := PyStr.rfind "." nm).
  destruct ((0 <? i)%Z && (i <? Z.of_nat (String.length nm) - 1)%Z) eqn:E;
    [|congruence].
  intros _. apply andb_true_iff in E. destruct E as [E1 E2].
  apply Z.ltb_lt in E1, E2.
  split.
  - intros Hnm. rewrite Hnm in E2. simpl in E2. lia.
  - rewrite length_drop.
    replace (String.length nm - (String.length nm - Z.to_nat i)) with (Z.to_nat i) by lia.
    now rewrite take_drop.
Qed.

Lemma lower_nonempty s : PyStr.lower s <> EmptyString -> s <> EmptyString.
Proof. destruct s; simpl; congruence. Qed.

Lemma entry_point_suffix f : entry_point f -> Pathlib.suffix f <> EmptyString.
Proof.
  unfold entry_point, master_exts. intros H. apply lower_nonempty.
  simpl in H. intuition (try congruence); match goal with
  | E : _ = PyStr.lower _ |- _ => rewrite <- E; discriminate
  end.
Qed.

(** The output of a master: the same folder, the same stem, [.chd]. *)
Lemma with_suffix_chd p :
  Pathlib.suffix p <> EmptyString ->
  exists stem,
    Pathlib.name p = (stem ++ Pathlib.suffix p)%string /\
    Pathlib.with_suffix p ".chd" = Ok (Pathlib.parent p ++ [(stem ++ ".chd")%string]).
Proof.
  intros H. destruct (suffix_stem p H) as [Hnm Hstem].
  exists (PyStr.take (String.length (Pathlib.name p) - String.length (Pathlib.suffix p))
            (Pathlib.name p)).
  split; [assumption|].
  unfold Pathlib.with_suffix, Pathlib.parent.
  destruct (Pathlib.name p) as [|c r] eqn:En; [congruence|].
  destruct (Pathlib.suffix p) as [|c' r'] eqn:Es; [congruence|].
  reflexivity.
Qed.

(** ** The masters of a report *)

Lemma entry_point_mem f :
  mem (PyStr.lower (Pathlib.suffix f)) master_exts = true <-> entry_point f.
Proof. apply mem_In. Qed.

Lemma filter_first {A} (test : A -> bool) (l : list A) x rest :
  filter test l = x :: rest ->
  exists before after,
    l = before ++ x :: after /\ Forall (fun y => test y = false) before /\
    test x = true /\ rest = filter test after.
Proof.
  induction l as [|y l IH]; simpl; [discriminate|].
  destruct (test y) eqn:E.
  - intros H. injection H as -> <-. exists [], l. auto.
  - intros H. destruct (IH H) as (before & after & -> & Hb & Hx & Hr).
    exists (y :: before), after. auto.
Qed.

Lemma masters_first report master rest :
  masters report = master :: rest ->
  exists before after,
    game report = before ++ master :: after /\
    Forall (fun f => ~ entry_point f) before /\ entry_point master.
Proof.
  intros H. apply filter_first in H.
  destruct H as (before & after & E & Hb & Hm & _).
  exists before, after. split; [assumption|]. split.
  - eapply Forall_impl; [|exact Hb]. intros f Hf Hep.
    apply entry_point_mem in Hep. congruence.
  - now apply entry_point_mem.
Qed.

Lemma masters_exists report :
  Exists entry_point (game report) -> exists master rest, masters report = master :: rest.
Proof.
  intros H. apply Exists_exists in H. destruct H as (f & Hin & Hep).
  destruct (masters report) as [|m r] eqn:E; [|eauto].
  exfalso. apply entry_point_mem in Hep.
  assert (Hf : In f (masters report)) by (apply filter_In; auto).
  now rewrite E in Hf.
Qed.

Lemma masters_none report :
  Forall (fun f => ~ entry_point f) (game report) -> masters report = [].
Proof.
  intros H. unfold masters.
  induction (game report) as [|f l IH]; [reflexivity|]. cbn [filter].
  destruct (mem (PyStr.lower (Pathlib.suffix f)) master_exts) eqn:E.
  - apply entry_point_mem in E. now apply Forall_inv in H.
  - apply IH. exact (Forall_inv_tail H).
Qed.

(** ** The steps of [convert] *)

Lemma convert_eq folder report s master rest output :
  masters report = master :: rest ->
  Pathlib.with_suffix master ".chd" = Ok output ->
  convert folder report s
  = if (returncode (chdman s master output) =? 0)%Z
    then for_each (game report) unlink
           (emit (Printed MsgSuccess) (logged folder master output s))
    else (Ok tt, emit (Printed (MsgFailure (log_day_of s)))
                   (logged folder master output s)).
Proof.
  intros Hm Ho. unfold convert. rewrite Hm.
  unfold bind at 1. unfold lift. rewrite Ho.
  unfold bind, date_today, print, subprocess_run, datetime_now,
    log_append, logged, log_record, log_day_of, disk_after, gets, modify, emit,
    set_trace, set_fs, set_clock, set_logs.
  cbn [fs clock trace logs chdman config store store_faults stdin].
  destruct (returncode (chdman s master output) =? 0)%Z;
    cbn [fs clock trace logs chdman config store store_faults stdin];
    rewrite <- !app_assoc; reflexivity.
Qed.

Lemma convert_none folder report s :
  masters report = [] ->
  convert folder report s = (Ok tt, emit (Printed MsgNoEntryPoint) s).
Proof. intros H. unfold convert. now rewrite H. Qed.

(** ** Deleting the sources *)

Lemma path_eqb_eq p q : Pathlib.path_eqb p q = true <-> p = q.
Proof.
  unfold Pathlib.path_eqb. destruct (Pathlib.path_eq_dec p q); split; congruence.
Qed.

Lemma path_eqb_refl p : Pathlib.path_eqb p p = true.
Proof. now apply path_eqb_eq. Qed.

Lemma path_eqb_neq p q : p <> q -> Pathlib.path_eqb p q = false.
Proof.
  intros H. destruct (Pathlib.path_eqb p q) eqn:E; [|reflexivity].
  apply path_eqb_eq in E. contradiction.
Qed.

Lemma lookup_node_path disk p nd :
  lookup_node disk p = Some nd -> In nd disk /\ node_path nd = p.
Proof.
  unfold lookup_node. intros H. apply find_some in H.
  destruct H as [Hin E]. apply path_eqb_eq in E. auto.
Qed.

Lemma lookup_without_other disk f g :
  g <> f ->
  lookup_node (filter (fun nd => negb (Pathlib.path_eqb (node_path nd) f)) disk) g
  = lookup_node disk g.
Proof.
  intros Hne. unfold lookup_node.
  induction disk as [|nd l IH]; [reflexivity|]. cbn [filter find].
  destruct (Pathlib.path_eqb (node_path nd) f) eqn:Ef; cbn [negb find].
  - apply path_eqb_eq in Ef.
    rewrite (path_eqb_neq (node_path nd) g) by congruence. exact IH.
  - destruct (Pathlib.path_eqb (node_path nd) g); [reflexivity | exact IH].
Qed.

Lemma disk_without_cons f files disk :
  disk_without files (filter (fun nd => negb (Pathlib.path_eqb (node_path nd) f)) disk)
  = disk_without (f :: files) disk.
Proof.
  unfold disk_without.
  induction disk as [|nd l IH]; [reflexivity|]. cbn [filter existsb].
  destruct (Pathlib.path_eqb (node_path nd) f); cbn [negb orb filter].
  - exact IH.
  - destruct (existsb (Pathlib.path_eqb (node_path nd)) files); cbn [negb];
      now rewrite IH.
Qed.

Lemma disk_without_nil disk : disk_without [] disk = disk.
Proof.
  unfold disk_without. induction disk as [|nd l IH]; simpl in *;
    [reflexivity | now f_equal].
Qed.

Lemma lookup_disk_without files disk f :
  In f files -> lookup_node (disk_without files disk) f = None.
Proof.
  intros Hin. unfold lookup_node, disk_without.
  destruct (find _ _) as [nd|] eqn:E; [|reflexivity].
  apply find_some in E. destruct E as [Hnd Hp].
  apply filter_In in Hnd. destruct Hnd as [_ Hex].
  apply path_eqb_eq in Hp.
  assert (X : existsb (Pathlib.path_eqb (node_path nd)) files = true).
  { apply existsb_exists. exists f. split; [assumption|]. now apply path_eqb_eq. }
  rewrite X in Hex. discriminate.
Qed.

Lemma In_disk_without files disk nd :
  In nd disk -> ~ In (node_path nd) files -> In nd (disk_without files disk).
Proof.
  intros Hin Hout. unfold disk_without. apply filter_In. split; [assumption|].
  destruct (existsb _ files) eqn:E; [|reflexivity].
  apply existsb_exists in E. destruct E as (f & Hf & Ef).
  apply path_eqb_eq in Ef. congruence.
Qed.

Lemma unlink_file f s :
  is_file_on (fs s) f ->
  unlink f s
  = (Ok tt, emit (Unlinked f)
              (set_fs (filter (fun nd => negb (Pathlib.path_eqb (node_path nd) f)) (fs s)) s)).
Proof.
  intros (nd & Hl & Hd). unfold unlink. now rewrite Hl, Hd.
Qed.

Lemma for_each_unlink files : forall s,
  NoDup files ->
  (forall f, In f files -> is_file_on (fs s) f) ->
  exists s',
    for_each files unlink s = (Ok tt, s') /\
    trace s' = trace s ++ map Unlinked files /\
    fs s' = disk_without files (fs s) /\
    stdin s' = stdin s /\ logs s' = logs s /\
    config s' = config s /\ store s' = store s.
Proof.
  induction files as [|f r IH]; intros s Hnd Hfiles.
  - exists s. simpl. rewrite app_nil_r, disk_without_nil. repeat split; auto.
  - cbn [for_each]. unfold bind.
    rewrite (unlink_file f s) by (apply Hfiles; now left).
    inversion Hnd as [|? ? Hnotin Hnd']; subst.
    set (s1 := emit (Unlinked f) (set_fs _ s)).
    destruct (IH s1 Hnd') as (s' & E & Ht & Hfs & Hin & Hlg & Hc & Hst).
    { intros g Hg. destruct (Hfiles g (or_intror Hg)) as (nd & Hl & Hd).
      exists nd. split; [|assumption].
      subst s1. cbn [fs emit set_trace set_fs].
      rewrite lookup_without_other; [assumption | congruence]. }
    exists s'. split; [assumption|].
    subst s1. cbn [fs emit set_trace set_fs trace stdin logs config store] in *.
    rewrite Ht, Hfs, <- app_assoc, disk_without_cons. repeat split; auto.
Qed.

(** Whatever the disk, the files unlinked are a leading part of the list,
    in its order, and nothing else is touched. *)
Lemma for_each_unlink_prefix files : forall s,
  exists deleted kept outcome s',
    for_each files unlink s = (outcome, s') /\
    files = deleted ++ kept /\
    trace s' = trace s ++ map Unlinked deleted /\
    logs s' = logs s /\ stdin s' = stdin s /\
    (outcome = Ok tt -> kept = []).
Proof.
  induction files as [|f r IH]; intros s.
  - exists [], [], (Ok tt), s. simpl. rewrite app_nil_r. repeat split; auto.
  - cbn [for_each]. unfold bind, unlink.
    destruct (lookup_node (fs s) f) as [nd|] eqn:El.
    + destruct (node_is_dir nd) eqn:Ed.
      * exists [], (f :: r), (Raise OSError), s. simpl. rewrite app_nil_r.
        repeat split; auto. discriminate.
      * set (s1 := emit (Unlinked f) (set_fs _ s)).
        destruct (IH s1) as (deleted & kept & outcome & s' & E & -> & Ht & Hl & Hi & Ho).
        exists (f :: deleted), kept, outcome, s'.
        split; [assumption|]. split; [reflexivity|].
        subst s1. cbn [emit set_trace set_fs trace logs stdin] in *.
        rewrite Ht, <- app_assoc. repeat split; auto.
    + exists [], (f :: r), (Raise FileNotFoundError), s. simpl. rewrite app_nil_r.
      repeat split; auto. discriminate.
Qed.

Lemma lookup_disk_after res output disk p nd :
  lookup_node disk p = Some nd ->
  lookup_node (disk_after res output disk) p = Some nd.
Proof.
  intros H. unfold disk_after.
  destruct (wrote_output res); [|assumption].
  destruct (lookup_node disk output); [assumption|].
  unfold lookup_node in *.
  induction disk as [|x l IH]; [discriminate|]. cbn [app find] in *.
  destruct (Pathlib.path_eqb (node_path x) p); [assumption|]. now apply IH.
Qed.

Lemma In_disk_after res output disk nd :
  In nd disk -> In nd (disk_after res output disk).
Proof.
  intros H. unfold disk_after.
  destruct (wrote_output res); [|assumption].
  destruct (lookup_node disk output); [assumption|].
  apply in_or_app. now left.
Qed.

(** ** The conversion of a folder *)

Lemma hd_error_cons {A} (l : list A) x :
  hd_error l = Some x -> exists rest, l = x :: rest.
Proof. destruct l as [|y r]; simpl; [discriminate|]. intros H. injection H as ->. eauto. Qed.

Lemma master_output report master rest :
  masters report = master :: rest ->
  exists stem,
    Pathlib.name master = (stem ++ Pathlib.suffix master)%string /\
    Pathlib.with_suffix master ".chd"
    = Ok (Pathlib.parent master ++ [(stem ++ ".chd")%string]).
Proof.
  intros H. destruct (masters_first report master rest H) as (_ & _ & _ & _ & Hep).
  apply with_suffix_chd. now apply entry_point_suffix.
Qed.

Lemma process_folder_eq folder s0 report s answer rest :
  audit_folder folder s0 = (Ok report, s) ->
  stdin s = answer :: rest ->
  process_folder folder s0
  = if String.eqb (PyStr.lower answer) "y"
    then convert folder report (answered folder answer rest (planned folder report s))
    else (Ok tt, answered folder answer rest (planned folder report s)).
Proof.
  intros Ha Hin. unfold process_folder. unfold bind at 1. rewrite Ha.
  unfold print_folder_summary, bind, print, modify, input, emit, planned, answered,
    set_trace, set_stdin, emit, set_trace, ret.
  cbn [stdin trace config store store_faults fs clock logs chdman].
  rewrite Hin. rewrite <- !app_assoc. cbn [app].
  destruct (String.eqb (PyStr.lower answer) "y"); reflexivity.
Qed.

(** The conversion of one folder, from one report, in one state. *)
Section Conversion.

Variables (folder : Path) (report : Report) (s : State).

(** C1. In a conversion the converter runs first; then one record, with
    the time, the name of the folder and the output captured, is appended
    to the log of the day, whatever the exit status; the sources are
    unlinked after that and only when the exit status is 0. *)
Theorem convert_effects_in_order master :
  hd_error (masters report) = Some master ->
  exists output deleted kept outcome s',
    Pathlib.with_suffix master ".chd" = Ok output /\
    convert folder report s = (outcome, s') /\
    game report = deleted ++ kept /\
    trace s' =
      trace s ++
      [Printed (MsgExecuting (Pathlib.name master));
       Converted master output (chdman s master output);
       Logged (log_day_of s) (log_record folder (chdman s master output) s)] ++
      (if (returncode (chdman s master output) =? 0)%Z
       then Printed MsgSuccess :: map Unlinked deleted
       else [Printed (MsgFailure (log_day_of s))]) /\
    logs s' = logs s ++ [(log_day_of s, log_record folder (chdman s master output) s)] /\
    (returncode (chdman s master output) <> 0%Z -> deleted = []).
Proof.
  intros H. apply hd_error_cons in H. destruct H as [rest Hm].
  destruct (master_output report master rest Hm) as (stem & _ & Ho).
  set (output := Pathlib.parent master ++ [(stem ++ ".chd")%string]) in *.
  exists output. rewrite (convert_eq folder report s master rest output Hm Ho).
  destruct (returncode (chdman s master output) =? 0)%Z eqn:Erc.
  - destruct (for_each_unlink_prefix (game report)
                (emit (Printed MsgSuccess) (logged folder master output s)))
      as (deleted & kept & outcome & s' & E & Hg & Ht & Hl & _ & _).
    exists deleted, kept, outcome, s'.
    split; [exact Ho|]. split; [exact E|]. split; [exact Hg|].
    split.
    + rewrite Ht. cbn [emit set_trace trace logged].
      rewrite <- !app_assoc. reflexivity.
    + split; [rewrite Hl; reflexivity|].
      apply Z.eqb_eq in Erc. congruence.
  - exists [], (game report), (Ok tt).
    eexists. split; [exact Ho|]. split; [reflexivity|]. split; [reflexivity|].
    cbn [emit set_trace trace logged logs].
    rewrite <- !app_assoc. auto.
Qed.

(** A failed conversion.  When the converter exits with a status other
    than 0, nothing on disk is removed and no file is unlinked; a record
    is appended to the log all the same, and the operator is told of the
    failure and of the log file.  The text of the record is what the
    converter wrote on its standard output: what it wrote on its error
    stream is captured with it and written nowhere. *)
Lemma convert_failure master output :
  hd_error (masters report) = Some master ->
  Pathlib.with_suffix master ".chd" = Ok output ->
  returncode (chdman s master output) <> 0%Z ->
  exists s',
    convert folder report s = (Ok tt, s') /\
    (forall nd, In nd (fs s) -> In nd (fs s')) /\
    (forall p nd, lookup_node (fs s) p = Some nd -> lookup_node (fs s') p = Some nd) /\
    trace s' =
      trace s ++
      [Printed (MsgExecuting (Pathlib.name master));
       Converted master output (chdman s master output);
       Logged (log_day_of s) (log_record folder (chdman s master output) s);
       Printed (MsgFailure (log_day_of s))] /\
    logs s' = logs s ++ [(log_day_of s, log_record folder (chdman s master output) s)] /\
    log_text (log_record folder (chdman s master output) s)
    = stdout (chdman s master output).
Proof.
  intros H Ho Hrc. apply hd_error_cons in H. destruct H as [rest Hm].
  rewrite (convert_eq folder report s master rest output Hm Ho).
  apply Z.eqb_neq in Hrc. rewrite Hrc.
  eexists. split; [reflexivity|].
  cbn [emit set_trace trace logged logs fs].
  split; [intros nd; apply In_disk_after|].
  split; [intros p nd; apply lookup_disk_after|].
  rewrite <- !app_assoc. auto.
Qed.

(** C3. When the game bucket has an entry-point file, the converter runs
    once, on the first of them in the order of the bucket, without asking,
    and its output path is the path of that file with [.chd] in place of
    its suffix; when it exits with 0 every file of the game bucket is
    deleted, the entry file and the others alike. *)
Theorem convert_entry_point :
  Exists entry_point (game report) ->
  exists before master after stem outcome s' events,
    game report = before ++ master :: after /\
    Forall (fun f => ~ entry_point f) before /\ entry_point master /\
    Pathlib.name master = (stem ++ Pathlib.suffix master)%string /\
    convert folder report s = (outcome, s') /\
    trace s' = trace s ++ events /\
    filter is_conversion events
    = [Converted master (Pathlib.parent master ++ [(stem ++ ".chd")%string])
         (chdman s master (Pathlib.parent master ++ [(stem ++ ".chd")%string]))] /\
    filter is_prompt events = [] /\
    stdin s' = stdin s /\
    (returncode (chdman s master (Pathlib.parent master ++ [(stem ++ ".chd")%string])) = 0%Z ->
     NoDup (game report) ->
     (forall f, In f (game report) -> is_file_on (fs s) f) ->
     outcome = Ok tt /\
     (forall f, In f (game report) -> lookup_node (fs s') f = None) /\
     (forall f, In f (game report) -> In (Unlinked f) events) /\
     (forall nd, In nd (fs s) -> ~ In (node_path nd) (game report) -> In nd (fs s'))).
Proof.
  intros H. destruct (masters_exists report H) as (master & rest & Hm).
  destruct (masters_first report master rest Hm) as (before & after & Hg & Hb & Hep).
  destruct (master_output report master rest Hm) as (stem & Hstem & Ho).
  set (output := Pathlib.parent master ++ [(stem ++ ".chd")%string]) in *.
  exists before, master, after, stem.
  rewrite (convert_eq folder report s master rest output Hm Ho).
  destruct (returncode (chdman s master output) =? 0)%Z eqn:Erc.
  - destruct (for_each_unlink_prefix (game report)
                (emit (Printed MsgSuccess) (logged folder master output s)))
      as (deleted & kept & outcome & s' & E & Hdk & Ht & _ & Hin & _).
    exists outcome, s'. eexists.
    split; [exact Hg|]. split; [exact Hb|]. split; [exact Hep|].
    split; [exact Hstem|]. split; [exact E|].
    split.
    { rewrite Ht. cbn [emit set_trace trace logged].
      rewrite <- !app_assoc. reflexivity. }
    assert (Hnoconv : forall l, filter is_conversion (map Unlinked l) = []).
    { induction l; simpl; auto. }
    assert (Hnoask : forall l, filter is_prompt (map Unlinked l) = []).
    { induction l; simpl; auto. }
    split; [cbn [app filter is_conversion]; now rewrite Hnoconv|].
    split; [cbn [app filter is_prompt]; now rewrite Hnoask|].
    split; [rewrite Hin; reflexivity|].
    intros _ Hnd Hfiles.
    destruct (for_each_unlink (game report)
                (emit (Printed MsgSuccess) (logged folder master output s)) Hnd)
      as (s2 & E2 & Ht2 & Hfs2 & _).
    { intros f Hf. destruct (Hfiles f Hf) as (nd & Hl & Hd).
      exists nd. split; [|assumption].
      cbn [emit set_trace fs logged]. now apply lookup_disk_after. }
    rewrite E in E2. injection E2 as -> ->.
    split; [reflexivity|].
    split; [intros f Hf; rewrite Hfs2; now apply lookup_disk_without|].
    split.
    { intros f Hf.
      assert (Hd : deleted = game report).
      { rewrite Ht in Ht2. apply app_inv_head in Ht2.
        clear - Ht2. revert Ht2. generalize (game report).
        induction deleted as [|d l IH]; intros [|g l'] Hx; simpl in Hx;
          try discriminate; [reflexivity|].
        injection Hx as -> Hx. f_equal. now apply IH. }
      rewrite Hd. cbn [app]. right. right. right. right.
      apply in_map. assumption. }
    intros nd Hnd' Hout. rewrite Hfs2.
    apply In_disk_without; [|assumption].
    cbn [emit set_trace fs logged]. now apply In_disk_after.
  - exists (Ok tt). eexists. eexists.
    split; [exact Hg|]. split; [exact Hb|]. split; [exact Hep|].
    split; [exact Hstem|]. split; [reflexivity|].
    split.
    { cbn [emit set_trace trace logged]. rewrite <- !app_assoc. reflexivity. }
    split; [reflexivity|]. split; [reflexivity|]. split; [reflexivity|].
    intros Hz. apply Z.eqb_neq in Erc. contradiction.
Qed.

(** C6. When no file of the game bucket is an entry point, [convert] says
    so and returns: the converter is not run and nothing is deleted; the
    folder is done with and the loop goes on with the folders that follow. *)
Theorem convert_no_entry_point :
  Forall (fun f => ~ entry_point f) (game report) ->
  convert folder report s = (Ok tt, emit (Printed MsgNoEntryPoint) s) /\
  (forall s0 answer rest_in rest,
      audit_folder folder s0 = (Ok report, s) ->
      stdin s = answer :: rest_in ->
      PyStr.lower answer = "y" ->
      exists s2,
        process_folder folder s0 = (Ok tt, s2) /\
        fs s2 = fs s0 /\ logs s2 = logs s /\
        trace s2 =
          trace s ++
          [Printed (MsgPlan (Pathlib.name folder));
           Printed (MsgPlanGame (map Pathlib.name (game report)));
           Printed (MsgPlanSave (map Pathlib.name (save report)));
           Printed (MsgPlanIgnore (map Pathlib.name (ignore report)));
           Asked (AskConfirm (Pathlib.name folder)) (Some answer);
           Printed MsgNoEntryPoint] /\
        for_each (folder :: rest) process_folder s0 = for_each rest process_folder s2).
Proof.
  intros H. pose proof (masters_none report H) as Hm.
  split; [now apply convert_none|].
  intros s0 answer rest_in rest Ha Hin Hy.
  pose proof (process_folder_eq folder s0 report s answer rest_in Ha Hin) as E.
  rewrite Hy in E. cbn [String.eqb Ascii.eqb Bool.eqb] in E.
  rewrite (convert_none folder report _ Hm) in E.
  eexists. split; [exact E|].
  apply audit_folder_inv in Ha. destruct Ha as [_ Ha].
  destruct (fold_audit _ _ _ _ _ Ha) as (Hfs & _).
  cbn [emit set_trace answered planned set_stdin fs logs trace].
  split; [assumption|]. split; [reflexivity|].
  split; [rewrite <- !app_assoc; reflexivity|].
  cbn [for_each]. unfold bind. now rewrite E.
Qed.

End Conversion.

(** ** A confirmed folder, from the audit to the deletion *)

Lemma convert_success folder report s master rest output :
  masters report = master :: rest ->
  Pathlib.with_suffix master ".chd" = Ok output ->
  returncode (chdman s master output) = 0%Z ->
  NoDup (game report) ->
  (forall f, In f (game report) -> is_file_on (fs s) f) ->
  exists s',
    convert folder report s = (Ok tt, s') /\
    trace s' =
      trace s ++
      [Printed (MsgExecuting (Pathlib.name master));
       Converted master output (chdman s master output);
       Logged (log_day_of s) (log_record folder (chdman s master output) s);
       Printed MsgSuccess] ++ map Unlinked (game report) /\
    fs s' = disk_without (game report) (disk_after (chdman s master output) output (fs s)) /\
    stdin s' = stdin s.
Proof.
  intros Hm Ho Hrc Hnd Hfiles.
  rewrite (convert_eq folder report s master rest output Hm Ho).
  apply Z.eqb_eq in Hrc. rewrite Hrc.
  destruct (for_each_unlink (game report)
              (emit (Printed MsgSuccess) (logged folder master output s)) Hnd)
    as (s' & E & Ht & Hfs & Hin & _).
  { intros f Hf. destruct (Hfiles f Hf) as (nd & Hl & Hd).
    exists nd. split; [|assumption].
    cbn [emit set_trace fs logged]. now apply lookup_disk_after. }
  exists s'. split; [exact E|].
  cbn [emit set_trace trace fs stdin logged] in Ht, Hfs, Hin.
  rewrite Ht, Hfs, Hin, <- !app_assoc. auto.
Qed.

(** A folder audited, confirmed with [y] and converted with exit status 0,
    on a disk that has each path once: all the files the audit put in the
    game bucket are gone, and the rest of the disk is as it was, but for
    the output of the converter. *)
Lemma confirmed_conversion_deletes_sources folder s0 report s answer rest master others output :
  NoDup (map node_path (fs s0)) ->
  audit_folder folder s0 = (Ok report, s) ->
  stdin s = answer :: rest ->
  PyStr.lower answer = "y" ->
  masters report = master :: others ->
  Pathlib.with_suffix master ".chd" = Ok output ->
  returncode (chdman s master output) = 0%Z ->
  exists s',
    process_folder folder s0 = (Ok tt, s') /\
    (forall f, In f (game report) -> lookup_node (fs s') f = None) /\
    (forall nd, In nd (fs s0) -> ~ In (node_path nd) (game report) -> In nd (fs s')) /\
    stdin s' = rest.
Proof.
  intros Hdisk Ha Hin Hy Hm Ho Hrc.
  destruct (audit_sources_on_disk folder s0 report s Ha) as (Hfs & Hfiles & Hnd).
  rewrite (process_folder_eq folder s0 report s answer rest Ha Hin), Hy.
  cbn [String.eqb Ascii.eqb Bool.eqb].
  destruct (convert_success folder report
              (answered folder answer rest (planned folder report s))
              master others output Hm Ho Hrc (Hnd Hdisk))
    as (s' & E & _ & Hfs' & Hin').
  { intros f Hf. apply Hfiles, in_or_app. now left. }
  exists s'. split; [exact E|].
  cbn [answered planned emit set_trace set_stdin fs stdin chdman] in Hfs', Hin'.
  rewrite Hfs', Hin'. split; [|split; [|reflexivity]].
  - intros f Hf. now apply lookup_disk_without.
  - intros nd Hnd' Hout. apply In_disk_without; [|assumption].
    apply In_disk_after. now rewrite Hfs.
Qed.

(** ** Learning an extension *)

Lemma mem_app_last ext l : mem ext (l ++ [ext]) = true.
Proof. apply mem_In, in_or_app. right. now left. Qed.

Lemma learned_is_classify_ext item :
  learned_ext item <> EmptyString -> classify_ext item = learned_ext item.
Proof.
  unfold classify_ext, learned_ext.
  destruct (PyStr.lower (String.concat EmptyString (Pathlib.suffixes item))); congruence.
Qed.

Lemma classify_after_append t cat ext t' p :
  ~ known_ext t ext ->
  cat <> Unknown ->
  categories_append t cat ext = Ok t' ->
  classify_ext p = ext ->
  classify t' p = cat.
Proof.
  intros Hk Hcat Happ Hext. unfold known_ext in Hk.
  assert (G : mem ext (game_exts t) = false) by (apply mem_not_In; tauto).
  assert (S : mem ext (save_exts t) = false) by (apply mem_not_In; tauto).
  unfold classify. rewrite Hext.
  destruct cat; simpl in Happ; try congruence; injection Happ as <-;
    cbn [first_category categories game_exts save_exts ignore_exts];
    rewrite ?G, ?S, ?mem_app_last; reflexivity.
Qed.

(** Where learning works: a file whose compound suffix is not empty.  The
    extension it is filed under is the one [classify] looks up, so a later
    file with that extension gets the chosen category, in this session and,
    the taxonomy having been written, in the next. *)
Lemma learned_extension_kept item report s answer rest other answers :
  path_is_dir (fs s) item = false ->
  classify (config s) item = Unknown ->
  stdin s = answer :: rest ->
  writable s ->
  learned_ext item <> EmptyString ->
  classify_ext other = classify_ext item ->
  exists s',
    audit_item item report s
    = (Ok (report_append report (mapping_get (PyStr.lower answer)) item), s') /\
    classify (config s') other = mapping_get (PyStr.lower answer) /\
    store s' = Some (Document (config s')) /\
    classify (config (restart answers s')) other = mapping_get (PyStr.lower answer).
Proof.
  intros Hd Hc Hin Hw Hne Hother.
  destruct (audit_item_unknown item report s answer rest Hd Hc Hin) as (t' & Ht & E).
  destruct (save_config_writable (learning item answer rest t' s) Hw)
    as (s' & Es & _ & _ & _ & Hcfg & Hst).
  rewrite Es in E. exists s'. split; [exact E|].
  cbn [learning set_config config] in Hcfg, Hst.
  assert (Hcl : classify t' other = mapping_get (PyStr.lower answer)).
  { apply (classify_after_append (config s) _ (learned_ext item)).
    - apply classify_unknown in Hc.
      now rewrite (learned_is_classify_ext item Hne) in Hc.
    - apply mapping_get_known.
    - exact Ht.
    - rewrite Hother. now apply learned_is_classify_ext. }
  rewrite Hcfg. split; [assumption|]. split; [assumption|].
  unfold restart, init, bind, load_config, modify.
  cbn [set_stdin store]. rewrite Hst. cbn [snd set_config config]. exact Hcl.
Qed.

(** C5, on a name with two leading dots.  [classify] looks up the final
    suffix [.sav] of [..sav], its compound suffix being empty, but the
    audit files the empty compound suffix under the chosen category: the
    taxonomy, in memory and on disk, gains the empty string and not [.sav], and the
    file is unknown again at the next audit and after a restart. *)
Theorem learned_extension_asked_again :
  classify_ext ["roms"; "Gamma"; "..sav"] = ".sav" /\
  learned_ext ["roms"; "Gamma"; "..sav"] = EmptyString /\
  classify default_data ["roms"; "Gamma"; "..sav"] = Unknown /\
  audit_folder ex_gamma (ex_state ["s"] []) = (Ok ex_gamma_report, ex_gamma_audited) /\
  save_exts (config ex_gamma_audited) = save_exts default_data ++ [EmptyString] /\
  store ex_gamma_audited = Some (Document (config ex_gamma_audited)) /\
  classify (config ex_gamma_audited) ["roms"; "Gamma"; "..sav"] = Unknown /\
  fst (audit_folder ex_gamma (set_stdin [] ex_gamma_audited)) = Raise EOFError /\
  fst (audit_folder ex_gamma (set_stdin ["g"] ex_gamma_audited))
  = Ok (mkReport [["roms"; "Gamma"; "gamma.iso"]; ["roms"; "Gamma"; "..sav"]] [] [] []) /\
  classify (config (restart [] ex_gamma_audited)) ["roms"; "Gamma"; "..sav"] = Unknown.
Proof. vm_compute. repeat split; reflexivity. Qed.

(** ** A failed write of the taxonomy *)

Lemma fold_m_app {A B} (body : A -> B -> M B) (l1 l2 : list A) : forall acc s,
  fold_m body (l1 ++ l2) acc s
  = match fold_m body l1 acc s with
    | (Ok acc', s') => fold_m body l2 acc' s'
    | (Raise e, s') => (Raise e, s')
    end.
Proof.
  induction l1 as [|x r IH]; intros acc s; [reflexivity|].
  cbn [app fold_m]. unfold bind.
  destruct (body x acc s) as [[a|e] s1]; [apply IH | reflexivity].
Qed.

Lemma for_each_raise {A} (body : A -> M unit) x rest s e s' :
  body x s = (Raise e, s') -> for_each (x :: rest) body s = (Raise e, s').
Proof. intros H. cbn [for_each]. unfold bind. now rewrite H. Qed.

Lemma audit_item_write_fails item report s answer rest fault faults :
  path_is_dir (fs s) item = false ->
  classify (config s) item = Unknown ->
  stdin s = answer :: rest ->
  store_faults s = Some fault :: faults ->
  exists t',
    categories_append (config s) (mapping_get (PyStr.lower answer)) (learned_ext item)
    = Ok t' /\
    audit_item item report s
    = (Raise (fault_exn fault),
       emit ConfigWriteFailed
         (set_store (after_fault fault (store s))
            (set_store_faults faults (learning item answer rest t' s)))).
Proof.
  intros Hd Hc Hin Hf.
  destruct (audit_item_unknown item report s answer rest Hd Hc Hin) as (t' & Ht & E).
  exists t'. split; [assumption|]. rewrite E.
  unfold save_config.
  cbn [learning store_faults store set_config emit set_trace set_stdin].
  rewrite Hf. reflexivity.
Qed.

(** C9, as the code has it.  A failed write of [config.toml] is not caught,
    however it fails: the exception leaves [audit_folder] and the loop of
    [run], so the folder under audit is not converted and the folders after
    it are not processed.  The taxonomy in memory has the new extension by
    then. *)
Theorem save_failure_propagates
  folder later s0 before item after acc s answer rest fault faults :
  path_is_dir (fs s0) folder = true ->
  children (fs s0) folder = before ++ item :: after ->
  fold_m audit_item before empty_report s0 = (Ok acc, s) ->
  path_is_dir (fs s) item = false ->
  classify (config s) item = Unknown ->
  stdin s = answer :: rest ->
  store_faults s = Some fault :: faults ->
  exists t' s',
    categories_append (config s) (mapping_get (PyStr.lower answer)) (learned_ext item)
    = Ok t' /\
    audit_folder folder s0 = (Raise (fault_exn fault), s') /\
    for_each (folder :: later) process_folder s0 = (Raise (fault_exn fault), s') /\
    config s' = t' /\ fs s' = fs s /\ logs s' = logs s /\
    stdin s' = rest /\
    trace s' = trace s ++ [Printed (MsgUnclassified (Pathlib.name item));
                           Asked AskAction (Some answer);
                           ConfigWriteFailed].
Proof.
  intros Hdir Hch Hbefore Hd Hc Hin Hf.
  destruct (audit_item_write_fails item acc s answer rest fault faults Hd Hc Hin Hf)
    as (t' & Ht & E).
  exists t'. eexists. split; [exact Ht|].
  assert (Ha : audit_folder folder s0
               = (Raise (fault_exn fault),
                  emit ConfigWriteFailed
                    (set_store (after_fault fault (store s))
                       (set_store_faults faults (learning item answer rest t' s))))).
  { unfold audit_folder, bind, iterdir. unfold path_is_dir in Hdir.
    destruct (lookup_node (fs s0) folder) as [nd|]; [|discriminate].
    rewrite Hdir, Hch, fold_m_app, Hbefore.
    cbn [fold_m]. unfold bind. now rewrite E. }
  split; [exact Ha|].
  split.
  { apply for_each_raise. unfold process_folder, bind. now rewrite Ha. }
  cbn [emit set_trace set_store set_store_faults learning set_config set_stdin
       config store fs logs stdin trace].
  rewrite <- !app_assoc. repeat split; reflexivity.
Qed.

(** ** What has been learned stays for the rest of the run *)

Lemma mem_app_other e x l : e <> x -> mem e (l ++ [x]) = mem e l.
Proof.
  intros Hne. unfold mem. rewrite existsb_app. simpl.
  destruct (String.eqb_spec e x); [contradiction|]. now rewrite !orb_false_r.
Qed.

Lemma classify_append_other t cat x t' p :
  categories_append t cat x = Ok t' ->
  classify_ext p <> x ->
  classify t' p = classify t p.
Proof.
  intros Happ Hne. unfold classify.
  destruct cat; simpl in Happ; try discriminate; injection Happ as <-;
    cbn [first_category categories game_exts save_exts ignore_exts];
    rewrite ?(mem_app_other _ _ _ Hne); reflexivity.
Qed.

Lemma save_config_config s : config (snd (save_config s)) = config s.
Proof. unfold save_config. destruct (store_faults s) as [|[[]|] r]; reflexivity. Qed.

(** The extension that is appended is never one that the taxonomy has, nor
    a non-empty one that it gets to know by another name. *)
Lemma learned_ext_fresh item s p :
  classify (config s) item = Unknown ->
  classify_ext p <> EmptyString ->
  classify (config s) p <> Unknown ->
  classify_ext p <> learned_ext item.
Proof.
  intros Hu Hne Hk E.
  assert (Hl : learned_ext item <> EmptyString) by congruence.
  apply learned_is_classify_ext in Hl.
  apply Hk. unfold classify in *. now rewrite E, <- Hl.
Qed.

Lemma audit_item_stable item acc s p :
  classify_ext p <> EmptyString ->
  classify (config s) p <> Unknown ->
  classify (config (snd (audit_item item acc s))) p = classify (config s) p.
Proof.
  intros Hne Hk.
  destruct (path_is_dir (fs s) item) eqn:Hd.
  - now rewrite (audit_item_dir item acc s Hd).
  - destruct (Category_eq_dec (classify (config s) item) Unknown) as [Hc|Hc].
    + destruct (stdin s) as [|answer rest] eqn:Hin.
      * now rewrite (audit_item_eof item acc s Hd Hc Hin).
      * destruct (audit_item_unknown item acc s answer rest Hd Hc Hin)
          as (t' & Ht & ->).
        pose proof (save_config_config (learning item answer rest t' s)) as E.
        destruct (save_config (learning item answer rest t' s)) as [[[]|e] s'];
          cbn [snd learning set_config config] in *; rewrite E;
          apply (classify_append_other _ _ _ _ _ Ht);
          now apply (learned_ext_fresh item s).
    + now rewrite (audit_item_known item acc s Hd Hc).
Qed.

Lemma fold_audit_stable items p : forall acc s,
  classify_ext p <> EmptyString ->
  classify (config s) p <> Unknown ->
  classify (config (snd (fold_m audit_item items acc s))) p = classify (config s) p.
Proof.
  induction items as [|x rest IH]; intros acc s Hne Hk; [reflexivity|].
  cbn [fold_m]. unfold bind.
  pose proof (audit_item_stable x acc s p Hne Hk) as E.
  destruct (audit_item x acc s) as [[r|e] s1]; cbn [snd] in *; [|assumption].
  rewrite IH; [assumption | assumption | congruence].
Qed.

Lemma audit_folder_stable folder s p :
  classify_ext p <> EmptyString ->
  classify (config s) p <> Unknown ->
  classify (config (snd (audit_folder folder s))) p = classify (config s) p.
Proof.
  intros Hne Hk. unfold audit_folder, bind, iterdir.
  destruct (lookup_node (fs s) folder) as [nd|]; [|reflexivity].
  destruct (node_is_dir nd); [|reflexivity].
  now apply fold_audit_stable.
Qed.

Lemma for_each_unlink_config files : forall s,
  config (snd (for_each files unlink s)) = config s.
Proof.
  induction files as [|f r IH]; intros s; [reflexivity|].
  cbn [for_each]. unfold bind, unlink.
  destruct (lookup_node (fs s) f) as [nd|]; [|reflexivity].
  destruct (node_is_dir nd); [reflexivity|]. now rewrite IH.
Qed.

Lemma convert_config folder report s :
  config (snd (convert folder report s)) = config s.
Proof.
  destruct (masters report) as [|master rest] eqn:Hm.
  - now rewrite (convert_none folder report s Hm).
  - destruct (master_output report master rest Hm) as (stem & _ & Ho).
    rewrite (convert_eq folder report s master rest _ Hm Ho).
    destruct (returncode _ =? 0)%Z; [|reflexivity].
    now rewrite for_each_unlink_config.
Qed.

Lemma process_folder_stable folder s p :
  classify_ext p <> EmptyString ->
  classify (config s) p <> Unknown ->
  classify (config (snd (process_folder folder s))) p = classify (config s) p.
Proof.
  intros Hne Hk.
  pose proof (audit_folder_stable folder s p Hne Hk) as E.
  destruct (audit_folder folder s) as [[report|e] s1] eqn:Ha; cbn [snd] in E.
  - destruct (stdin s1) as [|answer rest] eqn:Hin.
    + unfold process_folder. unfold bind at 1. rewrite Ha.
      unfold print_folder_summary, bind, print, modify, input, emit, set_trace.
      cbn [stdin trace config]. rewrite Hin. exact E.
    + rewrite (process_folder_eq folder s report s1 answer rest Ha Hin).
      destruct (String.eqb (PyStr.lower answer) "y"); [|exact E].
      rewrite convert_config. exact E.
  - unfold process_folder. unfold bind at 1. rewrite Ha. exact E.
Qed.

(** A file whose extension is not empty and is in the taxonomy keeps its
    category through the folders that the run still processes. *)
Lemma for_each_process_folder_stable folders p : forall s,
  classify_ext p <> EmptyString ->
  classify (config s) p <> Unknown ->
  classify (config (snd (for_each folders process_folder s))) p = classify (config s) p.
Proof.
  induction folders as [|f rest IH]; intros s Hne Hk; [reflexivity|].
  cbn [for_each]. unfold bind.
  pose proof (process_folder_stable f s p Hne Hk) as E.
  destruct (process_folder f s) as [[[]|e] s1]; cbn [snd] in *; [|assumption].
  rewrite IH; [assumption | assumption | congruence].
Qed.

(** So an extension learned from a name with a non-empty compound suffix
    is answered for once in a run: whatever folders come next, a file with
    that extension has the chosen category. *)
Lemma learned_extension_lasts item report s answer rest other folders :
  path_is_dir (fs s) item = false ->
  classify (config s) item = Unknown ->
  stdin s = answer :: rest ->
  writable s ->
  learned_ext item <> EmptyString ->
  classify_ext other = classify_ext item ->
  exists s',
    audit_item item report s
    = (Ok (report_append report (mapping_get (PyStr.lower answer)) item), s') /\
    classify (config (snd (for_each folders process_folder s'))) other
    = mapping_get (PyStr.lower answer).
Proof.
  intros Hd Hc Hin Hw Hne Hother.
  destruct (learned_extension_kept item report s answer rest other []
              Hd Hc Hin Hw Hne Hother) as (s' & E & Hcl & _).
  exists s'. split; [exact E|].
  rewrite for_each_process_folder_stable; [exact Hcl | |].
  - rewrite Hother, (learned_is_classify_ext item Hne). exact Hne.
  - rewrite Hcl. apply mapping_get_known.
Qed.

(** The other face of the defect of C5: the empty extension that a name
    like [..sav] leaves in the taxonomy is the extension of every name
    without a dot, so the answer given for [..sav] decides, unasked, the
    category of a file such as [README]. *)
Lemma empty_extension_learned_by_accident :
  classify default_data ["roms"; "Gamma"; "README"] = Unknown /\
  classify (config ex_gamma_audited) ["roms"; "Gamma"; "README"] = Save.
Proof. split; reflexivity. Qed.

(** ** The run as a whole *)

Lemma filter_m_is_dir l s :
  filter_m is_dir l s = (Ok (filter (path_is_dir (fs s)) l), s).
Proof.
  induction l as [|x r IH]; [reflexivity|].
  cbn [filter_m filter]. unfold bind at 1. unfold is_dir at 1, gets.
  unfold bind at 1. rewrite IH. unfold ret.
  destruct (path_is_dir (fs s) x); reflexivity.
Qed.

Lemma print_folders_eq folders : forall i s,
  print_folders i folders s
  = (Ok tt, set_trace (trace s ++ listing_events i folders) s).
Proof.
  induction folders as [|f r IH]; intros i s.
  - unfold listing_events. simpl. rewrite app_nil_r. destruct s; reflexivity.
  - cbn [print_folders]. unfold bind, print, modify. rewrite IH.
    unfold listing_events. cbn [length seq combine map fst snd].
    unfold emit, set_trace. cbn [trace config store store_faults fs stdin clock logs chdman].
    rewrite <- app_assoc. reflexivity.
Qed.

(** [run] lists the sub-folders, reads the selection and parses it; a
    selection that does not parse ends the run there, before any folder is
    looked at; one that parses is followed by the loop over its folders. *)
Lemma run_eq rom_path s selection rest :
  path_is_dir (fs s) rom_path = true ->
  stdin s = selection :: rest ->
  run rom_path s
  = match parse_selection selection (subfolders (fs s) rom_path) with
    | Ok to_process =>
        for_each to_process process_folder (selecting rom_path selection rest s)
    | Raise e => (Raise e, selecting rom_path selection rest s)
    end.
Proof.
  intros Hd Hin. unfold run. unfold bind at 1. unfold iterdir.
  unfold path_is_dir in Hd.
  destruct (lookup_node (fs s) rom_path) as [nd|]; [|discriminate].
  rewrite Hd. unfold bind at 1. rewrite filter_m_is_dir.
  unfold bind at 1. unfold print, modify.
  unfold bind at 1. rewrite print_folders_eq.
  unfold bind at 1. unfold input.
  cbn [emit set_trace stdin trace config store store_faults fs clock logs chdman].
  rewrite Hin. unfold bind, lift.
  unfold emit, set_trace, set_stdin, selecting, subfolders.
  cbn [trace config store store_faults fs stdin clock logs chdman].
  rewrite <- !app_assoc. cbn [app].
  destruct (parse_selection selection _); reflexivity.
Qed.

(** The parse error is fatal: the run ends with [ValueError] as soon as the
    selection is read, no folder having been audited. *)
Lemma run_malformed_selection rom_path s parts rest :
  path_is_dir (fs s) rom_path = true ->
  stdin s = PyStr.join "," parts :: rest ->
  Forall (fun p => PyStr.contains "," p = false) parts ->
  Exists malformed parts ->
  PyStr.lower (PyStr.join "," parts) <> "all" ->
  run rom_path s = (Raise ValueError, selecting rom_path (PyStr.join "," parts) rest s).
Proof.
  intros Hd Hin Hcomma Hbad Hall.
  rewrite (run_eq rom_path s _ rest Hd Hin).
  unfold parse_selection.
  destruct (String.eqb_spec (PyStr.lower (PyStr.join "," parts)) "all") as [E|_];
    [contradiction|].
  rewrite split_join; [| intros ->; inversion Hbad | assumption].
  now rewrite (selection_indices_malformed parts [] Hbad).
Qed.

(** ** The theorems on the example collection *)

Lemma parse_selection_spec_witness :
  token_ok (Index "1") = true /\ token_ok (Span "3" "5") = true /\
  parse_selection (expression_text [Index "1"; Span "3" "5"])
    [ex_rom; ex_alpha; ex_beta; ex_gamma]
  = Ok (selected [ex_rom; ex_alpha; ex_beta; ex_gamma] [Index "1"; Span "3" "5"]).
Proof.
  split; [reflexivity|]. split; [reflexivity|].
  apply (proj1 (proj2 parse_selection_spec)); [discriminate|].
  repeat constructor.
Defined.

Lemma classify_spec_witness :
  path_is_dir (fs (ex_state [] [])) ["roms"; "Alpha"; "alpha.cue"] = false /\
  known_ext (config (ex_state [] [])) (classify_ext ["roms"; "Alpha"; "alpha.cue"]) /\
  classify (config (ex_state [] [])) ["roms"; "Alpha"; "alpha.cue"] <> Unknown /\
  audit_item ["roms"; "Alpha"; "alpha.cue"] empty_report (ex_state [] [])
  = (Ok (report_append empty_report
           (classify (config (ex_state [] [])) ["roms"; "Alpha"; "alpha.cue"])
           ["roms"; "Alpha"; "alpha.cue"]),
     ex_state [] []).
Proof.
  assert (Hk : known_ext (config (ex_state [] []))
                 (classify_ext ["roms"; "Alpha"; "alpha.cue"])).
  { left. vm_compute. auto. }
  split; [reflexivity|]. split; [exact Hk|].
  apply (proj2 classify_spec); [reflexivity | exact Hk].
Defined.

Lemma audit_folder_partition_witness :
  audit_folder ex_alpha (ex_state ["i"; "y"] []) = (Ok ex_alpha_report, ex_alpha_audited) /\
  Permutation (report_items ex_alpha_report)
    (children (fs (ex_state ["i"; "y"] [])) ex_alpha) /\
  unknown ex_alpha_report = [] /\
  In ["roms"; "Alpha"; "extras.iso"] (ignore ex_alpha_report).
Proof.
  assert (H : audit_folder ex_alpha (ex_state ["i"; "y"] [])
              = (Ok ex_alpha_report, ex_alpha_audited)) by (vm_compute; reflexivity).
  split; [exact H|].
  destruct (proj2 (audit_folder_partition ex_alpha (ex_state ["i"; "y"] []))
              ex_alpha_report ex_alpha_audited H) as (Hp & _ & Hd & _ & Hu & _).
  split; [exact Hp|]. split; [exact Hu|].
  apply Hd; [vm_compute; auto 10 | reflexivity].
Defined.

Lemma convert_effects_in_order_witness :
  hd_error (masters ex_alpha_report) = Some ["roms"; "Alpha"; "alpha.cue"] /\
  exists deleted kept outcome s',
    convert ex_alpha ex_alpha_report ex_alpha_audited = (outcome, s') /\
    game ex_alpha_report = deleted ++ kept /\
    trace s' =
      trace ex_alpha_audited ++
      [Printed (MsgExecuting "alpha.cue");
       Converted ["roms"; "Alpha"; "alpha.cue"] ["roms"; "Alpha"; "alpha.chd"]
         (ex_chdman ["roms"; "Alpha"; "alpha.cue"] ["roms"; "Alpha"; "alpha.chd"]);
       Logged (log_day_of ex_alpha_audited)
         (log_record ex_alpha
            (ex_chdman ["roms"; "Alpha"; "alpha.cue"] ["roms"; "Alpha"; "alpha.chd"])
            ex_alpha_audited);
       Printed MsgSuccess] ++ map Unlinked deleted.
Proof.
  assert (H : hd_error (masters ex_alpha_report) = Some ["roms"; "Alpha"; "alpha.cue"])
    by reflexivity.
  split; [exact H|].
  destruct (convert_effects_in_order ex_alpha ex_alpha_report ex_alpha_audited
              ["roms"; "Alpha"; "alpha.cue"] H)
    as (output & deleted & kept & outcome & s' & Ho & E & Hg & Ht & _).
  vm_compute in Ho. injection Ho as <-.
  exists deleted, kept, outcome, s'.
  split; [exact E|]. split; [exact Hg|]. exact Ht.
Defined.

(** C2, on a converter that fails with its message on
    the error stream.  [convert] captures both streams of the converter
    and appends a record to the log, but the text of the record is the
    standard output alone: here it is empty, the message that tells why
    the conversion failed is in no log, and the operator is sent to that
    log.  The sources stay on disk. *)
Theorem failure_output_not_logged :
  masters ex_gamma_report = [["roms"; "Gamma"; "gamma.iso"]] /\
  returncode (chdman ex_gamma_audited ["roms"; "Gamma"; "gamma.iso"]
                ["roms"; "Gamma"; "gamma.chd"]) = 1%Z /\
  stdout (chdman ex_gamma_audited ["roms"; "Gamma"; "gamma.iso"]
            ["roms"; "Gamma"; "gamma.chd"]) = EmptyString /\
  stderr (chdman ex_gamma_audited ["roms"; "Gamma"; "gamma.iso"]
            ["roms"; "Gamma"; "gamma.chd"]) = "Error: unable to open the input" /\
  fst (convert ex_gamma ex_gamma_report ex_gamma_audited) = Ok tt /\
  fs (snd (convert ex_gamma ex_gamma_report ex_gamma_audited)) = fs ex_gamma_audited /\
  logs ex_gamma_audited = [] /\
  logs (snd (convert ex_gamma ex_gamma_report ex_gamma_audited))
  = [(log_day_of ex_gamma_audited, mkLogRecord 1700000002 "Gamma" EmptyString)] /\
  trace (snd (convert ex_gamma ex_gamma_report ex_gamma_audited))
  = trace ex_gamma_audited ++
    [Printed (MsgExecuting "gamma.iso");
     Converted ["roms"; "Gamma"; "gamma.iso"] ["roms"; "Gamma"; "gamma.chd"]
       (mkCompleted 1 EmptyString "Error: unable to open the input" 2 false);
     Logged (log_day_of ex_gamma_audited) (mkLogRecord 1700000002 "Gamma" EmptyString);
     Printed (MsgFailure (log_day_of ex_gamma_audited))].
Proof. vm_compute. repeat split; reflexivity. Qed.

Lemma convert_entry_point_witness :
  Exists entry_point (game ex_alpha_report) /\
  exists before master after stem outcome s' events,
    game ex_alpha_report = before ++ master :: after /\
    Forall (fun f => ~ entry_point f) before /\ entry_point master /\
    Pathlib.name master = (stem ++ Pathlib.suffix master)%string /\
    convert ex_alpha ex_alpha_report ex_alpha_audited = (outcome, s') /\
    trace s' = trace ex_alpha_audited ++ events /\
    filter is_conversion events
    = [Converted master (Pathlib.parent master ++ [(stem ++ ".chd")%string])
         (chdman ex_alpha_audited master
            (Pathlib.parent master ++ [(stem ++ ".chd")%string]))].
Proof.
  assert (H : Exists entry_point (game ex_alpha_report)).
  { apply Exists_cons_tl, Exists_cons_hd. vm_compute. auto. }
  split; [exact H|].
  destruct (convert_entry_point ex_alpha ex_alpha_report ex_alpha_audited H)
    as (before & master & after & stem & outcome & s' & events &
        Hg & Hb & Hm & Hs & E & Ht & Hc & _).
  exists before, master, after, stem, outcome, s', events. auto 10.
Defined.

Lemma convert_no_entry_point_witness :
  Forall (fun f => ~ entry_point f) (game ex_beta_report) /\
  convert ex_beta ex_beta_report ex_beta_audited
  = (Ok tt, emit (Printed MsgNoEntryPoint) ex_beta_audited).
Proof.
  assert (H : Forall (fun f => ~ entry_point f) (game ex_beta_report)).
  { repeat constructor. intros Hep. vm_compute in Hep.
    intuition discriminate. }
  split; [exact H|].
  exact (proj1 (convert_no_entry_point ex_beta ex_beta_report ex_beta_audited H)).
Defined.

Lemma save_failure_propagates_witness :
  path_is_dir (fs (ex_state ["i"; "y"] [Some OpenFails])) ex_alpha = true /\
  children (fs (ex_state ["i"; "y"] [Some OpenFails])) ex_alpha
  = [["roms"; "Alpha"; "alpha.bin"]; ["roms"; "Alpha"; "alpha.cue"];
     ["roms"; "Alpha"; "alpha.srm"]] ++
    ["roms"; "Alpha"; "notes.nfo"] :: [["roms"; "Alpha"; "extras.iso"]] /\
  fst (for_each [ex_alpha; ex_beta] process_folder (ex_state ["i"; "y"] [Some OpenFails]))
  = Raise OSError.
Proof.
  assert (H1 : path_is_dir (fs (ex_state ["i"; "y"] [Some OpenFails])) ex_alpha = true)
    by reflexivity.
  assert (H2 : children (fs (ex_state ["i"; "y"] [Some OpenFails])) ex_alpha
               = [["roms"; "Alpha"; "alpha.bin"]; ["roms"; "Alpha"; "alpha.cue"];
                  ["roms"; "Alpha"; "alpha.srm"]] ++
                 ["roms"; "Alpha"; "notes.nfo"] :: [["roms"; "Alpha"; "extras.iso"]])
    by reflexivity.
  split; [exact H1|]. split; [exact H2|].
  assert (H3 : fold_m audit_item
                 [["roms"; "Alpha"; "alpha.bin"]; ["roms"; "Alpha"; "alpha.cue"];
                  ["roms"; "Alpha"; "alpha.srm"]]
                 empty_report (ex_state ["i"; "y"] [Some OpenFails])
               = (Ok (mkReport
                        [["roms"; "Alpha"; "alpha.bin"]; ["roms"; "Alpha"; "alpha.cue"]]
                        [["roms"; "Alpha"; "alpha.srm"]] [] []),
                  ex_state ["i"; "y"] [Some OpenFails])) by reflexivity.
  destruct (save_failure_propagates ex_alpha [ex_beta] (ex_state ["i"; "y"] [Some OpenFails])
              _ ["roms"; "Alpha"; "notes.nfo"] _ _ (ex_state ["i"; "y"] [Some OpenFails])
              "i" ["y"] OpenFails [] H1 H2 H3 eq_refl eq_refl eq_refl eq_refl)
    as (t' & s' & _ & _ & E & _).
  rewrite E. reflexivity.
Defined.

(** C9, as the specification has it, fails on the example collection: with
    a [config.toml] that cannot be written, the session that would have
    converted Alpha ends with [OSError] at the first learned extension.  No
    folder is converted and no confirmation is asked; the answers typed
    for them stay unread. *)
Lemma save_failure_ends_run :
  fst (run ex_rom (ex_state ["all"; "i"; "y"; "y"; "s"; "y"]
                     [Some OpenFails])) = Raise OSError /\
  filter is_conversion
    (trace (snd (run ex_rom (ex_state ["all"; "i"; "y"; "y"; "s"; "y"]
                     [Some OpenFails])))) = [] /\
  stdin (snd (run ex_rom (ex_state ["all"; "i"; "y"; "y"; "s"; "y"]
                     [Some OpenFails])))
  = ["y"; "y"; "s"; "y"] /\
  fst (run ex_rom (ex_state ["all"; "i"; "y"; "y"; "s"; "y"] [])) = Ok tt /\
  length (filter is_conversion
            (trace (snd (run ex_rom (ex_state ["all"; "i"; "y"; "y"; "s"; "y"] [])))))
  = 2.
Proof. vm_compute. repeat split; reflexivity. Qed.

(** * Further properties of the code *)

(** ** More on the selection *)

Lemma selection_indices_raises parts : forall acc e,
  selection_indices parts acc = Raise e -> e = ValueError.
Proof.
  induction parts as [|p r IH]; intros acc e; cbn [selection_indices]; [discriminate|].
  destruct (selection_part p) as [new|e'] eqn:E; simpl.
  - apply IH.
  - intros H. injection H as <-. now apply (selection_part_raises p).
Qed.

(** What [parse_selection] does on anything but the literal [all]. *)
Lemma parse_selection_parts {A} (selection : string) (folders : list A) :
  PyStr.lower selection <> "all" ->
  parse_selection selection folders
  = match selection_indices (PyStr.split "," selection) [] with
    | Ok indices =>
        Ok (flat_map (fun i => match nth_error folders (Z.to_nat i) with
                               | Some f => [f]
                               | None => []
                               end) indices)
    | Raise _ => Raise ValueError
    end.
Proof.
  intros Hall. unfold parse_selection.
  destruct (String.eqb_spec (PyStr.lower selection) "all") as [E|_]; [contradiction|].
  destruct (selection_indices (PyStr.split "," selection) []) as [indices|e] eqn:E.
  - simpl. apply pick_nonneg.
    eapply selection_indices_nonneg; [|exact E]. constructor.
  - simpl. now rewrite (selection_indices_raises _ _ _ E).
Qed.

Lemma flat_map_nth_incl {A} (folders : list A) (indices : list Z) f :
  In f (flat_map (fun i => match nth_error folders (Z.to_nat i) with
                           | Some x => [x]
                           | None => []
                           end) indices) ->
  In f folders.
Proof.
  intros H. apply in_flat_map in H. destruct H as (i & _ & Hi).
  destruct (nth_error folders (Z.to_nat i)) as [x|] eqn:E; [|destruct Hi].
  destruct Hi as [<-|[]]. eapply nth_error_In; eauto.
Qed.

Lemma parse_selection_incl {A} (selection : string) (folders selected : list A) :
  parse_selection selection folders = Ok selected ->
  forall f, In f selected -> In f folders.
Proof.
  intros H f Hf.
  destruct (string_dec (PyStr.lower selection) "all") as [E|E].
  - unfold parse_selection in H. rewrite E in H. simpl in H.
    injection H as <-. assumption.
  - rewrite (parse_selection_parts selection folders E) in H.
    destruct (selection_indices _ _) as [indices|]; [|discriminate].
    injection H as <-. eapply flat_map_nth_incl; eauto.
Qed.

(** X2. [parse_selection] selects among the folders it was given: every
    folder of its result is one of them. *)
Theorem parse_selection_among_folders {A} (selection : string) (folders selected : list A) :
  parse_selection selection folders = Ok selected ->
  forall f, In f selected -> In f folders.
Proof. exact (parse_selection_incl selection folders selected). Qed.

Lemma parse_selection_among_folders_witness :
  parse_selection "1,3-5" [ex_rom; ex_alpha; ex_beta; ex_gamma] = Ok [ex_alpha; ex_gamma] /\
  In ex_gamma [ex_rom; ex_alpha; ex_beta; ex_gamma].
Proof.
  assert (H : parse_selection "1,3-5" [ex_rom; ex_alpha; ex_beta; ex_gamma]
              = Ok [ex_alpha; ex_gamma]) by reflexivity.
  split; [exact H|].
  apply (parse_selection_among_folders "1,3-5" _ _ H). simpl. auto.
Defined.

Lemma split_app sep a b :
  PyStr.split sep (a ++ String sep b)%string = PyStr.split sep a ++ PyStr.split sep b.
Proof.
  induction a as [|c r IH]; cbn [String.append PyStr.split].
  - now rewrite Ascii.eqb_refl.
  - destruct (Ascii.eqb c sep).
    + now rewrite IH.
    + rewrite IH. destruct (PyStr.split sep r) as [|h t] eqn:E;
        [now apply split_not_nil in E | reflexivity].
Qed.

Lemma selection_indices_acc parts : forall acc,
  selection_indices parts acc
  = match selection_indices parts [] with
    | Ok l => Ok (acc ++ l)
    | Raise e => Raise e
    end.
Proof.
  induction parts as [|p r IH]; intros acc; cbn [selection_indices].
  - now rewrite app_nil_r.
  - destruct (selection_part p) as [new|e]; simpl; [|reflexivity].
    rewrite (IH (acc ++ new)), (IH new).
    destruct (selection_indices r []); [|reflexivity].
    now rewrite app_assoc.
Qed.

Lemma selection_indices_app p1 p2 :
  selection_indices (p1 ++ p2) []
  = match selection_indices p1 [], selection_indices p2 [] with
    | Ok l1, Ok l2 => Ok (l1 ++ l2)
    | _, _ => Raise ValueError
    end.
Proof.
  induction p1 as [|p r IH]; cbn [app selection_indices].
  - destruct (selection_indices p2 []) as [l|e] eqn:E; [reflexivity|].
    now rewrite (selection_indices_raises _ _ _ E).
  - destruct (selection_part p) as [new|e] eqn:Ep; simpl.
    + rewrite (selection_indices_acc (r ++ p2) new), (selection_indices_acc r new), IH.
      destruct (selection_indices r []); [|reflexivity].
      destruct (selection_indices p2 []); [|reflexivity].
      now rewrite app_assoc.
    + now rewrite (selection_part_raises p e Ep).
Qed.

Lemma lower_char_comma c : c = ","%char -> PyStr.lower_char c = ","%char.
Proof. intros ->. reflexivity. Qed.

Lemma contains_lower_comma s :
  PyStr.contains "," s = true -> PyStr.contains "," (PyStr.lower s) = true.
Proof.
  induction s as [|c r IH]; simpl; [auto|].
  intros H. apply orb_true_iff in H. destruct H as [H|H].
  - apply Ascii.eqb_eq in H. subst c. reflexivity.
  - rewrite (IH H). apply orb_true_r.
Qed.

Lemma comma_not_all s : PyStr.contains "," s = true -> PyStr.lower s <> "all".
Proof.
  intros H E. apply contains_lower_comma in H. rewrite E in H. discriminate.
Qed.

(** X3. Joining two selections with a comma joins their results: when
    neither is the word [all], the selection [s1,s2] gives the folders of
    [s1] followed by those of [s2], and it is refused when one of the two
    is. *)
Theorem parse_selection_concat {A} (s1 s2 : string) (folders : list A) :
  PyStr.lower s1 <> "all" ->
  PyStr.lower s2 <> "all" ->
  parse_selection (s1 ++ "," ++ s2) folders
  = match parse_selection s1 folders, parse_selection s2 folders with
    | Ok l1, Ok l2 => Ok (l1 ++ l2)
    | _, _ => Raise ValueError
    end.
Proof.
  intros H1 H2.
  assert (H : PyStr.lower (s1 ++ "," ++ s2) <> "all").
  { apply comma_not_all. rewrite contains_app. simpl. apply orb_true_r. }
  rewrite (parse_selection_parts _ folders H), (parse_selection_parts _ folders H1),
    (parse_selection_parts _ folders H2).
  change (s1 ++ "," ++ s2)%string with (s1 ++ String "," s2)%string.
  rewrite split_app, selection_indices_app.
  destruct (selection_indices (PyStr.split "," s1) []); [|reflexivity].
  destruct (selection_indices (PyStr.split "," s2) []); [|reflexivity].
  now rewrite flat_map_app.
Qed.

Lemma parse_selection_concat_witness :
  PyStr.lower "4,0" <> "all" /\ PyStr.lower "1-2" <> "all" /\
  parse_selection "4,0,1-2" [ex_rom; ex_alpha; ex_beta; ex_gamma]
  = Ok ([ex_rom] ++ [ex_alpha; ex_beta]).
Proof.
  assert (H1 : PyStr.lower "4,0" <> "all") by (simpl; discriminate).
  assert (H2 : PyStr.lower "1-2" <> "all") by (simpl; discriminate).
  split; [exact H1|]. split; [exact H2|].
  exact (parse_selection_concat "4,0" "1-2" [ex_rom; ex_alpha; ex_beta; ex_gamma] H1 H2).
Defined.

Lemma lower_char_is_l c :
  PyStr.lower_char c = "l"%char -> c = "l"%char \/ c = "L"%char.
Proof.
  bits c; intros H; vm_compute in H; try discriminate H; auto.
Qed.

(** A text that reads [all] in lower case is no index and no range. *)
Lemma all_is_malformed a : PyStr.lower a = "all" -> malformed a.
Proof.
  intros H. apply malformed_iff.
  destruct a as [|c1 [|c2 [|c3 [|c4 r]]]]; try discriminate H.
  simpl in H. injection H as H1 H2 H3.
  apply lower_char_is_a in H1. apply lower_char_is_l in H2, H3.
  destruct H1 as [-> | ->], H2 as [-> | ->], H3 as [-> | ->]; reflexivity.
Qed.

Lemma all_has_no_comma a : PyStr.lower a = "all" -> PyStr.contains "," a = false.
Proof.
  intros H. destruct (PyStr.contains "," a) eqn:E; [|reflexivity].
  now apply comma_not_all in E.
Qed.

(** X4. The word [all] is understood on its own only: as one part of a
    comma-separated list, first or last, it makes [parse_selection] raise
    [ValueError]. *)
Theorem parse_selection_all_in_a_list {A} (a b : string) (folders : list A) :
  PyStr.lower a = "all" ->
  parse_selection (a ++ "," ++ b) folders = Raise ValueError /\
  parse_selection (b ++ "," ++ a) folders = Raise ValueError.
Proof.
  intros Ha.
  pose proof (all_is_malformed a Ha) as Hbad.
  pose proof (all_has_no_comma a Ha) as Hcomma.
  split.
  - rewrite parse_selection_parts
      by (apply comma_not_all; rewrite contains_app; simpl; apply orb_true_r).
    change (a ++ "," ++ b)%string with (a ++ String "," b)%string.
    rewrite split_app, (split_without "," a Hcomma).
    rewrite selection_indices_malformed; [reflexivity|].
    now apply Exists_cons_hd.
  - rewrite parse_selection_parts
      by (apply comma_not_all; rewrite contains_app; simpl; apply orb_true_r).
    change (b ++ "," ++ a)%string with (b ++ String "," a)%string.
    rewrite split_app, (split_without "," a Hcomma).
    rewrite selection_indices_malformed; [reflexivity|].
    apply Exists_app. right. now apply Exists_cons_hd.
Qed.

Lemma parse_selection_all_in_a_list_witness :
  PyStr.lower "All" = "all" /\
  parse_selection "All,1" [ex_rom; ex_alpha] = Raise ValueError /\
  parse_selection "1,All" [ex_rom; ex_alpha] = Raise ValueError.
Proof.
  assert (H : PyStr.lower "All" = "all") by reflexivity.
  split; [exact H|].
  exact (parse_selection_all_in_a_list "All" "1" [ex_rom; ex_alpha] H).
Defined.

(** A range of indices is a slice of the list. *)
Lemma at_index_skipn {A} (folders : list A) (a k : nat) :
  nth_error folders (a + k) = nth_error (skipn a folders) k.
Proof.
  revert folders. induction a as [|a IH]; intros folders; [reflexivity|].
  destruct folders as [|x l]; simpl.
  - now destruct k.
  - apply IH.
Qed.

Lemma flat_map_seq_firstn {A} (l : list A) : forall n,
  flat_map (fun k => match nth_error l k with
                     | Some f => [f]
                     | None => []
                     end) (seq 0 n)
  = firstn n l.
Proof.
  induction l as [|x r IH]; intros n.
  - rewrite firstn_nil. induction n as [|n IHn]; [reflexivity|].
    rewrite seq_S, flat_map_app, IHn. simpl. now destruct n.
  - destruct n as [|n]; [reflexivity|].
    cbn [seq flat_map nth_error firstn app]. f_equal.
    rewrite <- seq_shift, flat_map_concat_map, map_map, <- flat_map_concat_map.
    apply IH.
Qed.

Lemma inclusive_slice {A} (folders : list A) (a b : N) :
  flat_map (at_index folders) (inclusive a b)
  = firstn (N.to_nat (b + 1 - a)) (skipn (N.to_nat a) folders).
Proof.
  unfold inclusive.
  rewrite <- (flat_map_seq_firstn (skipn (N.to_nat a) folders)).
  rewrite flat_map_concat_map, map_map, <- flat_map_concat_map.
  apply flat_map_ext. intros k. unfold at_index.
  replace (N.to_nat (a + N.of_nat k)) with (N.to_nat a + k) by lia.
  now rewrite at_index_skipn.
Qed.

(** X5. A range [a-b] selects the slice of the listing from position [a]
    to position [b], both included, cut at the end of the list; it selects
    nothing when [b < a] or when [a] is beyond the list. *)
Theorem parse_selection_range_slice {A} (a b : string) (folders : list A) :
  is_index a = true ->
  is_index b = true ->
  parse_selection (a ++ "-" ++ b) folders
  = Ok (firstn (N.to_nat (decimal b + 1 - decimal a))
          (skipn (N.to_nat (decimal a)) folders)).
Proof.
  intros Ha Hb.
  assert (Hok : token_ok (Span a b) = true) by (simpl; now rewrite Ha, Hb).
  pose proof (token_text_no_comma (Span a b) Hok) as Hcomma.
  pose proof (expression_not_all [Span a b]) as Hall.
  unfold expression_text in Hall. cbn [map PyStr.join token_text] in Hall, Hcomma.
  unfold parse_selection.
  destruct (String.eqb_spec (PyStr.lower (a ++ "-" ++ b)) "all") as [E|_].
  - exfalso. apply Hall; [discriminate | repeat constructor; exact Hok | exact E].
  - rewrite (split_without "," _ Hcomma). cbn [selection_indices].
    pose proof (selection_part_token (Span a b) Hok) as Hp.
    cbn [token_text token_indices] in Hp. rewrite Hp. cbn [rbind app].
    rewrite pick_indices. f_equal. apply inclusive_slice.
Qed.

Lemma parse_selection_range_slice_witness :
  is_index "1" = true /\ is_index "2" = true /\
  parse_selection "1-2" [ex_rom; ex_alpha; ex_beta; ex_gamma] = Ok [ex_alpha; ex_beta].
Proof.
  split; [reflexivity|]. split; [reflexivity|].
  exact (parse_selection_range_slice "1" "2" [ex_rom; ex_alpha; ex_beta; ex_gamma]
           eq_refl eq_refl).
Defined.

(** The numbers of the listing. *)
Lemma listing_events_nth folders : forall i k f,
  nth_error folders k = Some f ->
  nth_error (listing_events i folders) k
  = Some (Printed (MsgFolder (i + k) (Pathlib.name f))).
Proof.
  unfold listing_events.
  induction folders as [|x r IH]; intros i k f H; [now destruct k|].
  destruct k as [|k]; cbn [length seq combine map nth_error fst snd] in *.
  - injection H as ->. now rewrite Nat.add_0_r.
  - rewrite (IH (S i) k f H). do 3 f_equal. lia.
Qed.

(** X6. The number that the listing prints before a folder is the number
    that selects it: when [f] is the folder at position [d], [print_folders]
    prints [d] with the name of [f] at that position, and the selection
    [d] gives [f] alone. *)
Theorem listed_number_selects (folders : list Path) (d : string) (f : Path) (s : State) :
  is_index d = true ->
  nth_error folders (N.to_nat (decimal d)) = Some f ->
  exists shown,
    print_folders 0 folders s = (Ok tt, set_trace (trace s ++ shown) s) /\
    nth_error shown (N.to_nat (decimal d))
    = Some (Printed (MsgFolder (N.to_nat (decimal d)) (Pathlib.name f))) /\
    parse_selection d folders = Ok [f].
Proof.
  intros Hd Hf. exists (listing_events 0 folders).
  split; [apply print_folders_eq|].
  split; [exact (listing_events_nth folders 0 _ f Hf)|].
  assert (Hok : token_ok (Index d) = true) by exact Hd.
  pose proof (token_text_no_comma (Index d) Hok) as Hcomma.
  pose proof (expression_not_all [Index d]) as Hall.
  unfold expression_text in Hall. cbn [map PyStr.join token_text] in Hall, Hcomma.
  unfold parse_selection.
  destruct (String.eqb_spec (PyStr.lower d) "all") as [E|_].
  - exfalso. apply Hall; [discriminate | repeat constructor; exact Hok | exact E].
  - rewrite (split_without "," _ Hcomma). cbn [selection_indices].
    pose proof (selection_part_token (Index d) Hok) as Hp.
    cbn [token_text token_indices] in Hp. rewrite Hp. cbn [rbind app].
    rewrite pick_indices. cbn [flat_map]. unfold at_index. now rewrite Hf.
Qed.

Lemma listed_number_selects_witness :
  is_index "2" = true /\
  nth_error [ex_alpha; ex_beta; ex_gamma] (N.to_nat (decimal "2")) = Some ex_gamma /\
  parse_selection "2" [ex_alpha; ex_beta; ex_gamma] = Ok [ex_gamma].
Proof.
  split; [reflexivity|]. split; [reflexivity|].
  destruct (listed_number_selects [ex_alpha; ex_beta; ex_gamma] "2" ex_gamma
              (ex_state [] []) eq_refl eq_refl) as (shown & _ & _ & H).
  exact H.
Defined.

(** ** The order of the listing *)

Lemma sorted_acc l : forall acc,
  Permutation (fold_left (fun a p => insert_sorted p a) l acc) (l ++ acc).
Proof.
  assert (Hins : forall p a, Permutation (insert_sorted p a) (p :: a)).
  { intros p a. induction a as [|q r IH]; cbn [insert_sorted]; [reflexivity|].
    destruct (Pathlib.ltb p q); [reflexivity|].
    rewrite IH. apply perm_swap. }
  induction l as [|x r IH]; intros acc; cbn [fold_left app]; [reflexivity|].
  rewrite IH, Hins. symmetry. apply Permutation_middle.
Qed.

Lemma sorted_permutation l : Permutation (sorted l) l.
Proof. unfold sorted. rewrite sorted_acc. now rewrite app_nil_r. Qed.

Lemma ascii_compare_lt_trans a b c :
  Ascii.compare a b = Lt -> Ascii.compare b c = Lt -> Ascii.compare a c = Lt.
Proof.
  unfold Ascii.compare. rewrite !N.compare_lt_iff. lia.
Qed.

Lemma string_compare_lt_trans a : forall b c,
  String.compare a b = Lt -> String.compare b c = Lt -> String.compare a c = Lt.
Proof.
  induction a as [|x a' IH]; intros [|y b'] [|z c']; cbn [String.compare];
    try congruence.
  destruct (Ascii.compare x y) eqn:Exy; try discriminate;
    destruct (Ascii.compare y z) eqn:Eyz; try discriminate; intros H1 H2.
  - apply Ascii.compare_eq_iff in Exy, Eyz. subst.
    replace (Ascii.compare z z) with Eq
      by (symmetry; unfold Ascii.compare; apply N.compare_refl).
    now apply (IH b' c').
  - apply Ascii.compare_eq_iff in Exy. subst. now rewrite Eyz.
  - apply Ascii.compare_eq_iff in Eyz. subst. now rewrite Exy.
  - now rewrite (ascii_compare_lt_trans x y z Exy Eyz).
Qed.

Lemma string_compare_refl a : String.compare a a = Eq.
Proof.
  induction a as [|x r IH]; cbn [String.compare]; [reflexivity|].
  replace (Ascii.compare x x) with Eq
    by (symmetry; unfold Ascii.compare; apply N.compare_refl).
  exact IH.
Qed.

Lemma compare_antisym p : forall q,
  Pathlib.compare q p = CompOpp (Pathlib.compare p q).
Proof.
  induction p as [|a p' IH]; intros [|b q']; cbn [Pathlib.compare]; try reflexivity.
  rewrite (String.compare_antisym a b).
  destruct (String.compare b a); cbn [CompOpp]; [apply IH | reflexivity | reflexivity].
Qed.

(** Before, then not after: before. *)
Lemma compare_lt_le p : forall q r,
  Pathlib.compare p q = Lt -> path_le q r -> Pathlib.compare p r = Lt.
Proof.
  unfold path_le.
  induction p as [|a p' IH]; intros [|b q'] [|c r']; cbn [Pathlib.compare];
    try congruence.
  destruct (String.compare a b) eqn:Eab; try discriminate;
    destruct (String.compare b c) eqn:Ebc; try congruence; intros H1 H2.
  - apply String.compare_eq_iff in Eab, Ebc. subst.
    rewrite string_compare_refl. now apply (IH q' r').
  - apply String.compare_eq_iff in Eab. subst. now rewrite Ebc.
  - apply String.compare_eq_iff in Ebc. subst. now rewrite Eab.
  - now rewrite (string_compare_lt_trans a b c Eab Ebc).
Qed.

Lemma insert_sorted_In p l x : In x (insert_sorted p l) <-> x = p \/ In x l.
Proof.
  induction l as [|q r IH]; cbn [insert_sorted In]; [intuition|].
  destruct (Pathlib.ltb p q); cbn [In]; [intuition|]. rewrite IH. intuition.
Qed.

Lemma insert_sorted_ascending p l :
  StronglySorted path_le l -> StronglySorted path_le (insert_sorted p l).
Proof.
  induction l as [|q r IH]; intros H; cbn [insert_sorted].
  - constructor; [constructor | constructor].
  - apply StronglySorted_inv in H. destruct H as [Hr Hq].
    unfold Pathlib.ltb. destruct (Pathlib.compare p q) eqn:E.
    + constructor; [now apply IH|].
      apply Forall_forall. intros x Hx. apply insert_sorted_In in Hx.
      destruct Hx as [->|Hx]; [|exact (proj1 (Forall_forall _ _) Hq x Hx)].
      unfold path_le. rewrite (compare_antisym p q), E. discriminate.
    + constructor; [now constructor|].
      constructor; [unfold path_le; congruence|].
      apply Forall_forall. intros x Hx.
      pose proof (proj1 (Forall_forall _ _) Hq x Hx) as Hqx.
      unfold path_le. rewrite (compare_lt_le p q x E Hqx). discriminate.
    + constructor; [now apply IH|].
      apply Forall_forall. intros x Hx. apply insert_sorted_In in Hx.
      destruct Hx as [->|Hx]; [|exact (proj1 (Forall_forall _ _) Hq x Hx)].
      unfold path_le. rewrite (compare_antisym p q), E. discriminate.
Qed.

Lemma sorted_ascending l : StronglySorted path_le (sorted l).
Proof.
  unfold sorted.
  assert (H : forall acc, StronglySorted path_le acc ->
                StronglySorted path_le (fold_left (fun a p => insert_sorted p a) l acc)).
  { induction l as [|x r IH]; intros acc Hacc; cbn [fold_left]; [exact Hacc|].
    apply IH. now apply insert_sorted_ascending. }
  apply H. constructor.
Qed.

(** X7. When the collection is a directory and the operator gives a
    selection, [run] lists the directories that are directly in the
    collection, each as often as the disk has it and no file, in ascending
    order of path; it prints the heading, the numbered list and the
    prompt, and then parses the selection against that very list. *)
Theorem run_lists_the_directories_in_order rom_path s selection rest :
  path_is_dir (fs s) rom_path = true ->
  stdin s = selection :: rest ->
  exists folders s1,
    Permutation folders
      (filter (path_is_dir (fs s)) (children (fs s) rom_path)) /\
    StronglySorted path_le folders /\
    trace s1 = trace s ++ Printed (MsgWorkshop rom_path)
                 :: listing_events 0 folders
                 ++ [Asked AskSelection (Some selection)] /\
    run rom_path s
    = match parse_selection selection folders with
      | Ok to_process => for_each to_process process_folder s1
      | Raise e => (Raise e, s1)
      end.
Proof.
  intros Hd Hin.
  exists (subfolders (fs s) rom_path), (selecting rom_path selection rest s).
  split; [apply sorted_permutation|].
  split; [apply sorted_ascending|].
  split; [reflexivity|].
  exact (run_eq rom_path s selection rest Hd Hin).
Qed.

Lemma run_lists_the_directories_in_order_witness :
  path_is_dir (fs (ex_state ["7"] [])) ex_rom = true /\
  exists folders s1,
    Permutation folders [ex_gamma; ex_alpha; ex_beta] /\
    StronglySorted path_le folders /\
    run ex_rom (ex_state ["7"] [])
    = match parse_selection "7" folders with
      | Ok to_process => for_each to_process process_folder s1
      | Raise e => (Raise e, s1)
      end.
Proof.
  assert (H : path_is_dir (fs (ex_state ["7"] [])) ex_rom = true) by reflexivity.
  split; [exact H|].
  destruct (run_lists_the_directories_in_order ex_rom (ex_state ["7"] []) "7" [] H)
    as (folders & s1 & Hperm & Hsorted & _ & Hrun); [reflexivity|].
  exists folders, s1. auto.
Defined.

(** ** What a computation leaves alone *)

Section Frames.

Context {X : Type} (field : State -> X).

Lemma unchanged_ret {A} (a : A) : unchanged field (ret a).
Proof. intros s. reflexivity. Qed.

Lemma unchanged_lift {A} (r : result A) : unchanged field (lift r).
Proof. intros s. reflexivity. Qed.

Lemma unchanged_gets {A} (f : State -> A) : unchanged field (gets f).
Proof. intros s. reflexivity. Qed.

Lemma unchanged_bind {A B} (m : M A) (k : A -> M B) :
  unchanged field m -> (forall a, unchanged field (k a)) ->
  unchanged field (bind m k).
Proof.
  intros Hm Hk s. unfold bind. specialize (Hm s).
  destruct (m s) as [[a|e] s1]; cbn [snd] in *; [|assumption].
  now rewrite Hk.
Qed.

Lemma unchanged_for_each {A} (body : A -> M unit) (l : list A) :
  (forall x, In x l -> unchanged field (body x)) -> unchanged field (for_each l body).
Proof.
  induction l as [|x r IH]; intros H; cbn [for_each]; [apply unchanged_ret|].
  apply unchanged_bind; [apply H; now left|].
  intros _. apply IH. intros y Hy. apply H. now right.
Qed.

Lemma unchanged_fold_m {A B} (body : A -> B -> M B) (l : list A) :
  (forall x acc, unchanged field (body x acc)) ->
  forall acc, unchanged field (fold_m body l acc).
Proof.
  intros H. induction l as [|x r IH]; intros acc; cbn [fold_m]; [apply unchanged_ret|].
  apply unchanged_bind; [apply H | apply IH].
Qed.

End Frames.

Section Invariants.

Variable I : State -> Prop.

Lemma always_ret {A} (a : A) : always I (ret a).
Proof. intros s H. exact H. Qed.

Lemma always_bind {A B} (m : M A) (k : A -> M B) :
  always I m -> (forall a, always I (k a)) -> always I (bind m k).
Proof.
  intros Hm Hk s Hs. unfold bind. specialize (Hm s Hs).
  destruct (m s) as [[a|e] s1]; cbn [snd] in *; [|assumption].
  now apply Hk.
Qed.

Lemma always_for_each {A} (body : A -> M unit) (l : list A) :
  (forall x, In x l -> always I (body x)) -> always I (for_each l body).
Proof.
  induction l as [|x r IH]; intros H; cbn [for_each]; [apply always_ret|].
  apply always_bind; [apply H; now left|].
  intros _. apply IH. intros y Hy. apply H. now right.
Qed.

Lemma always_fold_m {A B} (body : A -> B -> M B) (l : list A) :
  (forall x acc, always I (body x acc)) ->
  forall acc, always I (fold_m body l acc).
Proof.
  intros H. induction l as [|x r IH]; intros acc; cbn [fold_m]; [apply always_ret|].
  apply always_bind; [apply H | apply IH].
Qed.

Lemma on_return_bind {A B} (m : M A) (k : A -> M B) :
  on_return I m -> (forall a, on_return I (k a)) -> on_return I (bind m k).
Proof.
  intros Hm Hk s b s' Hs H. unfold bind in H.
  destruct (m s) as [[a|e] s1] eqn:E; [|discriminate].
  exact (Hk a s1 b s' (Hm s a s1 Hs E) H).
Qed.

Lemma on_return_for_each {A} (body : A -> M unit) (l : list A) :
  (forall x, on_return I (body x)) -> on_return I (for_each l body).
Proof.
  intros H. induction l as [|x r IH]; cbn [for_each].
  - intros s a s' Hs E. injection E as _ <-. exact Hs.
  - apply on_return_bind; [apply H | intros _; exact IH].
Qed.

Lemma always_on_return {A} (m : M A) : always I m -> on_return I m.
Proof. intros H s a s' Hs E. specialize (H s Hs). now rewrite E in H. Qed.

End Invariants.

Lemma unchanged_always {A X} (field : State -> X) (P : X -> Prop) (m : M A) :
  unchanged field m -> always (fun s => P (field s)) m.
Proof. intros H s Hs. now rewrite H. Qed.

(** The steps that only talk, read the clock or look at the disk. *)
Ltac one_step :=
  intros ?s;
  unfold print, input, is_dir, iterdir, date_today, datetime_now, load_config,
    save_config, log_append, subprocess_run, unlink, modify, gets, emit;
  repeat match goal with
         | |- context [match ?x with _ => _ end] => destruct x
         end;
  reflexivity.

Ltac frames :=
  repeat first
    [ apply unchanged_ret | apply unchanged_lift | apply unchanged_gets
    | apply unchanged_bind; [|intros ?]
    | apply unchanged_fold_m; intros ? ?
    | match goal with
      | |- unchanged _ (if ?b then _ else _) => destruct b
      | |- unchanged _ (match ?x with _ => _ end) => destruct x
      end ].

Lemma audit_item_unchanged_disk item acc :
  unchanged fs (audit_item item acc) /\
  unchanged logs (audit_item item acc) /\
  unchanged clock (audit_item item acc).
Proof. repeat split; unfold audit_item; frames; one_step. Qed.

Lemma audit_folder_unchanged_disk folder :
  unchanged fs (audit_folder folder) /\
  unchanged logs (audit_folder folder) /\
  unchanged clock (audit_folder folder).
Proof.
  repeat split; unfold audit_folder;
    (apply unchanged_bind; [one_step|]); intros items;
    apply unchanged_fold_m; intros; apply audit_item_unchanged_disk.
Qed.

(** ** The audit: what it leaves alone, what it adds *)

(** The events so far are those of [before] followed by dialogue only. *)
Lemma dialogue_step {A} (before : list Event) (m : M A) :
  (forall s, trace (snd (m s)) = trace s \/
             exists e, is_dialogue e = true /\ trace (snd (m s)) = trace s ++ [e]) ->
  always (fun s => exists events, trace s = before ++ events /\
                                  forallb is_dialogue events = true) m.
Proof.
  intros H s (events & Ht & Hd). destruct (H s) as [E|(e & He & E)]; rewrite E.
  - eauto.
  - exists (events ++ [e]). rewrite Ht, app_assoc. split; [reflexivity|].
    rewrite forallb_app, Hd. simpl. now rewrite He.
Qed.

Ltac talk :=
  apply dialogue_step; intros ?s;
  unfold print, input, is_dir, iterdir, save_config, modify, gets, lift, ret, emit;
  repeat match goal with
         | |- context [match ?x with _ => _ end] => destruct x
         end;
  cbn [snd trace set_trace set_stdin set_store set_store_faults set_config];
  first [ now left | right; eexists; split; [|reflexivity]; reflexivity ].

Lemma audit_item_dialogue before item acc :
  always (fun s => exists events, trace s = before ++ events /\
                                  forallb is_dialogue events = true)
         (audit_item item acc).
Proof.
  unfold audit_item.
  apply always_bind; [talk|]. intros d. destruct d; [talk|].
  apply always_bind; [talk|]. intros t.
  destruct (classify t item); try talk.
  apply always_bind; [talk|]. intros _.
  apply always_bind; [talk|]. intros answer.
  apply always_bind; [talk|]. intros t1.
  apply always_bind; [talk|]. intros t'.
  apply always_bind; [talk|]. intros _.
  apply always_bind; [talk|]. intros _. talk.
Qed.

(** X9. [audit_folder] reads the disk and never writes to it: whether it
    returns or raises, the files, the log and the clock are as before, and
    the events it adds are messages, prompts and writes of [config.toml]
    only. *)
Theorem audit_folder_read_only folder s :
  fs (snd (audit_folder folder s)) = fs s /\
  logs (snd (audit_folder folder s)) = logs s /\
  clock (snd (audit_folder folder s)) = clock s /\
  exists events,
    trace (snd (audit_folder folder s)) = trace s ++ events /\
    forallb is_dialogue events = true.
Proof.
  destruct (audit_folder_unchanged_disk folder) as (Hfs & Hlogs & Hclock).
  split; [apply Hfs|]. split; [apply Hlogs|]. split; [apply Hclock|].
  assert (H : always (fun s' => exists events, trace s' = trace s ++ events /\
                                               forallb is_dialogue events = true)
                     (audit_folder folder)).
  { unfold audit_folder. apply always_bind; [talk|]. intros items.
    apply always_fold_m. intros x acc. apply audit_item_dialogue. }
  apply H. exists []. now rewrite app_nil_r.
Qed.

(** One step of the audit adds at most one extension, at the end of one
    list, and reads one line for it. *)
Lemma audit_item_grows item acc s :
  exists g sv ig,
    game_exts (config (snd (audit_item item acc s))) = game_exts (config s) ++ g /\
    save_exts (config (snd (audit_item item acc s))) = save_exts (config s) ++ sv /\
    ignore_exts (config (snd (audit_item item acc s))) = ignore_exts (config s) ++ ig /\
    length g + length sv + length ig + length (stdin (snd (audit_item item acc s)))
    = length (stdin s).
Proof.
  destruct (path_is_dir (fs s) item) eqn:Hd.
  - rewrite (audit_item_dir item acc s Hd). exists [], [], [].
    cbn [snd]. now rewrite !app_nil_r.
  - destruct (Category_eq_dec (classify (config s) item) Unknown) as [Hc|Hc].
    + destruct (stdin s) as [|answer rest] eqn:Hin.
      * rewrite (audit_item_eof item acc s Hd Hc Hin). exists [], [], [].
        cbn [snd emit set_trace config stdin]. now rewrite !app_nil_r, Hin.
      * destruct (audit_item_unknown item acc s answer rest Hd Hc Hin)
          as (t' & Ht & ->).
        pose proof (save_config_config (learning item answer rest t' s)) as Ec.
        pose proof (save_config_stdin (learning item answer rest t' s)) as Es.
        assert (E : config (snd (match save_config (learning item answer rest t' s) with
                                 | (Ok _, s') =>
                                     (Ok (report_append acc
                                            (mapping_get (PyStr.lower answer)) item), s')
                                 | (Raise e, s') => (Raise e, s')
                                 end)) = t' /\
                    stdin (snd (match save_config (learning item answer rest t' s) with
                                | (Ok _, s') =>
                                    (Ok (report_append acc
                                           (mapping_get (PyStr.lower answer)) item), s')
                                | (Raise e, s') => (Raise e, s')
                                end)) = rest).
        { destruct (save_config (learning item answer rest t' s)) as [[[]|e] s'];
            cbn [snd learning set_config config stdin emit set_trace set_stdin] in *; auto. }
        destruct E as [-> ->].
        destruct (mapping_get (PyStr.lower answer)); simpl in Ht;
          try discriminate; injection Ht as <-;
          [ exists [learned_ext item], [], []
          | exists [], [learned_ext item], []
          | exists [], [], [learned_ext item] ];
          cbn [game_exts save_exts ignore_exts length]; rewrite ?app_nil_r;
          repeat split; lia.
    + rewrite (audit_item_known item acc s Hd Hc). exists [], [], [].
      cbn [snd]. now rewrite !app_nil_r.
Qed.

Lemma fold_audit_grows items : forall acc s,
  exists g sv ig,
    game_exts (config (snd (fold_m audit_item items acc s))) = game_exts (config s) ++ g /\
    save_exts (config (snd (fold_m audit_item items acc s))) = save_exts (config s) ++ sv /\
    ignore_exts (config (snd (fold_m audit_item items acc s))) = ignore_exts (config s) ++ ig /\
    length g + length sv + length ig + length (stdin (snd (fold_m audit_item items acc s)))
    = length (stdin s).
Proof.
  induction items as [|x rest IH]; intros acc s.
  - exists [], [], []. cbn [fold_m ret snd]. now rewrite !app_nil_r.
  - cbn [fold_m]. unfold bind.
    destruct (audit_item_grows x acc s) as (g & sv & ig & Hg & Hs & Hi & Hn).
    destruct (audit_item x acc s) as [[r|e] s1]; cbn [snd] in *.
    + destruct (IH r s1) as (g' & sv' & ig' & Hg' & Hs' & Hi' & Hn').
      exists (g ++ g'), (sv ++ sv'), (ig ++ ig').
      rewrite Hg', Hs', Hi', Hg, Hs, Hi, !app_assoc, !length_app.
      repeat split; lia.
    + exists g, sv, ig. auto.
Qed.

(** X10. [audit_folder] only ever appends to the taxonomy: each of the
    three lists afterwards is the list before followed by new entries, and
    the number of new entries is the number of answers read from the
    operator, whether the audit returns or raises. *)
Theorem audit_folder_only_appends folder s :
  exists g sv ig,
    game_exts (config (snd (audit_folder folder s))) = game_exts (config s) ++ g /\
    save_exts (config (snd (audit_folder folder s))) = save_exts (config s) ++ sv /\
    ignore_exts (config (snd (audit_folder folder s))) = ignore_exts (config s) ++ ig /\
    length g + length sv + length ig + length (stdin (snd (audit_folder folder s)))
    = length (stdin s).
Proof.
  unfold audit_folder, bind, iterdir.
  destruct (lookup_node (fs s) folder) as [nd|].
  - destruct (node_is_dir nd); [apply fold_audit_grows|].
    exists [], [], []. cbn [snd]. now rewrite !app_nil_r.
  - exists [], [], []. cbn [snd]. now rewrite !app_nil_r.
Qed.

(** ** The taxonomy on disk follows the one in memory *)

Lemma on_return_fold_m {A B} (I : State -> Prop) (body : A -> B -> M B) (l : list A) :
  (forall x acc, on_return I (body x acc)) ->
  forall acc, on_return I (fold_m body l acc).
Proof.
  intros H. induction l as [|x r IH]; intros acc; cbn [fold_m].
  - intros s a s' Hs E. injection E as _ <-. exact Hs.
  - apply on_return_bind; [apply H | apply IH].
Qed.

Ltac frames_all :=
  repeat first
    [ apply unchanged_ret | apply unchanged_lift | apply unchanged_gets
    | apply unchanged_bind; [|intros ?]
    | apply unchanged_fold_m; intros ? ?
    | apply unchanged_for_each; intros ? ?
    | match goal with
      | |- unchanged _ (if ?b then _ else _) => destruct b
      | |- unchanged _ (match ?x with _ => _ end) => destruct x
      end ].

(** [convert] reads no line and leaves the taxonomy alone, in memory and
    on disk. *)
Lemma convert_unchanged_taxonomy folder report :
  unchanged config (convert folder report) /\
  unchanged store (convert folder report) /\
  unchanged stdin (convert folder report).
Proof. repeat split; unfold convert; frames_all; one_step. Qed.

Lemma print_folder_summary_unchanged folder report :
  unchanged config (print_folder_summary folder report) /\
  unchanged store (print_folder_summary folder report) /\
  unchanged fs (print_folder_summary folder report).
Proof. repeat split; unfold print_folder_summary; frames_all; one_step. Qed.

Lemma print_folders_unchanged folders : forall i,
  unchanged config (print_folders i folders) /\
  unchanged store (print_folders i folders) /\
  unchanged fs (print_folders i folders).
Proof.
  intros i. repeat split; intros s; now rewrite print_folders_eq.
Qed.

Lemma filter_m_is_dir_unchanged {X} (field : State -> X) l :
  unchanged field (filter_m is_dir l).
Proof. intros s. now rewrite filter_m_is_dir. Qed.

Section StoreInvariant.

(** A property of the taxonomy in memory and of [config.toml], which holds
    once the taxonomy has been written. *)
Variable I : State -> Prop.
Hypothesis I_frame :
  forall s s', config s' = config s -> store s' = store s -> I s -> I s'.
Hypothesis I_saved : forall s, store s = Some (Document (config s)) -> I s.

Lemma store_frame {A} (m : M A) :
  unchanged config m -> unchanged store m -> on_return I m.
Proof.
  intros Hc Hs s a s' H E.
  pose proof (Hc s) as Ec. pose proof (Hs s) as Es. rewrite E in Ec, Es.
  exact (I_frame s s' Ec Es H).
Qed.

Lemma audit_item_store item acc : on_return I (audit_item item acc).
Proof.
  intros s r s' H E.
  destruct (path_is_dir (fs s) item) eqn:Hd.
  - rewrite (audit_item_dir item acc s Hd) in E. now injection E as _ <-.
  - destruct (Category_eq_dec (classify (config s) item) Unknown) as [Hc|Hc].
    + destruct (stdin s) as [|answer rest] eqn:Hin.
      * rewrite (audit_item_eof item acc s Hd Hc Hin) in E. discriminate.
      * destruct (audit_item_unknown item acc s answer rest Hd Hc Hin)
          as (t' & _ & E'). rewrite E' in E. clear E'.
        unfold save_config in E.
        destruct (store_faults (learning item answer rest t' s)) as [|[fault|] faults];
          try discriminate; injection E as _ <-; apply I_saved; reflexivity.
    + rewrite (audit_item_known item acc s Hd Hc) in E. now injection E as _ <-.
Qed.

Lemma process_folder_store folder : on_return I (process_folder folder).
Proof.
  unfold process_folder.
  apply on_return_bind.
  { unfold audit_folder. apply on_return_bind; [apply store_frame; one_step|].
    intros items. apply on_return_fold_m. intros; apply audit_item_store. }
  intros report. apply on_return_bind.
  { apply store_frame; apply print_folder_summary_unchanged. }
  intros _. apply on_return_bind; [apply store_frame; one_step|].
  intros confirm. destruct (String.eqb (PyStr.lower confirm) "y").
  - apply store_frame; apply convert_unchanged_taxonomy.
  - apply store_frame; apply unchanged_ret.
Qed.

Lemma run_store rom_path : on_return I (run rom_path).
Proof.
  unfold run.
  apply on_return_bind; [apply store_frame; one_step|]. intros entries.
  apply on_return_bind; [apply store_frame; apply filter_m_is_dir_unchanged|].
  intros dirs.
  apply on_return_bind; [apply store_frame; one_step|]. intros _.
  apply on_return_bind; [apply store_frame; apply print_folders_unchanged|].
  intros _.
  apply on_return_bind; [apply store_frame; one_step|]. intros selection.
  apply on_return_bind; [apply store_frame; apply unchanged_lift|].
  intros to_process. apply on_return_for_each. apply process_folder_store.
Qed.

End StoreInvariant.

Lemma synced_store s :
  synced s <->
  match store s with
  | Some (Document t) => t = config s
  | Some Torn => True
  | None => default_data = config s
  end.
Proof.
  unfold synced, init, bind, load_config, modify.
  destruct (store s) as [[t|]|]; cbn [snd set_config config]; tauto.
Qed.

Lemma run_synced rom_path : on_return synced (run rom_path).
Proof.
  apply run_store.
  - intros s s' Ec Es H. apply synced_store. apply synced_store in H.
    now rewrite Ec, Es.
  - intros s Hs. apply synced_store. now rewrite Hs.
Qed.

Lemma run_loadable rom_path : on_return loadable (run rom_path).
Proof.
  apply run_store; unfold loadable.
  - intros s s' _ Es H. now rewrite Es.
  - intros s Hs. rewrite Hs. discriminate.
Qed.

Lemma init_returns s : fst (init s) = Ok tt <-> loadable s.
Proof.
  unfold init, bind, load_config, modify, loadable.
  destruct (store s) as [[t|]|]; cbn [fst]; split; congruence.
Qed.

(** X11. A manager that has just been built and whose [run] returns
    leaves in [config.toml] what it has learned: a new manager started on
    the state it leaves loads the very taxonomy that the run ended
    with; and when the first manager could load [config.toml], so can the
    new one. *)
Theorem run_then_restart_keeps_taxonomy rom_path s s' answers :
  run rom_path (snd (init s)) = (Ok tt, s') ->
  config (restart answers s') = config s' /\
  (fst (init s) = Ok tt -> fst (init (set_stdin answers s')) = Ok tt).
Proof.
  intros H. split.
  - assert (Hs : synced (snd (init s))).
    { apply synced_store. unfold init, bind, load_config, modify.
      destruct (store s) as [[t|]|] eqn:E; cbn [snd set_config store config];
        rewrite ?E; auto. }
    pose proof (run_synced rom_path _ _ _ Hs H) as Hs'.
    apply synced_store in Hs'.
    unfold restart, init, bind, load_config, modify. cbn [set_stdin store].
    destruct (store s') as [[t|]|]; cbn [snd set_config set_stdin config];
      congruence.
  - intros Hinit. apply init_returns in Hinit. apply init_returns.
    assert (Hs : loadable (snd (init s))).
    { unfold loadable in *. unfold init, bind, load_config, modify.
      destruct (store s) as [[t|]|] eqn:E; cbn [snd set_config store];
        rewrite ?E; congruence. }
    exact (run_loadable rom_path _ _ _ Hs H).
Qed.

Lemma run_then_restart_keeps_taxonomy_witness :
  fst (init (ex_state ["all"; "i"; "y"; "y"; "s"; "y"] [])) = Ok tt /\
  fst (run ex_rom (snd (init (ex_state ["all"; "i"; "y"; "y"; "s"; "y"] [])))) = Ok tt /\
  fst (init (set_stdin []
         (snd (run ex_rom (snd (init (ex_state ["all"; "i"; "y"; "y"; "s"; "y"] [])))))))
  = Ok tt /\
  config (restart []
            (snd (run ex_rom (snd (init (ex_state ["all"; "i"; "y"; "y"; "s"; "y"] []))))))
  = config (snd (run ex_rom (snd (init (ex_state ["all"; "i"; "y"; "y"; "s"; "y"] []))))).
Proof.
  assert (H0 : fst (init (ex_state ["all"; "i"; "y"; "y"; "s"; "y"] [])) = Ok tt)
    by reflexivity.
  assert (H1 : run ex_rom (snd (init (ex_state ["all"; "i"; "y"; "y"; "s"; "y"] [])))
               = (Ok tt,
                  snd (run ex_rom (snd (init (ex_state ["all"; "i"; "y"; "y"; "s"; "y"] []))))))
    by (vm_compute; reflexivity).
  split; [exact H0|]. split; [now rewrite H1|].
  destruct (run_then_restart_keeps_taxonomy ex_rom
              (ex_state ["all"; "i"; "y"; "y"; "s"; "y"] []) _ [] H1) as [Hc Hl].
  split; [exact (Hl H0) | exact Hc].
Defined.

(** ** The buckets follow the listing *)

Lemma subseq_nil_l {A} (l : list A) : subseq [] l.
Proof. induction l; constructor; assumption. Qed.

Lemma fold_audit_order items : forall acc s r s',
  fold_m audit_item items acc s = (Ok r, s') ->
  exists g sv ig,
    game r = game acc ++ g /\ save r = save acc ++ sv /\ ignore r = ignore acc ++ ig /\
    subseq g items /\ subseq sv items /\ subseq ig items.
Proof.
  induction items as [|x rest IH]; intros acc s r s' H.
  - cbn [fold_m ret] in H. injection H as <- _. exists [], [], [].
    rewrite !app_nil_r. repeat split; constructor.
  - cbn [fold_m] in H. unfold bind in H.
    destruct (audit_item x acc s) as [[r1|e] s1] eqn:E; [|discriminate].
    destruct (audit_item_inv x acc s r1 s1 E) as (cat & Hcat & -> & _).
    destruct (IH _ _ _ _ H) as (g & sv & ig & Hg & Hs & Hi & Sg & Ss & Si).
    destruct cat; [| | |congruence]; cbn [report_append game save ignore] in *.
    + exists (x :: g), sv, ig. rewrite Hg, <- app_assoc.
      repeat split; auto; now constructor.
    + exists g, (x :: sv), ig. rewrite Hs, <- app_assoc.
      repeat split; auto; now constructor.
    + exists g, sv, (x :: ig). rewrite Hi, <- app_assoc.
      repeat split; auto; now constructor.
Qed.

(** X12. The report of [audit_folder] keeps the order of the directory
    listing: each of [game], [save] and [ignore] lists its entries in the
    order in which [iterdir] gave them. *)
Theorem audit_folder_keeps_listing_order folder s report s' :
  audit_folder folder s = (Ok report, s') ->
  subseq (game report) (children (fs s) folder) /\
  subseq (save report) (children (fs s) folder) /\
  subseq (ignore report) (children (fs s) folder).
Proof.
  intros H. apply audit_folder_inv in H. destruct H as [_ H].
  destruct (fold_audit_order _ _ _ _ _ H) as (g & sv & ig & Hg & Hs & Hi & Sg & Ss & Si).
  simpl in Hg, Hs, Hi. now rewrite Hg, Hs, Hi.
Qed.

Lemma audit_folder_keeps_listing_order_witness :
  audit_folder ex_alpha (ex_state ["i"; "y"] []) = (Ok ex_alpha_report, ex_alpha_audited) /\
  subseq (game ex_alpha_report) (children (fs (ex_state ["i"; "y"] [])) ex_alpha).
Proof.
  assert (H : audit_folder ex_alpha (ex_state ["i"; "y"] [])
              = (Ok ex_alpha_report, ex_alpha_audited)) by (vm_compute; reflexivity).
  split; [exact H|].
  exact (proj1 (audit_folder_keeps_listing_order _ _ _ _ H)).
Defined.

(** X13. The plan printed for an audited folder accounts for every entry
    of the folder: [print_folder_summary] prints the heading and three
    lists of names, and these three lists together hold the names of the
    children of the folder, each as often as the listing has it. *)
Theorem plan_shows_every_child folder s0 report s :
  audit_folder folder s0 = (Ok report, s) ->
  exists shown_game shown_save shown_ignore,
    print_folder_summary folder report s
    = (Ok tt,
       set_trace (trace s ++ [Printed (MsgPlan (Pathlib.name folder));
                              Printed (MsgPlanGame shown_game);
                              Printed (MsgPlanSave shown_save);
                              Printed (MsgPlanIgnore shown_ignore)]) s) /\
    Permutation (shown_game ++ shown_save ++ shown_ignore)
                (map Pathlib.name (children (fs s0) folder)).
Proof.
  intros H.
  exists (map Pathlib.name (game report)), (map Pathlib.name (save report)),
    (map Pathlib.name (ignore report)).
  split.
  - unfold print_folder_summary, bind, print, modify, emit, set_trace.
    cbn [trace config store store_faults fs stdin clock logs chdman].
    rewrite <- !app_assoc. reflexivity.
  - destruct (audit_folder_report folder s0 report s H) as (Hp & _ & _ & _ & Hu).
    unfold report_items in Hp. rewrite Hu, app_nil_r in Hp.
    rewrite <- !map_app. now apply Permutation_map.
Qed.

Lemma plan_shows_every_child_witness :
  audit_folder ex_alpha (ex_state ["i"; "y"] []) = (Ok ex_alpha_report, ex_alpha_audited) /\
  exists shown_game shown_save shown_ignore,
    Permutation (shown_game ++ shown_save ++ shown_ignore)
                (map Pathlib.name (children (fs (ex_state ["i"; "y"] [])) ex_alpha)).
Proof.
  assert (H : audit_folder ex_alpha (ex_state ["i"; "y"] [])
              = (Ok ex_alpha_report, ex_alpha_audited)) by (vm_compute; reflexivity).
  split; [exact H|].
  destruct (plan_shows_every_child _ _ _ _ H) as (g & sv & ig & _ & Hp).
  exists g, sv, ig. exact Hp.
Defined.

(** ** The audit without an operator *)

Lemma audit_item_silent item acc s :
  asks s item = false -> exists r, audit_item item acc s = (Ok r, s).
Proof.
  unfold asks. intros H.
  destruct (path_is_dir (fs s) item) eqn:Hd.
  - rewrite (audit_item_dir item acc s Hd). eauto.
  - simpl in H. rewrite audit_item_known; [eauto | assumption |].
    intros E. now rewrite E in H.
Qed.

Lemma asks_unknown item s :
  asks s item = true ->
  path_is_dir (fs s) item = false /\ classify (config s) item = Unknown.
Proof.
  unfold asks. destruct (path_is_dir (fs s) item); [discriminate|].
  destruct (classify (config s) item); try discriminate. auto.
Qed.

Lemma fold_audit_silent items : forall acc s,
  existsb (asks s) items = false -> exists r, fold_m audit_item items acc s = (Ok r, s).
Proof.
  induction items as [|x rest IH]; intros acc s H; [exists acc; reflexivity|].
  cbn [existsb] in H. apply orb_false_iff in H. destruct H as [Hx Hr].
  cbn [fold_m]. unfold bind.
  destruct (audit_item_silent x acc s Hx) as [r ->]. now apply IH.
Qed.

Lemma fold_audit_eof items : forall acc s,
  stdin s = [] ->
  existsb (asks s) items = true ->
  exists s',
    fold_m audit_item items acc s = (Raise EOFError, s') /\
    config s' = config s /\ store s' = store s.
Proof.
  induction items as [|x rest IH]; intros acc s Hin H; [discriminate|].
  cbn [existsb] in H. cbn [fold_m]. unfold bind.
  destruct (asks s x) eqn:Hx.
  - destruct (asks_unknown x s Hx) as [Hd Hc].
    rewrite (audit_item_eof x acc s Hd Hc Hin). eexists. split; [reflexivity|].
    split; reflexivity.
  - destruct (audit_item_silent x acc s Hx) as [r ->]. now apply IH.
Qed.

(** X14. An audit needs the operator only for files that the taxonomy
    does not know.  When the folder holds none, [audit_folder] returns and
    leaves the whole state as it was: nothing printed, nothing read,
    nothing written.  When it holds one and the input is at its end,
    [audit_folder] raises [EOFError] and the taxonomy, in memory and in
    [config.toml], is as before. *)
Theorem audit_folder_without_operator folder s :
  path_is_dir (fs s) folder = true ->
  (existsb (asks s) (children (fs s) folder) = false ->
   exists report, audit_folder folder s = (Ok report, s)) /\
  (stdin s = [] ->
   existsb (asks s) (children (fs s) folder) = true ->
   exists s',
     audit_folder folder s = (Raise EOFError, s') /\
     config s' = config s /\ store s' = store s).
Proof.
  intros Hd. unfold audit_folder, bind, iterdir. unfold path_is_dir in Hd.
  destruct (lookup_node (fs s) folder) as [nd|]; [|discriminate]. rewrite Hd.
  split; [apply fold_audit_silent | apply fold_audit_eof].
Qed.

Lemma audit_folder_without_operator_witness :
  path_is_dir (fs (ex_state [] [])) ex_beta = true /\
  (exists report, audit_folder ex_beta (ex_state [] []) = (Ok report, ex_state [] [])) /\
  path_is_dir (fs (ex_state [] [])) ex_alpha = true /\
  (exists s', audit_folder ex_alpha (ex_state [] []) = (Raise EOFError, s') /\
              config s' = config (ex_state [] []) /\ store s' = store (ex_state [] [])).
Proof.
  split; [reflexivity|]. split.
  - apply (proj1 (audit_folder_without_operator ex_beta (ex_state [] []) eq_refl)).
    reflexivity.
  - split; [reflexivity|].
    apply (proj2 (audit_folder_without_operator ex_alpha (ex_state [] []) eq_refl));
      reflexivity.
Defined.

(** ** The output of the converter *)

Lemma rfind_app c a b :
  (0 <= PyStr.rfind c b)%Z ->
  PyStr.rfind c (a ++ b)%string = (Z.of_nat (String.length a) + PyStr.rfind c b)%Z.
Proof.
  intros Hb. induction a as [|d r IH]; cbn [String.append PyStr.rfind String.length].
  - lia.
  - rewrite IH. destruct (Z.leb_spec 0 (Z.of_nat (String.length r) + PyStr.rfind c b)); lia.
Qed.

Lemma length_take n : forall s,
  n <= String.length s -> String.length (PyStr.take n s) = n.
Proof.
  induction n as [|n IH]; intros s H; [reflexivity|].
  destruct s as [|c r]; simpl in *; [lia|]. rewrite IH; lia.
Qed.

Lemma length_append a b :
  String.length (a ++ b)%string = String.length a + String.length b.
Proof. induction a as [|c r IH]; simpl; [reflexivity | now rewrite IH]. Qed.

Lemma drop_app_length a b : PyStr.drop (String.length a) (a ++ b)%string = b.
Proof. induction a as [|c r IH]; simpl; [now destruct b | exact IH]. Qed.

Lemma name_joinpath p n : Pathlib.name (p ++ [n]) = n.
Proof. unfold Pathlib.name. apply last_last. Qed.

Lemma suffix_of_chd p stem :
  stem <> EmptyString -> Pathlib.suffix (p ++ [(stem ++ ".chd")%string]) = ".chd".
Proof.
  intros Hstem. unfold Pathlib.suffix. rewrite name_joinpath.
  rewrite rfind_app by (simpl; lia). rewrite length_append.
  change (PyStr.rfind "." ".chd") with 0%Z. change (String.length ".chd") with 4.
  assert (Hlen : 0 < String.length stem) by (destruct stem; simpl; [congruence | lia]).
  destruct (Z.ltb_spec 0 (Z.of_nat (String.length stem) + 0)); [|lia].
  destruct (Z.ltb_spec (Z.of_nat (String.length stem) + 0)
              (Z.of_nat (String.length stem + 4) - 1)); [|lia].
  cbn [andb].
  replace (Z.to_nat (Z.of_nat (String.length stem) + 0)) with (String.length stem) by lia.
  apply drop_app_length.
Qed.

(** A path with a suffix has a stem before it, and [with_suffix] keeps
    the stem and the folder. *)
Lemma with_suffix_chd_stem p :
  Pathlib.suffix p <> EmptyString ->
  exists stem,
    stem <> EmptyString /\
    Pathlib.name p = (stem ++ Pathlib.suffix p)%string /\
    Pathlib.with_suffix p ".chd" = Ok (Pathlib.parent p ++ [(stem ++ ".chd")%string]).
Proof.
  intros H.
  exists (PyStr.take (String.length (Pathlib.name p) - String.length (Pathlib.suffix p))
            (Pathlib.name p)).
  destruct (suffix_stem p H) as [Hnm Hstem].
  split.
  - unfold Pathlib.suffix in *.
    set (nm := Pathlib.name p) in *. set (i := PyStr.rfind "." nm) in *.
    destruct ((0 <? i)%Z && (i <? Z.of_nat (String.length nm) - 1)%Z) eqn:E;
      [|congruence].
    apply andb_true_iff in E. destruct E as [E1 E2]. apply Z.ltb_lt in E1, E2.
    rewrite length_drop. intros Habs.
    assert (L : String.length
                  (PyStr.take (String.length nm - (String.length nm - Z.to_nat i)) nm) = 0)
      by now rewrite Habs.
    rewrite length_take in L; lia.
  - split; [exact Hstem|].
    unfold Pathlib.with_suffix, Pathlib.parent.
    destruct (Pathlib.name p) as [|c r] eqn:En; [congruence|].
    destruct (Pathlib.suffix p) as [|c' r'] eqn:Es; [congruence|].
    reflexivity.
Qed.

(** X15. The file that [convert] asks the converter to write is a new
    name: it lies in the folder of the master, its suffix is [.chd], so it
    is no entry point, and it differs from the master. *)
Theorem convert_output_is_a_new_chd report master :
  hd_error (masters report) = Some master ->
  exists output,
    Pathlib.with_suffix master ".chd" = Ok output /\
    Pathlib.parent output = Pathlib.parent master /\
    Pathlib.suffix output = ".chd" /\
    ~ entry_point output /\
    output <> master.
Proof.
  intros H. apply hd_error_cons in H. destruct H as [rest Hm].
  destruct (masters_first report master rest Hm) as (_ & _ & _ & _ & Hep).
  destruct (with_suffix_chd_stem master (entry_point_suffix master Hep))
    as (stem & Hstem & _ & Ho).
  exists (Pathlib.parent master ++ [(stem ++ ".chd")%string]).
  pose proof (suffix_of_chd (Pathlib.parent master) stem Hstem) as Hs.
  assert (Hnot : ~ entry_point (Pathlib.parent master ++ [(stem ++ ".chd")%string])).
  { unfold entry_point. rewrite Hs. simpl. intuition discriminate. }
  split; [exact Ho|]. split.
  - unfold Pathlib.parent. now rewrite removelast_last.
  - split; [exact Hs|]. split; [exact Hnot|].
    intros E. apply Hnot. now rewrite E.
Qed.

Lemma convert_output_is_a_new_chd_witness :
  hd_error (masters ex_alpha_report) = Some ["roms"; "Alpha"; "alpha.cue"] /\
  exists output,
    Pathlib.with_suffix ["roms"; "Alpha"; "alpha.cue"] ".chd" = Ok output /\
    Pathlib.suffix output = ".chd" /\ output <> ["roms"; "Alpha"; "alpha.cue"].
Proof.
  assert (H : hd_error (masters ex_alpha_report) = Some ["roms"; "Alpha"; "alpha.cue"])
    by reflexivity.
  split; [exact H|].
  destruct (convert_output_is_a_new_chd ex_alpha_report _ H)
    as (output & Ho & _ & Hs & _ & Hne).
  exists output. auto.
Defined.

(** ** Declining *)

Lemma lower_char_is_y c :
  PyStr.lower_char c = "y"%char -> c = "y"%char \/ c = "Y"%char.
Proof.
  bits c; intros H; vm_compute in H; try discriminate H; auto.
Qed.

Lemma lower_is_y answer :
  PyStr.lower answer = "y" <-> answer = "y" \/ answer = "Y".
Proof.
  split.
  - destruct answer as [|c [|d r]]; try discriminate. simpl. intros H.
    injection H as H. apply lower_char_is_y in H. destruct H as [-> | ->]; auto.
  - intros [-> | ->]; reflexivity.
Qed.

(** X8. Only [y] and [Y] confirm.  After any other answer to the
    confirmation prompt ([yes] included) the turn of the loop returns with
    the disk and the log as they were before the audit: the four lines of
    the plan and the prompt are the only events after the audit, no
    converter is run and nothing is deleted. *)
Theorem declined_folder_is_left_alone folder s0 report s answer rest :
  audit_folder folder s0 = (Ok report, s) ->
  stdin s = answer :: rest ->
  answer <> "y" -> answer <> "Y" ->
  exists s',
    process_folder folder s0 = (Ok tt, s') /\
    fs s' = fs s0 /\ logs s' = logs s0 /\ config s' = config s /\ stdin s' = rest /\
    trace s' =
      trace s ++
      [Printed (MsgPlan (Pathlib.name folder));
       Printed (MsgPlanGame (map Pathlib.name (game report)));
       Printed (MsgPlanSave (map Pathlib.name (save report)));
       Printed (MsgPlanIgnore (map Pathlib.name (ignore report)));
       Asked (AskConfirm (Pathlib.name folder)) (Some answer)].
Proof.
  intros Ha Hin Hy HY.
  rewrite (process_folder_eq folder s0 report s answer rest Ha Hin).
  destruct (String.eqb_spec (PyStr.lower answer) "y") as [E|_].
  { apply lower_is_y in E. tauto. }
  eexists. split; [reflexivity|].
  destruct (audit_folder_unchanged_disk folder) as (Hfs & Hlogs & _).
  pose proof (Hfs s0) as E1. pose proof (Hlogs s0) as E2. rewrite Ha in E1, E2.
  cbn [snd answered planned emit set_trace set_stdin fs logs config stdin trace] in *.
  rewrite <- !app_assoc. auto.
Qed.

Lemma declined_folder_is_left_alone_witness :
  audit_folder ex_alpha (ex_state ["i"; "yes"] [])
  = (Ok ex_alpha_report, set_stdin ["yes"] ex_alpha_audited) /\
  exists s',
    process_folder ex_alpha (ex_state ["i"; "yes"] []) = (Ok tt, s') /\
    fs s' = fs (ex_state ["i"; "yes"] []).
Proof.
  assert (H : audit_folder ex_alpha (ex_state ["i"; "yes"] [])
              = (Ok ex_alpha_report, set_stdin ["yes"] ex_alpha_audited))
    by (vm_compute; reflexivity).
  split; [exact H|].
  destruct (declined_folder_is_left_alone ex_alpha _ _ _ "yes" [] H)
    as (s' & E & Hfs & _); try reflexivity; try discriminate.
  exists s'. auto.
Defined.

(** ** What stays on disk *)

Lemma always_bind_post {A B} (I : State -> Prop) (Q : A -> Prop)
  (m : M A) (k : A -> M B) :
  always I m ->
  (forall s a s1, I s -> m s = (Ok a, s1) -> Q a) ->
  (forall a, Q a -> always I (k a)) ->
  always I (bind m k).
Proof.
  intros Hm HQ Hk s Hs. unfold bind. pose proof (Hm s Hs) as H1.
  pose proof (HQ s) as H2.
  destruct (m s) as [[a|e] s1]; cbn [snd] in *; [|assumption].
  apply Hk; [|assumption]. now apply (H2 a s1).
Qed.

Section Kept.

Variables (p : Path) (nd : Node).

(** Deleting [q] cannot remove [p]: when they differ, or when [p] is a
    directory. *)
Lemma unlink_keeps q :
  q <> p \/ node_is_dir nd = true -> always (kept p nd) (unlink q).
Proof.
  intros Hq s Hs. unfold kept in *. unfold unlink.
  destruct (lookup_node (fs s) q) as [x|] eqn:E; [|assumption].
  destruct (node_is_dir x) eqn:Ex; [assumption|].
  cbn [snd emit set_trace set_fs fs].
  rewrite lookup_without_other; [assumption|].
  destruct Hq as [Hq|Hq]; [congruence|]. intros <-. congruence.
Qed.

Lemma subprocess_run_keeps master output :
  always (kept p nd) (subprocess_run master output).
Proof.
  intros s Hs. unfold kept in *. unfold subprocess_run.
  cbn [snd emit set_trace set_clock set_fs fs].
  exact (lookup_disk_after (chdman s master output) output (fs s) p nd Hs).
Qed.

Lemma fs_only_keeps {A} (m : M A) : unchanged fs m -> always (kept p nd) m.
Proof. intros H. exact (unchanged_always fs (fun d => lookup_node d p = Some nd) m H). Qed.

Lemma convert_keeps folder report :
  (forall f, In f (game report) -> f <> p \/ node_is_dir nd = true) ->
  always (kept p nd) (convert folder report).
Proof.
  intros Hgame. unfold convert.
  destruct (masters report) as [|master rest]; [apply fs_only_keeps; one_step|].
  apply always_bind; [apply fs_only_keeps; apply unchanged_lift|]. intros output.
  apply always_bind; [apply fs_only_keeps; one_step|]. intros log_day.
  apply always_bind; [apply fs_only_keeps; one_step|]. intros _.
  apply always_bind; [apply subprocess_run_keeps|]. intros res.
  apply always_bind; [apply fs_only_keeps; one_step|]. intros now.
  apply always_bind; [apply fs_only_keeps; one_step|]. intros _.
  destruct (returncode res =? 0)%Z; [|apply fs_only_keeps; one_step].
  apply always_bind; [apply fs_only_keeps; one_step|]. intros _.
  apply always_for_each. intros f Hf. apply unlink_keeps. now apply Hgame.
Qed.

(** What follows the audit in the body of the loop. *)
Lemma confirm_and_convert_keeps folder report :
  (forall f, In f (game report) -> f <> p \/ node_is_dir nd = true) ->
  always (kept p nd)
    (print_folder_summary folder report ;;
     confirm <- input (AskConfirm (Pathlib.name folder)) ;;
     if String.eqb (PyStr.lower confirm) "y" then convert folder report
     else ret tt).
Proof.
  intros Hgame.
  apply always_bind;
    [apply fs_only_keeps; unfold print_folder_summary; frames; one_step|].
  intros _. apply always_bind; [apply fs_only_keeps; one_step|]. intros confirm.
  destruct (String.eqb (PyStr.lower confirm) "y");
    [now apply convert_keeps | apply always_ret].
Qed.

Lemma children_is_child disk folder f :
  In f (children disk folder) -> is_child folder f = true.
Proof.
  unfold children. intros H. apply in_map_iff in H.
  destruct H as (x & <- & Hin). apply filter_In in Hin. tauto.
Qed.

Lemma game_among_children folder s report s' f :
  audit_folder folder s = (Ok report, s') ->
  In f (game report) ->
  In f (children (fs s) folder) /\ path_is_dir (fs s) f = false.
Proof.
  intros H Hf.
  destruct (audit_folder_report folder s report s' H) as (Hperm & _ & _ & Hfiles & _).
  split.
  - apply (Permutation_in f Hperm). unfold report_items. apply in_or_app. now left.
  - apply Hfiles. apply in_or_app. now left.
Qed.

(** One turn of the loop removes neither a directory nor anything that
    is not directly inside the folder. *)
Lemma process_folder_keeps folder :
  node_is_dir nd = true \/ is_child folder p = false ->
  always (kept p nd) (process_folder folder).
Proof.
  intros Hp. unfold process_folder.
  apply always_bind_post
    with (Q := fun report =>
                 forall f, In f (game report) -> f <> p \/ node_is_dir nd = true).
  - apply fs_only_keeps. apply audit_folder_unchanged_disk.
  - intros s report s1 Hs Ha f Hf.
    destruct (game_among_children folder s report s1 f Ha Hf) as [Hin Hfile].
    destruct Hp as [Hd|Hout]; [now right|]. left. intros ->.
    apply children_is_child in Hin. congruence.
  - intros report. apply confirm_and_convert_keeps.
Qed.

End Kept.

Lemma run_keeps rom_path p nd :
  node_is_dir nd = true \/ is_child rom_path (Pathlib.parent p) = false ->
  always (kept p nd) (run rom_path).
Proof.
  intros Hp. unfold run.
  apply always_bind_post
    with (Q := fun entries => forall f, In f entries -> is_child rom_path f = true).
  { apply fs_only_keeps. one_step. }
  { intros s entries s1 _ E f Hf. unfold iterdir in E.
    destruct (lookup_node (fs s) rom_path) as [x|]; [|discriminate].
    destruct (node_is_dir x); [|discriminate].
    injection E as <- _. exact (children_is_child _ _ _ Hf). }
  intros entries Hentries.
  apply always_bind_post with (Q := fun dirs => forall f, In f dirs -> In f entries).
  { apply fs_only_keeps. intros s. now rewrite filter_m_is_dir. }
  { intros s dirs s1 _ E f Hf. rewrite filter_m_is_dir in E. injection E as <- _.
    apply filter_In in Hf. tauto. }
  intros dirs Hdirs.
  apply always_bind; [apply fs_only_keeps; one_step|]. intros _.
  apply always_bind;
    [apply fs_only_keeps; intros s; now rewrite print_folders_eq|]. intros _.
  apply always_bind; [apply fs_only_keeps; one_step|]. intros selection.
  apply always_bind_post
    with (Q := fun to_process => forall f, In f to_process -> In f (sorted dirs)).
  { apply fs_only_keeps. apply unchanged_lift. }
  { intros s chosen s1 _ E. unfold lift in E.
    destruct (parse_selection selection (sorted dirs)) as [l|e] eqn:Ep; [|discriminate].
    injection E as <- _. exact (parse_selection_incl _ _ _ Ep). }
  intros to_process Hsel.
  apply always_for_each. intros folder Hfolder. apply process_folder_keeps.
  destruct Hp as [Hd|Hout]; [now left|]. right.
  assert (Hchild : is_child rom_path folder = true).
  { apply Hentries, Hdirs. apply (Permutation_in folder (sorted_permutation dirs)).
    now apply Hsel. }
  unfold is_child. destruct p as [|c r]; [reflexivity|].
  destruct (Pathlib.path_eqb (Pathlib.parent (c :: r)) folder) eqn:E; [|reflexivity].
  apply path_eqb_eq in E. rewrite E in Hout. congruence.
Qed.

Lemma path_is_dir_kept disk p :
  path_is_dir disk p = true <->
  exists nd, lookup_node disk p = Some nd /\ node_is_dir nd = true.
Proof.
  unfold path_is_dir. split.
  - destruct (lookup_node disk p) as [nd|]; [eauto | discriminate].
  - intros (nd & -> & H). exact H.
Qed.

(** X17. [run] never removes a directory: a path that is a directory
    before the run is one after it, whatever the selection, the answers
    and the results of the converter, and also when the run ends with an
    exception. *)
Theorem run_never_deletes_a_directory rom_path s d :
  path_is_dir (fs s) d = true ->
  path_is_dir (fs (snd (run rom_path s))) d = true.
Proof.
  intros H. apply path_is_dir_kept in H. destruct H as (nd & Hl & Hd).
  apply path_is_dir_kept. exists nd. split; [|exact Hd].
  exact (run_keeps rom_path d nd (or_introl Hd) s Hl).
Qed.

Lemma run_never_deletes_a_directory_witness :
  path_is_dir (fs (ex_state ["all"; "i"; "y"; "y"; "s"; "y"] [])) ex_alpha = true /\
  path_is_dir
    (fs (snd (run ex_rom (ex_state ["all"; "i"; "y"; "y"; "s"; "y"] [])))) ex_alpha = true.
Proof.
  assert (H : path_is_dir (fs (ex_state ["all"; "i"; "y"; "y"; "s"; "y"] [])) ex_alpha
              = true) by reflexivity.
  split; [exact H|].
  exact (run_never_deletes_a_directory ex_rom _ ex_alpha H).
Defined.









Lemma disk_after_has_output res output disk :
  wrote_output res = true ->
  exists nd, lookup_node (disk_after res output disk) output = Some nd.
Proof.
  intros Hw. unfold disk_after. rewrite Hw.
  destruct (lookup_node disk output) as [nd|] eqn:E; [eauto|].
  exists (mkNode output false). unfold lookup_node in *.
  induction disk as [|x l IH]; cbn [app find] in *.
  - cbn [node_path]. now rewrite path_eqb_refl.
  - destruct (Pathlib.path_eqb (node_path x) output); [discriminate | now apply IH].
Qed.

(** X23. The archive survives the clean-up: when the converter has
    written its output and the output path is not one of the game files
    of the report, the output is on disk after [convert], on success (the
    sources are deleted) as on failure. *)
Theorem convert_keeps_its_output folder report s master rest output :
  masters report = master :: rest ->
  Pathlib.with_suffix master ".chd" = Ok output ->
  wrote_output (chdman s master output) = true ->
  ~ In output (game report) ->
  exists nd, lookup_node (fs (snd (convert folder report s))) output = Some nd.
Proof.
  intros Hm Ho Hw Hout.
  rewrite (convert_eq folder report s master rest output Hm Ho).
  destruct (disk_after_has_output (chdman s master output) output (fs s) Hw)
    as [nd Hnd].
  exists nd.
  destruct (returncode (chdman s master output) =? 0)%Z; [|exact Hnd].
  assert (H : always (kept output nd) (for_each (game report) unlink)).
  { apply always_for_each. intros f Hf. apply unlink_keeps. left. congruence. }
  apply H. exact Hnd.
Qed.

Lemma convert_keeps_its_output_witness :
  masters ex_alpha_report = [["roms"; "Alpha"; "alpha.cue"]] /\
  lookup_node (fs ex_alpha_audited) ["roms"; "Alpha"; "alpha.chd"] = None /\
  exists nd,
    lookup_node (fs (snd (convert ex_alpha ex_alpha_report ex_alpha_audited)))
      ["roms"; "Alpha"; "alpha.chd"] = Some nd.
Proof.
  assert (H : masters ex_alpha_report = [["roms"; "Alpha"; "alpha.cue"]])
    by reflexivity.
  split; [exact H|]. split; [reflexivity|].
  apply (convert_keeps_its_output ex_alpha ex_alpha_report ex_alpha_audited _ _ _ H);
    [reflexivity | reflexivity |].
  cbn. intuition discriminate.
Defined.

(** ** Letter case in names and in the taxonomy *)

Lemma lower_char_dot c : Ascii.eqb (PyStr.lower_char c) "." = Ascii.eqb c ".".
Proof. bits c; reflexivity. Qed.

Lemma lower_char_idem c : PyStr.lower_char (PyStr.lower_char c) = PyStr.lower_char c.
Proof. bits c; reflexivity. Qed.

Lemma lower_idem s : PyStr.lower (PyStr.lower s) = PyStr.lower s.
Proof.
  induction s as [|c r IH]; cbn [PyStr.lower]; [reflexivity|].
  now rewrite lower_char_idem, IH.
Qed.

Lemma endswith_lower s : PyStr.endswith "." (PyStr.lower s) = PyStr.endswith "." s.
Proof.
  induction s as [|c r IH]; [reflexivity|].
  cbn [PyStr.lower PyStr.endswith]. destruct r as [|d r'].
  - cbn [PyStr.lower]. apply lower_char_dot.
  - exact IH.
Qed.

Lemma lstrip_lower s :
  PyStr.lstrip "." (PyStr.lower s) = PyStr.lower (PyStr.lstrip "." s).
Proof.
  induction s as [|c r IH]; [reflexivity|].
  cbn [PyStr.lower PyStr.lstrip]. rewrite lower_char_dot.
  destruct (Ascii.eqb c "."); [exact IH | reflexivity].
Qed.

Lemma from_first_lower s :
  from_first "." (PyStr.lower s) = PyStr.lower (from_first "." s).
Proof.
  induction s as [|c r IH]; [reflexivity|].
  cbn [PyStr.lower from_first]. rewrite lower_char_dot.
  destruct (Ascii.eqb c "."); [reflexivity | exact IH].
Qed.

Lemma rfind_lower s : PyStr.rfind "." (PyStr.lower s) = PyStr.rfind "." s.
Proof.
  induction s as [|c r IH]; [reflexivity|].
  cbn [PyStr.lower PyStr.rfind]. now rewrite IH, lower_char_dot.
Qed.

Lemma length_lower s : String.length (PyStr.lower s) = String.length s.
Proof. induction s as [|c r IH]; simpl; [reflexivity | now rewrite IH]. Qed.

Lemma drop_lower n : forall s,
  PyStr.drop n (PyStr.lower s) = PyStr.lower (PyStr.drop n s).
Proof.
  induction n as [|n IH]; intros s; [reflexivity|].
  destruct s as [|c r]; [reflexivity|]. cbn [PyStr.lower PyStr.drop]. apply IH.
Qed.

Lemma compound_suffix_lower nm :
  PyStr.lower (compound_suffix nm) = compound_suffix (PyStr.lower nm).
Proof.
  unfold compound_suffix. rewrite endswith_lower.
  destruct (PyStr.endswith "." nm); [reflexivity|].
  now rewrite lstrip_lower, from_first_lower.
Qed.

Lemma suffix_lower p :
  PyStr.lower (Pathlib.suffix p) = Pathlib.suffix [PyStr.lower (Pathlib.name p)].
Proof.
  unfold Pathlib.suffix. change (Pathlib.name [PyStr.lower (Pathlib.name p)])
    with (PyStr.lower (Pathlib.name p)).
  rewrite rfind_lower, length_lower.
  destruct ((0 <? PyStr.rfind "." (Pathlib.name p))%Z &&
            (PyStr.rfind "." (Pathlib.name p)
             <? Z.of_nat (String.length (Pathlib.name p)) - 1)%Z);
    [now rewrite drop_lower | reflexivity].
Qed.

(** The extension that [classify] looks up is a function of the name in
    lower case. *)
Lemma classify_ext_lower_name p :
  classify_ext p = classify_ext [PyStr.lower (Pathlib.name p)].
Proof.
  rewrite !classify_ext_spec. unfold spec_ext.
  change (Pathlib.name [PyStr.lower (Pathlib.name p)])
    with (PyStr.lower (Pathlib.name p)).
  rewrite !compound_suffix_lower, !suffix_lower, lower_idem.
  change (Pathlib.name [PyStr.lower (Pathlib.name p)])
    with (PyStr.lower (Pathlib.name p)).
  now rewrite lower_idem.
Qed.

Lemma classify_ext_is_lower p : PyStr.lower (classify_ext p) = classify_ext p.
Proof.
  unfold classify_ext.
  destruct (PyStr.lower (String.concat EmptyString (Pathlib.suffixes p))) as [|c r] eqn:E.
  - apply lower_idem.
  - rewrite <- E. apply lower_idem.
Qed.

(** X20. On names written in Latin-1 (every character a code point up to
    U+00FF, as the strings of this embedding are, where [lower] works
    character by character), [classify] looks at the name only and
    without regard to letter case: two paths whose final components are
    equal once lower-cased get the same category, in whatever folders they
    are. *)
Theorem classify_ignores_case_and_folder config p q :
  PyStr.lower (Pathlib.name p) = PyStr.lower (Pathlib.name q) ->
  classify config p = classify config q.
Proof.
  intros H. unfold classify.
  now rewrite (classify_ext_lower_name p), (classify_ext_lower_name q), H.
Qed.

Lemma classify_ignores_case_and_folder_witness :
  classify default_data ["roms"; "Alpha"; "GAME.State.AUTO"] = Save /\
  classify default_data ["game.state.auto"] = Save.
Proof.
  assert (H : classify default_data ["roms"; "Alpha"; "GAME.State.AUTO"]
              = classify default_data ["game.state.auto"])
    by (apply classify_ignores_case_and_folder; reflexivity).
  split; [rewrite H|]; reflexivity.
Defined.

Lemma mem_filter_lower ext l :
  PyStr.lower ext = ext -> mem ext (filter is_lower l) = mem ext l.
Proof.
  intros Hext. induction l as [|x r IH]; [reflexivity|].
  cbn [filter]. unfold is_lower at 1.
  destruct (String.eqb_spec (PyStr.lower x) x) as [Hx|Hx].
  - unfold mem in *. cbn [existsb]. now rewrite IH.
  - unfold mem in *. cbn [existsb]. rewrite IH.
    destruct (String.eqb_spec ext x) as [->|_]; [contradiction | reflexivity].
Qed.

(** X21. Only entries written in lower case ever match.  An entry of the
    taxonomy that has a capital letter is dead: taking those entries out
    changes no classification, and the entry that gives a file its
    category is in lower case. *)
Theorem mixed_case_entries_never_match config p :
  classify config p = classify (lower_case_entries config) p /\
  (forall cat, classify config p = cat -> cat <> Unknown ->
     exists ext, In ext (categories config cat) /\ is_lower ext = true /\
                 ext = classify_ext p).
Proof.
  split.
  - unfold classify, lower_case_entries.
    cbn [first_category categories game_exts save_exts ignore_exts].
    now rewrite !(mem_filter_lower _ _ (classify_ext_is_lower p)).
  - intros cat Hc Hcat. exists (classify_ext p).
    split; [exact (classify_in config p cat Hc Hcat)|].
    split; [|reflexivity].
    unfold is_lower. rewrite classify_ext_is_lower. apply String.eqb_refl.
Qed.

(** ** One category per extension *)

Lemma one_category_append t cat ext t' :
  one_category t -> ~ known_ext t ext ->
  categories_append t cat ext = Ok t' ->
  one_category t'.
Proof.
  unfold one_category, known_ext. intros [Hg Hs] Hk Happ.
  destruct cat; cbn [categories_append] in Happ; try discriminate;
    injection Happ as <-; cbn [game_exts save_exts ignore_exts];
    (split; [intros e He | intros e He]);
    rewrite ?in_app_iff in *; cbn [In] in *.
  - destruct He as [He|[<-|[]]]; [now apply Hg | tauto].
  - now apply Hs.
  - specialize (Hg e He). split; [|tauto]. intros [H|[<-|[]]]; tauto.
  - destruct He as [He|[<-|[]]]; [now apply Hs | tauto].
  - specialize (Hg e He). split; [tauto|]. intros [H|[<-|[]]]; tauto.
  - specialize (Hs e He). intros [H|[<-|[]]]; tauto.
Qed.

Lemma always_fold_m_in {A B} (I : State -> Prop) (body : A -> B -> M B) (l : list A) :
  (forall x acc, In x l -> always I (body x acc)) ->
  forall acc, always I (fold_m body l acc).
Proof.
  induction l as [|x r IH]; intros H acc; cbn [fold_m]; [apply always_ret|].
  apply always_bind; [apply H; now left|].
  intros acc'. apply IH. intros y a Hy. apply H. now right.
Qed.

Lemma audit_item_one_category disk item acc :
  (path_is_dir disk item = false -> learned_ext item <> EmptyString) ->
  always (fun s => one_category (config s) /\ fs s = disk) (audit_item item acc).
Proof.
  intros Hitem s [Hone Hfs].
  destruct (path_is_dir (fs s) item) eqn:Hd.
  { rewrite (audit_item_dir item acc s Hd). auto. }
  destruct (Category_eq_dec (classify (config s) item) Unknown) as [Hc|Hc].
  2:{ rewrite (audit_item_known item acc s Hd Hc). auto. }
  destruct (stdin s) as [|answer rest] eqn:Hin.
  { rewrite (audit_item_eof item acc s Hd Hc Hin). auto. }
  destruct (audit_item_unknown item acc s answer rest Hd Hc Hin) as (t' & Ht & E).
  rewrite E.
  pose proof (save_config_fs (learning item answer rest t' s)) as F.
  pose proof (save_config_config (learning item answer rest t' s)) as C.
  assert (Hnew : one_category t').
  { apply (one_category_append (config s) (mapping_get (PyStr.lower answer))
             (learned_ext item) t' Hone); [|exact Ht].
    rewrite <- (learned_is_classify_ext item) by (apply Hitem; congruence).
    now apply classify_unknown. }
  destruct (save_config (learning item answer rest t' s)) as [[[]|e] s2];
    cbn [snd learning config fs set_config emit set_trace set_stdin] in *;
    rewrite C, F; auto.
Qed.

(** X22. The audit does not file an extension under a second category.
    When no extension of the taxonomy is listed under two categories and
    every file of the folder has a compound suffix, this still holds after
    [audit_folder], whether it returns or raises. *)
Theorem audit_keeps_one_category_per_extension folder s :
  one_category (config s) ->
  (forall item, In item (children (fs s) folder) ->
                path_is_dir (fs s) item = false ->
                learned_ext item <> EmptyString) ->
  one_category (config (snd (audit_folder folder s))).
Proof.
  intros Hone Hitems.
  assert (H : always (fun s' => one_category (config s') /\ fs s' = fs s)
                (audit_folder folder)).
  { unfold audit_folder.
    apply always_bind_post with (Q := fun items => items = children (fs s) folder).
    - intros s' Hs'. replace (snd (iterdir folder s')) with s'; [exact Hs'|].
      unfold iterdir. destruct (lookup_node (fs s') folder) as [x|]; [|reflexivity]. now destruct (node_is_dir x).
    - intros s' items s1 [_ Hfs] E. unfold iterdir in E.
      destruct (lookup_node (fs s') folder) as [x|]; [|discriminate].
      destruct (node_is_dir x); [|discriminate]. injection E as <- _. now rewrite Hfs.
    - intros items ->. apply always_fold_m_in. intros item acc Hin.
      apply audit_item_one_category. now apply Hitems. }
  apply H. auto.
Qed.

Lemma mixed_case_entries_never_match_witness :
  classify (mkTaxonomy [".ISO"] [] [".iso"]) ["GAME.ISO"] = Ignore /\
  exists ext, In ext [".iso"] /\ is_lower ext = true /\ ext = classify_ext ["GAME.ISO"].
Proof.
  assert (H : classify (mkTaxonomy [".ISO"] [] [".iso"]) ["GAME.ISO"] = Ignore)
    by reflexivity.
  split; [exact H|].
  apply (proj2 (mixed_case_entries_never_match (mkTaxonomy [".ISO"] [] [".iso"])
                  ["GAME.ISO"]) Ignore H).
  discriminate.
Defined.

Ltac apart :=
  intros e He; simpl in He;
  repeat match goal with
         | H : _ \/ _ |- _ => destruct H as [<-|H]
         | H : False |- _ => destruct H
         end;
  simpl; repeat split; intuition discriminate.

Lemma audit_keeps_one_category_per_extension_witness :
  one_category (config (ex_state ["i"] [])) /\
  one_category (config (snd (audit_folder ex_alpha (ex_state ["i"] [])))).
Proof.
  assert (H : one_category (config (ex_state ["i"] []))).
  { split; apart. }
  split; [exact H|].
  apply (audit_keeps_one_category_per_extension ex_alpha _ H).
  intros item Hin _. vm_compute in Hin.
  repeat match goal with
         | H : _ \/ _ |- _ => destruct H as [<-|H]
         | H : False |- _ => destruct H
         end; discriminate.
Defined.
